(** * YT-Valorant-VODs: a shallow embedding of the pipeline and its properties

    The Python program finds local match recordings, pairs them with the
    matches reported by a stats API, uploads the paired videos and logs
    them in a spreadsheet.  Each source function the properties speak about
    is embedded below as a Rocq function of the same name.

    Conventions.
    - Python [int] values are [Z].  The frame rate and the frame count of a
      video are binary64 floats and their quotient is the rounded one, as in
      Python.  Timestamps and sleep times are rationals [Q]: every float
      is one.  The program truncates and compares timestamps and subtracts
      UNIX times, whose float difference is the exact one until 2038; a
      sleep time is the number asked for, before any rounding.
    - A call that can raise returns an [outcome]; [exit()] raises
      [SystemExit].  A loop that may run forever takes a fuel argument and
      answers [OutOfFuel] when it is exhausted.
    - Results of input/output (the stats API, the YouTube API, the file
      system, the clock) are supplied by the caller as oracles. *)

From Stdlib Require Import PrimFloat FloatOps SpecFloat.
From Stdlib Require Import Ascii QArith Qabs Lqa.
From stdpp Require Import gmap strings list fin_maps pretty.

Local Open Scope string_scope.
Local Open Scope list_scope.
Local Open Scope Z_scope.

(** ** Python outcomes *)

Module Py.

Inductive exc : Type :=
| TypeError
| ValueError
| IndexError
| KeyError
| ZeroDivisionError
| AttributeError
| SystemExit
| HttpError (status : Z)
| ExceptionHistory (runs : nat).

Inductive outcome (A : Type) : Type :=
| Ret (a : A)
| Raise (e : exc)
| OutOfFuel.

Arguments Ret {A} a.
Arguments Raise {A} e.
Arguments OutOfFuel {A}.

Definition bind {A B} (m : outcome A) (k : A -> outcome B) : outcome B :=
  match m with
  | Ret a => k a
  | Raise e => Raise e
  | OutOfFuel => OutOfFuel
  end.

(** [l[i]] with Python's negative indices; out of range raises. *)
Definition index {A} (l : list A) (i : Z) : outcome A :=
  let n := Z.of_nat (length l) in
  let j := if i <? 0 then i + n else i in
  if (j <? 0) || (n <=? j) then Raise IndexError
  else match l !! Z.to_nat j with
       | Some a => Ret a
       | None => Raise IndexError
       end.

(** [d[k]] on a dict. *)
Definition getitem {V} (d : gmap string V) (k : string) : outcome V :=
  match d !! k with
  | Some v => Ret v
  | None => Raise KeyError
  end.

(** [int(x)] on a float truncates towards zero. *)
Definition int (x : Q) : Z := Z.quot (Qnum x) (Zpos (Qden x)).

(** Comparisons of numbers, as booleans. *)
Definition ltb (x y : Q) : bool := if Qlt_le_dec x y then true else false.

(** What a binary64 float stands for. *)
Inductive number : Type :=
| NaN
| NegInf
| PosInf
| Finite (q : Q).

Definition float_number (x : PrimFloat.float) : number :=
  match FloatOps.Prim2SF x with
  | SpecFloat.S754_zero _ => Finite 0
  | SpecFloat.S754_infinity s => if s then NegInf else PosInf
  | SpecFloat.S754_nan => NaN
  | SpecFloat.S754_finite s m e =>
      let v := (inject_Z (Zpos m) * Qpower 2 e)%Q in
      Finite (if s then - v else v)%Q
  end.

(** [x < n] for a float and an int: Python compares the two numbers
    exactly, and no number is below or above nan. *)
Definition float_lt_int (x : PrimFloat.float) (n : Z) : bool :=
  match float_number x with
  | NaN => false
  | NegInf => true
  | PosInf => false
  | Finite q => ltb q (inject_Z n)
  end.

End Py.

Notation "x <- m ;; k" := (Py.bind m (fun x => k))
  (at level 100, m at next level, right associativity).

Import Py.

(** ** schemas/excelMatchEntry.py *)

Module excelMatchEntry.

(** A value held by an attribute or by a spreadsheet cell. *)
Inductive value : Type :=
| VNone
| VStr (s : string)
| VNum (n : Z).

#[global] Instance value_eq_dec : EqDecision value.
Proof. solve_decision. Defined.

Definition of_opt (o : option string) : value :=
  match o with Some s => VStr s | None => VNone end.

Inductive ExcelMatchEntryOrder : Type :=
| matchId | date | matchResult | score | agent | map | rank | YTLink | localPath.

#[global] Instance ExcelMatchEntryOrder_eq_dec : EqDecision ExcelMatchEntryOrder.
Proof. solve_decision. Defined.

(** The members, in definition order. *)
Definition members : list ExcelMatchEntryOrder :=
  [matchId; date; matchResult; score; agent; map; rank; YTLink; localPath].

(** [member.value] *)
Definition value_of (o : ExcelMatchEntryOrder) : Z :=
  match o with
  | matchId => 0 | date => 1 | matchResult => 2 | score => 3 | agent => 4
  | map => 5 | rank => 6 | YTLink => 7 | localPath => 8
  end.

(** [member.name] *)
Definition name (o : ExcelMatchEntryOrder) : string :=
  match o with
  | matchId => "matchId" | date => "date" | matchResult => "matchResult"
  | score => "score" | agent => "agent" | map => "map" | rank => "rank"
  | YTLink => "YTLink" | localPath => "localPath"
  end.

(** [ExcelMatchEntryOrder(i)]: lookup by value, [ValueError] when no member
    has it. *)
Definition by_value (i : Z) : outcome ExcelMatchEntryOrder :=
  match List.find (fun o => value_of o =? i) members with
  | Some o => Ret o
  | None => Raise ValueError
  end.

Definition printableTitles : gmap string string :=
  list_to_map
    [ ("matchId", "Riot Match ID"); ("date", "Date");
      ("matchResult", "Match Result"); ("score", "Score");
      ("agent", "Agent"); ("map", "Map"); ("rank", "Rank");
      ("YTLink", "YouTube Link"); ("localPath", "Local Path") ].

Record ExcelMatchEntry : Type := mkEntry {
  e_matchId : string;
  e_date : string;
  e_matchResult : string;
  e_score : string;
  e_agent : string;
  e_map : string;
  e_rank : option string;
  e_YTLink : option string;
  e_localPath : option string
}.

#[global] Instance ExcelMatchEntry_eq_dec : EqDecision ExcelMatchEntry.
Proof. solve_decision. Defined.

(** [self.__dict__] *)
Definition dict (e : ExcelMatchEntry) : gmap string value :=
  list_to_map
    [ ("matchId", VStr (e_matchId e)); ("date", VStr (e_date e));
      ("matchResult", VStr (e_matchResult e)); ("score", VStr (e_score e));
      ("agent", VStr (e_agent e)); ("map", VStr (e_map e));
      ("rank", of_opt (e_rank e)); ("YTLink", of_opt (e_YTLink e));
      ("localPath", of_opt (e_localPath e)) ].

(** The field a member of the order names, read directly. *)
Definition field (e : ExcelMatchEntry) (o : ExcelMatchEntryOrder) : value :=
  match o with
  | matchId => VStr (e_matchId e) | date => VStr (e_date e)
  | matchResult => VStr (e_matchResult e) | score => VStr (e_score e)
  | agent => VStr (e_agent e) | map => VStr (e_map e)
  | rank => of_opt (e_rank e) | YTLink => of_opt (e_YTLink e)
  | localPath => of_opt (e_localPath e)
  end.

(** [for i in range(n): result += (f(i),)] *)
Fixpoint collect {A} (f : Z -> outcome A) (idxs : list Z) (result : list A)
  : outcome (list A) :=
  match idxs with
  | [] => Ret result
  | i :: rest => x <- f i ;; collect f rest (result ++ [x])
  end.

(** [range(n)] *)
Definition range (n : nat) : list Z := List.map Z.of_nat (seq 0 n).

Definition asTuple (self : ExcelMatchEntry) : outcome (list value) :=
  collect (fun i => o <- by_value i ;; getitem (dict self) (name o))
          (range (length members)) [].

Definition getPrintableTitlesInOrder : outcome (list string) :=
  collect (fun i => o <- by_value i ;; getitem printableTitles (name o))
          (range (length members)) [].

End excelMatchEntry.

(** ** The match record of the stats API *)

Module valorant_api.

Record Match : Type := mkMatch {
  meta_id : string;
  meta_started_at : string;
  meta_map_name : string;
  stats_team : string;
  stats_character_name : string;
  teams_red : Z;
  teams_blue : Z
}.

#[global] Instance Match_eq_dec : EqDecision Match.
Proof. solve_decision. Defined.

(** A page of the match list, as [get_matchlist] answers it. *)
Record Page : Type := mkPage {
  results_returned : Z;
  results_after : Z;
  data : list Match
}.

End valorant_api.

Import valorant_api.

(** ** schemas/valorantData.py *)

Module valorantData.

(** What the file data.json holds: [None] when it is missing or is not a
    JSON object, else the object, whose values are strings or null. *)
Definition DataFile : Type := option (gmap string (option string)).

(** The object: the three attributes, [None] until known. *)
Record ValorantData : Type := mkData {
  gameName : option string;
  tagLine : option string;
  region : option string
}.

(** [loadFromDisk]: any failure, a missing key included, leaves the three
    attributes at [None]. *)
Definition loadFromDisk (file : DataFile) : ValorantData :=
  match file with
  | Some data =>
      match data !! "gameName", data !! "tagLine", data !! "valRegion" with
      | Some g, Some t, Some r => mkData g t r
      | _, _, _ => mkData None None None
      end
  | None => mkData None None None
  end.

(** [__init__] *)
Definition init (file : DataFile) : ValorantData := loadFromDisk file.

(** [writeToDisk]: the file after the dump. *)
Definition writeToDisk (self : ValorantData) : DataFile :=
  Some (<["valRegion" := region self]>
          (<["tagLine" := tagLine self]>
             (<["gameName" := gameName self]> ∅))).

(** [update]; an argument left at [None] changes nothing. *)
Definition update (self : ValorantData) (gameName_ tagLine_ reigon : option string)
    : ValorantData :=
  let self :=
    if gameName_ is Some _ then mkData gameName_ (tagLine self) (region self)
    else self in
  let self :=
    if tagLine_ is Some _ then mkData (gameName self) tagLine_ (region self)
    else self in
  if reigon is Some _ then mkData (gameName self) (tagLine self) reigon
  else self.

Definition valid (self : ValorantData) : bool :=
  if bool_decide (gameName self = None) || bool_decide (tagLine self = None)
     || bool_decide (region self = None)
  then false else true.

End valorantData.

(** ** utils.py *)

Module utils.

(** [{"video_path": ..., "match_data": ...}] *)
Record Pairing : Type := mkPairing {
  video_path : string;
  match_data : Match
}.

#[global] Instance Pairing_eq_dec : EqDecision Pairing.
Proof. solve_decision. Defined.

(** The default of [time_threshold]. *)
Definition default_time_threshold : Z := 60 * 5.

(** The default of [pageSize]. *)
Definition default_pageSize : Z := 10.

(** [min(xs)]: [ValueError] on an empty sequence. *)
Definition py_min (xs : list Z) : outcome Z :=
  match xs with
  | [] => Raise ValueError
  | x :: rest => Ret (fold_left Z.min rest x)
  end.

Section with_timeUtils.

(** [timeUtils.utc_to_unix]: the timestamp of an ISO 8601 string. *)
Variable utc_to_unix : string -> Q.

(** The test of line 52: [abs(video_date - match_date) < time_threshold]. *)
Definition close (video_date : Z) (match_date : Q) (time_threshold : Z)
  : bool :=
  ltb (Qabs (inject_Z video_date - match_date)) (inject_Z time_threshold).

(** The dictionary is a finite map, walked in the order of [map_to_list];
    Python walks it in insertion order, so the pairings of one match may
    come in another order there.  Which pairings are found, and how often,
    does not depend on the order. *)
Definition compare_matchlist_with_video_dates
    (matchlist : list Match) (localVideoDates : gmap string Z)
    (time_threshold : Z) : list Pairing :=
  fold_left
    (fun found_pairings match_ =>
       let match_date := utc_to_unix (meta_started_at match_) in
       fold_left
         (fun found_pairings '(video_path, video_date) =>
            if close video_date match_date time_threshold
            then found_pairings ++ [mkPairing video_path match_]
            else found_pairings)
         (map_to_list localVideoDates) found_pairings)
    matchlist [].

Section with_api.

(** [valorant_api.get_matchlist] for the saved player, by page size and
    page number; [None] on an HTTP error. *)
Variable get_matchlist : Z -> Z -> option Page.

(** The state of the [while] loop of [get_pairings], with the page
    numbers requested so far. *)
Record loop_state : Type := mkLoop {
  requested : list Z;
  page : Z;
  oldest_match_date : Q;
  total_pairings : list Pairing
}.

Fixpoint get_pairings_loop (fuel : nat)
    (localVideoDates : gmap string Z) (pageSize time_threshold : Z)
    (oldest_local_video_date : Z) (st : loop_state)
    : list Z * outcome (list Pairing) :=
  if negb (ltb (inject_Z oldest_local_video_date) (oldest_match_date st))
  then (requested st, Ret (total_pairings st))
  else
    match fuel with
    | O => (requested st, OutOfFuel)
    | S fuel' =>
        let requested' := requested st ++ [page st] in
        match get_matchlist pageSize (page st) with
        | None => (requested', Raise SystemExit)
        | Some matchlist =>
            let returnedEntries := results_returned matchlist in
            match index (data matchlist) (returnedEntries - 1) with
            | Ret last =>
                let pairings :=
                  compare_matchlist_with_video_dates
                    (data matchlist) localVideoDates time_threshold in
                let total := total_pairings st ++ pairings in
                if returnedEntries =? results_after matchlist
                then (requested', Ret total)
                else
                  get_pairings_loop fuel' localVideoDates pageSize
                    time_threshold oldest_local_video_date
                    (mkLoop requested' (page st + 1)
                            (utc_to_unix (meta_started_at last)) total)
            | Raise e => (requested', Raise e)
            | OutOfFuel => (requested', OutOfFuel)
            end
        end
    end.

(** [get_pairings]; [now] is what [time.time()] answers.  The first
    component of the result lists the page numbers requested. *)
Definition get_pairings (fuel : nat) (now : Q)
    (localVideoDates : gmap string Z) (pageSize time_threshold : Z)
    : list Z * outcome (list Pairing) :=
  match py_min (snd <$> map_to_list localVideoDates) with
  | Ret oldest_local_video_date =>
      get_pairings_loop fuel localVideoDates pageSize time_threshold
        oldest_local_video_date (mkLoop [] 1 now [])
  | Raise e => ([], Raise e)
  | OutOfFuel => ([], OutOfFuel)
  end.

End with_api.

End with_timeUtils.

Definition getGameResult (match_data : Match) : string * string :=
  let player_team := stats_team match_data in
  let '(player_score, enemy_score) :=
    if String.eqb player_team "Red"
    then (teams_red match_data, teams_blue match_data)
    else (teams_blue match_data, teams_red match_data) in
  let result :=
    if player_score >? enemy_score then "Win"
    else if player_score <? enemy_score then "Loss"
    else "Draw" in
  let score := pretty player_score +:+ "-" +:+ pretty enemy_score in
  (result, score).

(** A player of a match, as [get_match] reports it. *)
Record Player : Type := mkPlayer {
  player_name : string;
  player_tag : string;
  currenttier_patched : string
}.

Section with_match_api.

(** [valorant_api.get_match]: the players of a match ([all_players]),
    [None] on an HTTP error. *)
Variable get_match : string -> option (list Player).

(** The saved [ValorantData]. *)
Variables gameName tagLine : string.

Definition getRankBeforeMatch (match_id : string) : outcome (option string) :=
  match get_match match_id with
  | None => Raise SystemExit
  | Some all_players =>
      Ret (currenttier_patched <$>
             List.find (fun player =>
                          String.eqb (player_name player) gameName
                          && String.eqb (player_tag player) tagLine)
                       all_players)
  end.

End with_match_api.

(** [configure]: [input] answers the prompts, in order; the result is the
    file data.json afterwards and the number of prompts shown. *)
Definition configure (file : valorantData.DataFile) (input : nat -> string)
    : valorantData.DataFile * nat :=
  let data := valorantData.init file in
  if negb (valorantData.valid data) then
    let gameName := input 0%nat in
    let tagLine := input 1%nat in
    let valRegion := input 2%nat in
    let data :=
      valorantData.update data (Some gameName) (Some tagLine) (Some valRegion) in
    (valorantData.writeToDisk data, 3%nat)
  else (file, 0%nat).

End utils.

(** ** videoUtils.py *)

Module videoUtils.

(** [s.endswith(ext)] *)
Definition endswith (s ext : string) : bool :=
  let n := String.length s in
  let k := String.length ext in
  (k <=? n)%nat && String.eqb (String.substring (n - k) k s) ext.

Section with_filesystem.

(** [os.walk(directory)]: the directories with their file names. *)
Variable os_walk : string -> list (string * list string).
(** [os.path.join] *)
Variable path_join : string -> string -> string.
(** [cv2.VideoCapture]: [None] when the file cannot be opened, else the
    frames per second and the frame count. *)
Variable VideoCapture : string -> option (PrimFloat.float * PrimFloat.float).
(** [os.path.getctime] *)
Variable getctime : string -> Q.

Definition search_for_mp4_files (directory : string) : list string :=
  let extension := ".mp4" in
  fold_left
    (fun mp4_files '(dirpath, filenames) =>
       fold_left
         (fun mp4_files filename =>
            if endswith filename extension
            then mp4_files ++ [path_join dirpath filename]
            else mp4_files)
         filenames mp4_files)
    (os_walk directory) [].

(** [x / y] on floats: a zero divisor of either sign raises, any other
    quotient is rounded to the nearest float. *)
Definition truediv (x y : PrimFloat.float) : outcome PrimFloat.float :=
  if PrimFloat.eqb y 0%float then Raise ZeroDivisionError
  else Ret (PrimFloat.div x y).

Fixpoint filter_out_short_videos_loop (mp4_files : list string)
    (minDuration : Z) (long_videos : list string) : outcome (list string) :=
  match mp4_files with
  | [] => Ret long_videos
  | video_path :: rest =>
      match VideoCapture video_path with
      | None => filter_out_short_videos_loop rest minDuration long_videos
      | Some (fps, frame_count) =>
          duration <- truediv frame_count fps ;;
          if float_lt_int duration minDuration
          then filter_out_short_videos_loop rest minDuration long_videos
          else filter_out_short_videos_loop rest minDuration
                 (long_videos ++ [video_path])
      end
  end.

Definition filter_out_short_videos (mp4_files : list string)
    (minDuration : Z) : outcome (list string) :=
  filter_out_short_videos_loop mp4_files minDuration [].

Definition filter_out_old_videos (mp4_files : list string)
    (minCreationDate : Q) : list string :=
  fold_left
    (fun filtered_videos video_path =>
       let creation_date := Py.int (getctime video_path) in
       if ltb (inject_Z creation_date) minCreationDate
       then filtered_videos
       else filtered_videos ++ [video_path])
    mp4_files [].

Definition get_video_creation_dates (videos : list string)
    : gmap string Z :=
  fold_left
    (fun video_creation_dates video =>
       <[video := Py.int (getctime video)]> video_creation_dates)
    videos ∅.

End with_filesystem.

End videoUtils.

Import excelMatchEntry.

(** ** excelSpreadsheet.py *)

Module excelSpreadsheet.

(** A cell of the sheet: its value and the colour of its fill. *)
Record Cell : Type := mkCell {
  c_value : value;
  c_fill : option string
}.

Definition empty_cell : Cell := mkCell VNone None.

(** The active worksheet: its rows, from row 1 on, each from column A on. *)
Definition Sheet : Type := list (list Cell).

(** [sheet.append(values)]: a new row below the last one. *)
Definition append (sheet : Sheet) (values : list value) : Sheet :=
  sheet ++ [List.map (fun v => mkCell v None) values].

(** [sheet.max_row]; 1 on an empty sheet. *)
Definition max_row (sheet : Sheet) : Z := Z.max 1 (Z.of_nat (length sheet)).

(** [sheet.max_column]; 1 on an empty sheet. *)
Definition max_column (sheet : Sheet) : nat :=
  fold_left Nat.max (List.map (@length Cell) sheet) 1%nat.

(** The cell at a row and a column, both counted from 1; a cell never
    written is empty. *)
Definition cell_at (sheet : Sheet) (row col : nat) : Cell :=
  nth (col - 1) (nth (row - 1) sheet []) empty_cell.

(** [sheet[n]] for an integer [n]: the tuple of the cells of row [n]. *)
Definition row_cells (sheet : Sheet) (n : Z) : list Cell :=
  List.map (fun col => cell_at sheet (Z.to_nat n) col)
           (seq 1 (max_column sheet)).

(** The column letters the source indexes. *)
Definition letters : string := "ABCDEFGHIJKLMNOPQRSTUVWXYZ".

(** [letters[i]]: the letter at an index. *)
Definition letter_at (i : Z) : outcome Ascii.ascii :=
  index (String.list_ascii_of_string letters) i.

(** The number of the column a single letter names: A is 1. *)
Definition column_index_from_string (c : Ascii.ascii) : nat :=
  (Ascii.nat_of_ascii c - 64)%nat.

(** [sheet[letter]]: the tuple of the cells of a column, rows 1 to
    [max_row]. *)
Definition column_cells (sheet : Sheet) (c : Ascii.ascii) : list Cell :=
  List.map (fun row => cell_at sheet row (column_index_from_string c))
           (seq 1 (Z.to_nat (max_row sheet))).

(** A subscript of a tuple: an integer, or a member of the column order. *)
Inductive subscript : Type :=
| SInt (i : Z)
| SMember (o : ExcelMatchEntryOrder).

(** [t[k]] on a tuple.  [ExcelMatchEntryOrder] derives from [Enum], whose
    members are not integers, so a member as subscript is a [TypeError]. *)
Definition tuple_getitem {A} (t : list A) (k : subscript) : outcome A :=
  match k with
  | SInt i => index t i
  | SMember _ => Raise TypeError
  end.

(** The object: [self.wb] is [None] until the workbook is opened. *)
Record ExcelSpreadsheet : Type := mkExcel {
  filename : string;
  wb : option Sheet
}.

(** [__init__] *)
Definition init (filename : string) : ExcelSpreadsheet :=
  mkExcel filename None.

(** What the file on disk holds: the last workbook saved, if any. *)
Definition Disk : Type := option Sheet.

(** [load_workbook(filename)] *)
Inductive load_result : Type :=
| Loaded (sheet : Sheet)
| FileNotFoundError
| PermissionError.

(** The file loads unless it is missing or another program holds it open;
    [locked] tells, by attempt, whether it is held. *)
Definition load_workbook (disk : Disk) (locked : nat -> bool) (attempt : nat)
    : load_result :=
  if locked attempt then PermissionError
  else match disk with
       | Some sheet => Loaded sheet
       | None => FileNotFoundError
       end.

Definition header_fill : string := "538dd5".

(** [create]: a workbook whose first row holds the titles, saved. *)
Definition create (self : ExcelSpreadsheet)
    : ExcelSpreadsheet * Disk * outcome Sheet :=
  match getPrintableTitlesInOrder with
  | Ret firstRow =>
      let sheet := append [] (List.map VStr firstRow) in
      let styled :=
        List.map (fun cell => mkCell (c_value cell) (Some header_fill))
                 (row_cells sheet 1) in
      let sheet := [styled] in
      (mkExcel (filename self) (Some sheet), Some sheet, Ret sheet)
  | Raise e => (mkExcel (filename self) (Some []), None, Raise e)
  | OutOfFuel => (mkExcel (filename self) (Some []), None, OutOfFuel)
  end.

(** [open]: a missing file is created, a file held open by another
    program is tried again. *)
Fixpoint open (fuel : nat) (locked : nat -> bool) (attempt : nat)
    (self : ExcelSpreadsheet) (disk : Disk)
    : ExcelSpreadsheet * Disk * outcome Sheet :=
  match fuel with
  | O => (self, disk, OutOfFuel)
  | S fuel' =>
      match load_workbook disk locked attempt with
      | Loaded sheet => (mkExcel (filename self) (Some sheet), disk, Ret sheet)
      | FileNotFoundError => create self
      | PermissionError => open fuel' locked (S attempt) self disk
      end
  end.

(** Replace the fill of the cell at a row and a 0-based position in it. *)
Definition set_fill (sheet : Sheet) (row : Z) (pos : nat) (colour : string)
    : Sheet :=
  alter (alter (fun cell => mkCell (c_value cell) (Some colour)) pos)
        (Z.to_nat row - 1)%nat sheet.

(** The body of [for match in matches] in [writeMatchesToExcel]; the sheet
    is mutated in place, so it is returned also when the body raises. *)
Fixpoint write_rows (sheet : Sheet) (matches : list ExcelMatchEntry)
    : Sheet * outcome unit :=
  match matches with
  | [] => (sheet, Ret tt)
  | match_ :: rest =>
      match asTuple match_ with
      | Ret values =>
          let sheet := append sheet values in
          match tuple_getitem (row_cells sheet (max_row sheet))
                              (SMember matchResult) with
          | Ret matchResultCell =>
              let colour :=
                if decide (c_value matchResultCell = VStr "Win") then "00FF00"
                else if decide (c_value matchResultCell = VStr "Loss")
                     then "FF0000"
                     else "808080" in
              (* the cell found is the one at the subscript's position *)
              write_rows
                (set_fill sheet (max_row sheet)
                          (Z.to_nat (value_of matchResult)) colour)
                rest
          | Raise e => (sheet, Raise e)
          | OutOfFuel => (sheet, OutOfFuel)
          end
      | Raise e => (sheet, Raise e)
      | OutOfFuel => (sheet, OutOfFuel)
      end
  end.

(** [writeMatchesToExcel]; [self.wb.save] runs only when the loop ends
    without raising. *)
Definition writeMatchesToExcel (self : ExcelSpreadsheet) (disk : Disk)
    (matches : list ExcelMatchEntry)
    : ExcelSpreadsheet * Disk * outcome unit :=
  match wb self with
  | None => (self, disk, Ret tt)
  | Some sheet =>
      match write_rows sheet matches with
      | (sheet', Ret _) =>
          (mkExcel (filename self) (Some sheet'), Some sheet', Ret tt)
      | (sheet', r) => (mkExcel (filename self) (Some sheet'), disk, r)
      end
  end.

(** [writeMatcheToExcel] *)
Definition writeMatcheToExcel (self : ExcelSpreadsheet) (disk : Disk)
    (match_ : ExcelMatchEntry) : ExcelSpreadsheet * Disk * outcome unit :=
  writeMatchesToExcel self disk [match_].

(** [filterOutProcessedMatches]; the answer is [None] when no workbook is
    open.  Reading a column leaves the rows of the sheet as they are, which
    is so in openpyxl for every sheet that holds a cell; on a sheet without
    any cell the read creates cell I1. *)
Definition filterOutProcessedMatches (self : ExcelSpreadsheet)
    (mp4_files : list string) : outcome (option (list string)) :=
  match wb self with
  | None => Ret None
  | Some sheet =>
      letter <- letter_at (value_of localPath) ;;
      let localPaths :=
        List.map c_value (drop 1 (column_cells sheet letter)) in
      let unprocessed_videos :=
        List.filter (fun video => negb (bool_decide (VStr video ∈ localPaths)))
                    mp4_files in
      Ret (Some unprocessed_videos)
  end.

End excelSpreadsheet.

(** ** youtube_api.py *)

Module youtube_api.

(** A response of the YouTube API: a JSON object, by key. *)
Definition Response : Type := gmap string string.

(** What the runs of a call did besides answering: the requests executed
    and the seconds slept, in order. *)
Record effects : Type := mkEffects {
  executions : nat;
  sleeps : list Q
}.

Section retryAPIWithDelay.

Context {A : Type}.

(** The loop [for i in range(runs)] of the wrapper, at run [i] with
    [left] runs to go; [apiFunc i] is what run [i] of the decorated
    function does. *)
Fixpoint wrapper_loop (runs : nat) (delay : Z) (apiFunc : nat -> outcome A)
    (left i : nat) (slept : list Q) : list Q * outcome A :=
  match left with
  | O => (slept, Raise (ExceptionHistory runs))
  | S left' =>
      match apiFunc i with
      | Ret a => (slept, Ret a)
      | Raise (HttpError status) =>
          if status <? 500 then (slept, Raise (HttpError status))
          else wrapper_loop runs delay apiFunc left' (S i)
                 (slept ++ [(inject_Z delay / 1000)%Q])
      | Raise e => (slept, Raise e)
      | OutOfFuel => (slept, OutOfFuel)
      end
  end.

Definition retryAPIWithDelay (runs : nat) (delay : Z)
    (apiFunc : nat -> outcome A) : list Q * outcome A :=
  wrapper_loop runs delay apiFunc runs 0%nat [].

End retryAPIWithDelay.

Section resumable_upload.

(** [request.execute()] by attempt: a response, [None], or an exception. *)
Variable execute : nat -> outcome (option Response).
(** [random()] by call: a float in [0, 1). *)
Variable random : nat -> Q.

(** The loop [while response is None]: [attempt] executions were made,
    [error] tells whether the variable [error] is set, [retry] is the
    counter.  It ends by a [return] (the answer [None] reports the
    failure) or by an exception. *)
Fixpoint resumable_loop (fuel : nat) (retries : Z) (attempt : nat)
    (error : bool) (retry : Z) (slept : list Q)
    : effects * outcome (option Response) :=
  match fuel with
  | O => (mkEffects attempt slept, OutOfFuel)
  | S fuel' =>
      let after_try (error : bool) :=
        if error then
          let retry := retry + 1 in
          if retry >? retries then (mkEffects (S attempt) slept, Ret None)
          else
            let max_sleep := 2 ^ retry in
            let sleep_seconds := (random (length slept) * inject_Z max_sleep)%Q in
            resumable_loop fuel' retries (S attempt) error retry
                           (slept ++ [sleep_seconds])
        else resumable_loop fuel' retries (S attempt) error retry slept in
      match execute attempt with
      | Ret (Some response) =>
          if decide (is_Some (response !! "id"))
          then (mkEffects (S attempt) slept, Ret (Some response))
          else (mkEffects (S attempt) slept, Ret None)
      | Ret None => after_try error
      | Raise (HttpError status) =>
          if status >=? 500 then after_try true
          else (mkEffects (S attempt) slept, Raise (HttpError status))
      | Raise e => (mkEffects (S attempt) slept, Raise e)
      | OutOfFuel => (mkEffects (S attempt) slept, OutOfFuel)
      end
  end.

(** The default of [retries]. *)
Definition default_retries : Z := 5.

Definition resumable_upload (fuel : nat) (retries : Z)
    : effects * outcome (option Response) :=
  resumable_loop fuel retries 0 false 0 [].

End resumable_upload.

Section uploadVideo.

(** [getAndSaveCredentials] at run [i] of the decorated function:
    [Ret true] for credentials, [Ret false] when the user denies access
    ([AccessDeniedError], caught), or another exception. *)
Variable getAndSaveCredentials : nat -> outcome bool.
(** [request.execute()] by run and attempt, [random()] by run and call. *)
Variable execute : nat -> nat -> outcome (option Response).
Variable random : nat -> nat -> Q.

(** The body of [queryVideosInsert], before decoration, at run [i]. *)
Definition queryVideosInsert_body (fuel : nat) (i : nat)
    : effects * outcome (option Response) :=
  match getAndSaveCredentials i with
  | Ret true => resumable_upload (execute i) (random i) fuel default_retries
  | Ret false => (mkEffects 0 [], Ret None)
  | Raise e => (mkEffects 0 [], Raise e)
  | OutOfFuel => (mkEffects 0 [], OutOfFuel)
  end.

(** [queryVideosInsert], decorated with [@retryAPIWithDelay(runs=3,
    delay=300)]. *)
Definition queryVideosInsert (fuel : nat) : outcome (option Response) :=
  snd (retryAPIWithDelay 3 300
         (fun i => snd (queryVideosInsert_body fuel i))).

Definition uploadVideo (fuel : nat) : outcome (option string) :=
  match queryVideosInsert fuel with
  | Raise (HttpError _) => Ret None
  | Raise (ExceptionHistory _) => Ret None
  | Raise e => Raise e
  | OutOfFuel => OutOfFuel
  | Ret None => Ret None
  | Ret (Some video) => v <- getitem video "id" ;; Ret (Some v)
  end.

End uploadVideo.

Definition VODs_playlist_name : string := "Valorant VODs".

(** [str(x)] of an optional string. *)
Definition str_opt (o : option string) : string :=
  match o with Some s => s | None => "None" end.

(** The title of the upload of a game. *)
Definition title_of (game : ExcelMatchEntry) : string :=
  e_agent game +:+ ", " +:+ e_map game +:+ " | " +:+ e_date game +:+ " | "
  +:+ e_matchResult game +:+ " " +:+ e_score game +:+ " | "
  +:+ str_opt (e_rank game).

Definition videoLink_of (videoID : string) : string :=
  "https://www.youtube.com/watch?v=" +:+ videoID.

(** [copy(game)] followed by the assignment of [YTLink]. *)
Definition with_YTLink (game : ExcelMatchEntry) (videoLink : string)
    : ExcelMatchEntry :=
  mkEntry (e_matchId game) (e_date game) (e_matchResult game) (e_score game)
          (e_agent game) (e_map game) (e_rank game) (Some videoLink)
          (e_localPath game).

Section uploads.

(** The YouTube side.  [uploadVideo k path title] is what the upload of
    task [k] answers: a video id, [None] for a failure, or an exception.
    [queryPlaylistItemsInsert k videoID playlistID] is what the
    decorated query of task [k] does. *)
Variable uploadVideo : nat -> option string -> string -> outcome (option string).
Variable queryPlaylistItemsInsert :
  nat -> string -> option string -> outcome (option Response).
Variable getPlaylistIDByName : string -> outcome (option string).
Variable createPlaylist : string -> outcome (option string).

(** [addVideoToPlaylist]; the handler of [ExceptionHistory] calls
    [pprint.ppprint], which the module [pprint] does not have. *)
Definition addVideoToPlaylist (k : nat) (videoID : string)
    (playlistID : option string) : outcome (option Response) :=
  match queryPlaylistItemsInsert k videoID playlistID with
  | Raise (HttpError _) => Ret None
  | Raise (ExceptionHistory _) => Raise AttributeError
  | r => r
  end.

(** [uploadGameToYoutube], as task [k]; the shared list is returned with
    the outcome, as it is changed in place. *)
Definition uploadGameToYoutube (k : nat) (game : ExcelMatchEntry)
    (playlistID : option string) (sharedGames : list ExcelMatchEntry)
    : list ExcelMatchEntry * outcome unit :=
  let title := title_of game in
  match uploadVideo k (e_localPath game) title with
  | Ret None => (sharedGames, Ret tt)
  | Ret (Some videoID) =>
      let videoLink := videoLink_of videoID in
      let gameWithLink := with_YTLink game videoLink in
      let sharedGames := sharedGames ++ [gameWithLink] in
      match addVideoToPlaylist k videoID playlistID with
      | Ret _ => (sharedGames, Ret tt)
      | Raise e => (sharedGames, Raise e)
      | OutOfFuel => (sharedGames, OutOfFuel)
      end
  | Raise e => (sharedGames, Raise e)
  | OutOfFuel => (sharedGames, OutOfFuel)
  end.

(** The pool: the tasks, numbered as [games], run to their end in the
    order of [schedule]; their results are kept by task number. *)
Fixpoint run_pool (games : list ExcelMatchEntry) (playlistID : option string)
    (schedule : list nat) (sharedGames : list ExcelMatchEntry)
    (results : gmap nat (outcome unit))
    : list ExcelMatchEntry * gmap nat (outcome unit) :=
  match schedule with
  | [] => (sharedGames, results)
  | k :: rest =>
      match games !! k with
      | Some game =>
          let '(sharedGames, r) :=
            uploadGameToYoutube k game playlistID sharedGames in
          run_pool games playlistID rest sharedGames (<[k := r]> results)
      | None => run_pool games playlistID rest sharedGames results
      end
  end.

(** [[result.get() for result in results]]: the first task, by number,
    that raised makes the parent raise. *)
Fixpoint get_all (results : gmap nat (outcome unit)) (ks : list nat)
    : outcome unit :=
  match ks with
  | [] => Ret tt
  | k :: rest =>
      match results !! k with
      | Some (Raise e) => Raise e
      | Some OutOfFuel | None => OutOfFuel
      | Some (Ret _) => get_all results rest
      end
  end.

(** [uploadGamesToYoutube]; the answer is [None] when the playlist could
    not be looked up. *)
Definition uploadGamesToYoutube (schedule : list nat)
    (games : list ExcelMatchEntry) : outcome (option (list ExcelMatchEntry)) :=
  found <- getPlaylistIDByName VODs_playlist_name ;;
  match found with
  | None => Ret None
  | Some playlistID =>
      playlistID <-
        (if String.eqb playlistID "-1"
         then createPlaylist VODs_playlist_name
         else Ret (Some playlistID)) ;;
      let '(sharedGames, results) :=
        run_pool games playlistID schedule [] ∅ in
      _ <- get_all results (seq 0 (length games)) ;;
      Ret (Some sharedGames)
  end.

End uploads.

(** A playlist of the channel and a page of the list of playlists. *)
Record Playlist : Type := mkPlaylist {
  playlist_id : string;
  playlist_title : string
}.

Record PlaylistsPage : Type := mkPlaylistsPage {
  items : list Playlist;
  nextPageToken : option string
}.

Section playlists.

(** The decorated [queryPlaylistsList], by page token: a page, [None] when
    access is denied, or an exception. *)
Variable queryPlaylistsList : option string -> outcome (option PlaylistsPage).

(** The loop [while True] of [getPlaylistIDByName]. *)
Fixpoint getPlaylistIDByName_loop (fuel : nat) (playlistName : string)
    (nextPageToken_ : option string) : outcome (option string) :=
  match fuel with
  | O => OutOfFuel
  | S fuel' =>
      match queryPlaylistsList nextPageToken_ with
      | Raise (HttpError _) => Ret None
      | Raise (ExceptionHistory _) => Ret None
      | Raise e => Raise e
      | OutOfFuel => OutOfFuel
      | Ret None => Ret None
      | Ret (Some response) =>
          match List.find (fun playlist =>
                             String.eqb (playlist_title playlist) playlistName)
                          (items response) with
          | Some playlist => Ret (Some (playlist_id playlist))
          | None =>
              match nextPageToken response with
              | None => Ret (Some "-1")
              | Some token =>
                  getPlaylistIDByName_loop fuel' playlistName (Some token)
              end
          end
      end
  end.

Definition getPlaylistIDByName (fuel : nat) (playlistName : string)
    : outcome (option string) :=
  getPlaylistIDByName_loop fuel playlistName None.

End playlists.

(** [createPlaylist]; [queryPlaylistsInsert] is what the decorated query
    does for the name. *)
Definition createPlaylist
    (queryPlaylistsInsert : string -> outcome (option Response))
    (playlistName : string) : outcome (option string) :=
  match queryPlaylistsInsert playlistName with
  | Raise (HttpError _) => Ret None
  | Raise (ExceptionHistory _) => Ret None
  | Raise e => Raise e
  | OutOfFuel => OutOfFuel
  | Ret None => Ret None
  | Ret (Some playlist) => v <- getitem playlist "id" ;; Ret (Some v)
  end.

(** The saved or requested credentials, as far as the program looks at
    them. *)
Record Credentials : Type := mkCredentials {
  cred_scopes : list string;
  cred_valid : bool;
  cred_refresh_token : option string
}.

(** What [flow.run_local_server()] gives: credentials, or the user's denial
    ([AccessDeniedError]). *)
Inductive request_result : Type :=
| Granted (credentials : Credentials)
| AccessDenied.

(** What [credentials.refresh] does: the credentials refreshed in place, or
    an exception. *)
Inductive refresh_result : Type :=
| Refreshed (credentials : Credentials)
| RefreshFailed.

Section credentials.

Variable requestCredentials_ : request_result.
Variable refresh : Credentials -> refresh_result.

(** What [getAndSaveCredentials] leaves behind: the file credentials.json,
    whether the user was asked, and the answer. *)
Record credentials_run : Type := mkRun {
  saved : option Credentials;
  asked : bool;
  answer : request_result
}.

(** [requestCredentials] followed by [saveCredentials]. *)
Definition request_and_save (file : option Credentials) : credentials_run :=
  match requestCredentials_ with
  | Granted credentials =>
      mkRun (Some credentials) true (Granted credentials)
  | AccessDenied => mkRun file true AccessDenied
  end.

(** [refreshCredentials]: without a refresh token it raises. *)
Definition refreshCredentials (credentials : Credentials) : refresh_result :=
  match cred_refresh_token credentials with
  | Some token =>
      if String.eqb token "" then RefreshFailed else refresh credentials
  | None => RefreshFailed
  end.

Definition getAndSaveCredentials (scopes : list string)
    (file : option Credentials) : credentials_run :=
  match file with
  | None => request_and_save file
  | Some credentials =>
      if negb (forallb (fun scope =>
                          bool_decide (scope ∈ cred_scopes credentials))
                       scopes)
      then request_and_save file
      else if negb (cred_valid credentials) then
        match refreshCredentials credentials with
        | Refreshed credentials => mkRun file false (Granted credentials)
        | RefreshFailed => request_and_save file
        end
      else mkRun file false (Granted credentials)
  end.

End credentials.

End youtube_api.

(** ** main.py *)

Module main.

Import utils videoUtils excelSpreadsheet youtube_api.

(** Everything outside the program that a run of [main] consults. *)
Record World : Type := mkWorld {
  (* the file system and the video files *)
  w_os_walk : string -> list (string * list string);
  w_path_join : string -> string -> string;
  w_VideoCapture : string -> option (PrimFloat.float * PrimFloat.float);
  w_getctime : string -> Q;
  (* [time.time()], in [main] and in [get_pairings] *)
  w_time_main : Q;
  w_time_pairings : Q;
  (* the spreadsheet file *)
  w_locked : nat -> bool;
  w_disk : Disk;
  (* timeUtils *)
  w_utc_to_unix : string -> Q;
  w_utc_to_date : string -> string;
  (* the stats API, for the saved player *)
  w_get_matchlist : Z -> Z -> option Page;
  w_get_match : string -> option (list Player);
  w_gameName : string;
  w_tagLine : string;
  (* the YouTube API and the order in which the pool ends its tasks *)
  w_uploadVideo : nat -> option string -> string -> outcome (option string);
  w_queryPlaylistItemsInsert :
    nat -> string -> option string -> outcome (option Response);
  w_getPlaylistIDByName : string -> outcome (option string);
  w_createPlaylist : string -> outcome (option string);
  w_schedule : list nat
}.

Definition VOD_DIR : string :=
  "C:\Users\Nikita\Videos\Overwolf\Outplayed\Valorant".

(** The calls [main] makes, in the order of a run. *)
Inductive call : Type :=
| Configure
| Scan (directory : string)
| FilterDuration (minVideoLength : Z)
| FilterAge (minCreationDate : Q)
| OpenSpreadsheet
| FilterLogged
| Exit
| CreationDates
| FetchMatchlist (pages : list Z)
| FetchRank (match_id : string)
| Upload (games : list ExcelMatchEntry)
| WriteRows (matches : list ExcelMatchEntry).

(** The loop [for pair in pairings] that builds the entries; every turn
    asks the stats API for the rank. *)
Fixpoint build_matches (w : World) (pairings : list Pairing)
    (matches : list ExcelMatchEntry) (trace : list call)
    : list call * outcome (list ExcelMatchEntry) :=
  match pairings with
  | [] => (trace, Ret matches)
  | pair_ :: rest =>
      let m := match_data pair_ in
      let matchId_ := meta_id m in
      let date_ := w_utc_to_date w (meta_started_at m) in
      let '(matchResult_, score_) := getGameResult m in
      let agent_ := stats_character_name m in
      let gameMap := meta_map_name m in
      let trace := trace ++ [FetchRank (meta_id m)] in
      match getRankBeforeMatch (w_get_match w) (w_gameName w) (w_tagLine w)
                               (meta_id m) with
      | Ret rank_ =>
          let matchEntry :=
            mkEntry matchId_ date_ matchResult_ score_ agent_ gameMap rank_ None
                    (Some (video_path pair_)) in
          build_matches w rest (matches ++ [matchEntry]) trace
      | Raise e => (trace, Raise e)
      | OutOfFuel => (trace, OutOfFuel)
      end
  end.

(** The part of [main] after the check that videos are left. *)
Definition process (fuel : nat) (w : World) (excelFile : ExcelSpreadsheet)
    (disk : Disk) (mp4_files : list string) (trace : list call)
    : list call * Disk * outcome unit :=
  let videoDates := get_video_creation_dates (w_getctime w) mp4_files in
  let trace := trace ++ [CreationDates] in
  let '(pages, r) :=
    get_pairings (w_utc_to_unix w) (w_get_matchlist w) fuel
                 (w_time_pairings w) videoDates default_pageSize
                 default_time_threshold in
  let trace := trace ++ [FetchMatchlist pages] in
  match r with
  | Ret pairings =>
      match build_matches w pairings [] trace with
      | (trace, Ret matches) =>
          let trace := trace ++ [Upload matches] in
          match uploadGamesToYoutube
                  (w_uploadVideo w) (w_queryPlaylistItemsInsert w)
                  (w_getPlaylistIDByName w) (w_createPlaylist w)
                  (w_schedule w) matches with
          | Ret (Some matches) =>
              let trace := trace ++ [WriteRows matches] in
              let '(_, disk, r) :=
                writeMatchesToExcel excelFile disk matches in
              (trace, disk, r)
          | Ret None =>
              (* [for match in None] *)
              (trace ++ [WriteRows []], disk, Raise TypeError)
          | Raise e => (trace, disk, Raise e)
          | OutOfFuel => (trace, disk, OutOfFuel)
          end
      | (trace, Raise e) => (trace, disk, Raise e)
      | (trace, OutOfFuel) => (trace, disk, OutOfFuel)
      end
  | Raise e => (trace, disk, Raise e)
  | OutOfFuel => (trace, disk, OutOfFuel)
  end.

(** [main]: the calls made, what the spreadsheet file holds at the end,
    and how the run ends. *)
Definition main (fuel : nat) (w : World) (PATH_TO_EXCEL_FILE : string)
    : list call * Disk * outcome unit :=
  let disk := w_disk w in
  let trace := [Configure] in
  let mp4_files :=
    search_for_mp4_files (w_os_walk w) (w_path_join w) VOD_DIR in
  let trace := trace ++ [Scan VOD_DIR] in
  let minVideoLength := 20 * 60 in
  let trace := trace ++ [FilterDuration minVideoLength] in
  match filter_out_short_videos (w_VideoCapture w) mp4_files minVideoLength with
  | Ret mp4_files =>
      let minCreationDate :=
        (w_time_main w - inject_Z (60 * 60 * 24 * 7))%Q in
      let mp4_files :=
        filter_out_old_videos (w_getctime w) mp4_files minCreationDate in
      let trace := trace ++ [FilterAge minCreationDate] in
      let excelFile := init PATH_TO_EXCEL_FILE in
      let trace := trace ++ [OpenSpreadsheet] in
      match open fuel (w_locked w) 0%nat excelFile disk with
      | (excelFile, disk, Ret _) =>
          let trace := trace ++ [FilterLogged] in
          match filterOutProcessedMatches excelFile mp4_files with
          | Ret (Some mp4_files) =>
              if (length mp4_files =? 0)%nat
              then (trace ++ [Exit], disk, Raise SystemExit)
              else process fuel w excelFile disk mp4_files trace
          | Ret None => (trace, disk, Raise TypeError)
          | Raise e => (trace, disk, Raise e)
          | OutOfFuel => (trace, disk, OutOfFuel)
          end
      | (_, disk, Raise e) => (trace, disk, Raise e)
      | (_, disk, OutOfFuel) => (trace, disk, OutOfFuel)
      end
  | Raise e => (trace, w_disk w, Raise e)
  | OutOfFuel => (trace, w_disk w, OutOfFuel)
  end.

End main.

(** * Terms of the properties *)

Import utils videoUtils excelSpreadsheet youtube_api main.

(** [x >= n] for a float and an int, the numbers compared exactly; false
    of nan. *)
Definition at_least (x : PrimFloat.float) (n : Z) : bool :=
  match float_number x with
  | NaN => false
  | NegInf => false
  | PosInf => true
  | Finite q => Qle_bool (inject_Z n) q
  end.

(** The test a video passes in [filter_out_short_videos]: it opens and its
    duration, the float quotient of the frame count by the frame rate, is
    not below [minDuration]. *)
Definition long_enough
    (VideoCapture : string -> option (PrimFloat.float * PrimFloat.float))
    (minDuration : Z) (video_path : string) : bool :=
  match VideoCapture video_path with
  | Some (fps, frame_count) =>
      negb (float_lt_int (PrimFloat.div frame_count fps) minDuration)
  | None => false
  end.

(** The test as the words "duration greater than or equal to
    [minDuration]" read: it opens and the quotient is at least
    [minDuration]. *)
Definition duration_at_least
    (VideoCapture : string -> option (PrimFloat.float * PrimFloat.float))
    (minDuration : Z) (video_path : string) : bool :=
  match VideoCapture video_path with
  | Some (fps, frame_count) =>
      at_least (PrimFloat.div frame_count fps) minDuration
  | None => false
  end.

(** The test a video passes in [filter_out_old_videos]. *)
Definition new_enough (getctime : string -> Q) (minCreationDate : Q)
    (video_path : string) : bool :=
  Qle_bool minCreationDate (inject_Z (Py.int (getctime video_path))).

(** Four videos: one of exactly 20 minutes, one that does not open, one a
    frame short of 20 minutes, and one of 120 frames at the float nearest
    to a tenth of a frame per second, whose float quotient is 1200 while
    the quotient of the two numbers is below it. *)
Definition probe_example (video_path : string)
    : option (PrimFloat.float * PrimFloat.float) :=
  if String.eqb video_path "a.mp4" then Some (30, 36000)%float
  else if String.eqb video_path "c.mp4" then Some (30, 35999)%float
  else if String.eqb video_path "d.mp4"
       then Some (0x1.999999999999ap-4, 120)%float
       else None.

(** A video that opens with a frame rate of zero, and one whose frame
    count and frame rate are both infinite. *)
Definition no_rate_example (video_path : string)
    : option (PrimFloat.float * PrimFloat.float) :=
  Some (0, 36000)%float.

Definition no_number_example (video_path : string)
    : option (PrimFloat.float * PrimFloat.float) :=
  Some (PrimFloat.infinity, PrimFloat.infinity).

(** Creation times half a second above and below 1000. *)
Definition ctime_example (video_path : string) : Q :=
  if String.eqb video_path "a.mp4" then (2001 # 2)%Q else (1999 # 2)%Q.

Section pairing_terms.

Variable utc_to_unix : string -> Q.

(** The pairings of one match: the videos close to it, in the order of
    the dictionary. *)
Definition pairings_of (localVideoDates : gmap string Z) (time_threshold : Z)
    (match_ : Match) : list Pairing :=
  List.map (fun item => mkPairing item.1 match_)
    (List.filter
       (fun item => close item.2 (utc_to_unix (meta_started_at match_))
                          time_threshold)
       (map_to_list localVideoDates)).

End pairing_terms.

(** A match of the player, won 13 to 4 on the red team. *)
Definition match_example : Match :=
  mkMatch "id-1" "2023-05-17T08:54:58.101Z" "Bind" "Red" "Brimstone" 13 4.

Section backoff_terms.

Variable execute : nat -> outcome (option Response).
Variable random : nat -> Q.

(** The sleeps of [n] retries in a row, the first one being call [i] of
    [random] with the counter at [retry] before it. *)
Fixpoint backoff (i : nat) (retry : Z) (n : nat) : list Q :=
  match n with
  | O => []
  | S n' =>
      (random i * inject_Z (2 ^ (retry + 1)))%Q
      :: backoff (S i) (retry + 1) n'
  end.

(** The executions from [attempt] on fail [n] times with a server error. *)
Definition failing (attempt n : nat) : Prop :=
  forall a, (attempt <= a < attempt + n)%nat ->
    exists status, execute a = Raise (HttpError status) /\ 500 <= status.

End backoff_terms.

Section pool_terms.

Variable uploadVideo : nat -> option string -> string -> outcome (option string).
Variable queryPlaylistItemsInsert :
  nat -> string -> option string -> outcome (option Response).
Variable getPlaylistIDByName : string -> outcome (option string).
Variable createPlaylist : string -> outcome (option string).

(** What task [k] adds to the shared list: the game with its link when the
    upload answers a video id, nothing otherwise. *)
Definition linked (k : nat) (game : ExcelMatchEntry) : list ExcelMatchEntry :=
  match uploadVideo k (e_localPath game) (title_of game) with
  | Ret (Some videoID) => [with_YTLink game (videoLink_of videoID)]
  | _ => []
  end.

Definition linked_at (games : list ExcelMatchEntry) (k : nat)
    : list ExcelMatchEntry :=
  match games !! k with
  | Some game => linked k game
  | None => []
  end.

(** The playlist is found, or created when the lookup answers "-1". *)
Definition playlist_ready (playlistID : option string) : Prop :=
  exists found,
    getPlaylistIDByName VODs_playlist_name = Ret (Some found)
    /\ (if String.eqb found "-1" then createPlaylist VODs_playlist_name
        else Ret (Some found)) = Ret playlistID.

End pool_terms.

(** The entry of that match, before the upload. *)
Definition game_example : ExcelMatchEntry :=
  mkEntry "id-1" "May 17, 2023" "Win" "13-4" "Brimstone" "Bind" (Some "Gold 1")
          None (Some "a.mp4").

(** The entry of a second match, after its upload. *)
Definition second_entry_example : ExcelMatchEntry :=
  mkEntry "id-2" "May 16, 2023" "Loss" "11-13" "Sova" "Haven" (Some "Gold 1")
          (Some "https://www.youtube.com/watch?v=oHg5SJYRHA0") (Some "b.mp4").

(** The upload of task 0 answers a video id, every other one fails. *)
Definition upload_example (k : nat) (path : option string) (title : string)
    : outcome (option string) :=
  match k with
  | O => Ret (Some "dQw4w9WgXcQ")
  | _ => Ret None
  end.

Section paging_terms.

Variable utc_to_unix : string -> Q.
Variable get_matchlist : Z -> Z -> option Page.
Variable localVideoDates : gmap string Z.
Variables pageSize time_threshold : Z.
Variable oldest_local_video_date : Z.

(** A page with at least one match, [results.returned] of them. *)
Definition nonempty (p : Page) : Prop :=
  data p <> [] /\ results_returned p = Z.of_nat (length (data p)).

(** The start time of the last match of a page. *)
Definition last_start (p : Page) : Q :=
  match last (data p) with
  | Some m => utc_to_unix (meta_started_at m)
  | None => 0
  end.

(** The page ends the loop: its last match is older than the oldest local
    video, or the API reports no more matches. *)
Definition stops (p : Page) : Prop :=
  (last_start p < inject_Z oldest_local_video_date)%Q
  \/ results_returned p = results_after p.

(** The page makes the loop ask for the next one. *)
Definition continues (p : Page) : Prop :=
  (inject_Z oldest_local_video_date < last_start p)%Q
  /\ results_returned p <> results_after p.

(** The page makes the loop stop asking: its last match is not newer than
    the oldest local video, or the API reports no more matches. *)
Definition ends (p : Page) : Prop :=
  (last_start p <= inject_Z oldest_local_video_date)%Q
  \/ results_returned p = results_after p.

(** The numbers of [k] pages from page [j] on, and the pairings computed
    from them, in page order. *)
Definition pages_from (j : Z) (k : nat) : list Z :=
  List.map (fun i => j + Z.of_nat i) (seq 0 k).

Definition pairings_of_page (j : Z) : list Pairing :=
  match get_matchlist pageSize j with
  | Some p =>
      compare_matchlist_with_video_dates utc_to_unix (data p)
        localVideoDates time_threshold
  | None => []
  end.

Definition pairings_from (j : Z) (k : nat) : list Pairing :=
  flat_map pairings_of_page (pages_from j k).

End paging_terms.

(** Start times: the match named "new" at 1100, any other at 500. *)
Definition utc_example (time : string) : Q :=
  if String.eqb time "new" then 1100 # 1 else 500 # 1.

(** Two pages of one match each, then no answer. *)
Definition matchlist_example (size page : Z) : option Page :=
  if page =? 1
  then Some (mkPage 1 5 [mkMatch "id-1" "new" "Bind" "Red" "Brimstone" 13 4])
  else if page =? 2
  then Some (mkPage 1 5 [mkMatch "id-2" "old" "Haven" "Blue" "Sova" 13 11])
  else None.

(** The calls up to the check that videos are left. *)
Definition first_calls (now : Q) : list call :=
  [Configure; Scan VOD_DIR; FilterDuration 1200;
   FilterAge (now - inject_Z 604800)%Q; OpenSpreadsheet; FilterLogged].

(** The match ids of pairings: one rank request each. *)
Definition match_ids_of (pairings : list Pairing) : list string :=
  List.map (fun pair_ => meta_id (match_data pair_)) pairings.

(** The calls up to the end of the paging. *)
Definition fetch_calls (now : Q) (pages : list Z) : list call :=
  first_calls now ++ [CreationDates; FetchMatchlist pages].

(** The calls of a run that reaches its end. *)
Definition full_run (now : Q) (pages : list Z) (match_ids : list string)
    (games matches : list ExcelMatchEntry) : list call :=
  first_calls now
  ++ [CreationDates; FetchMatchlist pages]
  ++ List.map FetchRank match_ids
  ++ [Upload games; WriteRows matches].

(** The entry [main] builds from a pairing; the rank is what
    [getRankBeforeMatch] answers for the match. *)
Definition entry_of (w : World) (pair_ : Pairing) : ExcelMatchEntry :=
  let m := match_data pair_ in
  mkEntry (meta_id m) (w_utc_to_date w (meta_started_at m))
          (getGameResult m).1 (getGameResult m).2
          (stats_character_name m) (meta_map_name m)
          match getRankBeforeMatch (w_get_match w) (w_gameName w)
                                   (w_tagLine w) (meta_id m) with
          | Ret rank_ => rank_
          | _ => None
          end
          None (Some (video_path pair_)).

(** A world with one recording of 20 minutes, made 100 seconds before the
    start of the player's latest match, and no spreadsheet file yet. *)
Definition world_example : World :=
  {| w_os_walk := fun _ => [("C:\v", ["a.mp4"; "notes.txt"])];
     w_path_join := fun dirpath filename => dirpath +:+ "\" +:+ filename;
     w_VideoCapture := fun _ => Some (30, 36000)%float;
     w_getctime := fun _ => (2001 # 2)%Q;
     w_time_main := (2000 # 1)%Q;
     w_time_pairings := (2000 # 1)%Q;
     w_locked := fun _ => false;
     w_disk := None;
     w_utc_to_unix := utc_example;
     w_utc_to_date := fun _ => "May 17, 2023";
     w_get_matchlist := matchlist_example;
     w_get_match := fun _ => Some [mkPlayer "me" "NA1" "Gold 1"];
     w_gameName := "me";
     w_tagLine := "NA1";
     w_uploadVideo := upload_example;
     w_queryPlaylistItemsInsert := fun _ _ _ => Ret None;
     w_getPlaylistIDByName := fun _ => Ret (Some "PL1");
     w_createPlaylist := fun _ => Ret None;
     w_schedule := [0%nat] |}.

(** The same world without any video file. *)
Definition world_without_videos : World :=
  {| w_os_walk := fun _ => [("C:\v", ["notes.txt"])];
     w_path_join := w_path_join world_example;
     w_VideoCapture := w_VideoCapture world_example;
     w_getctime := w_getctime world_example;
     w_time_main := w_time_main world_example;
     w_time_pairings := w_time_pairings world_example;
     w_locked := w_locked world_example;
     w_disk := w_disk world_example;
     w_utc_to_unix := w_utc_to_unix world_example;
     w_utc_to_date := w_utc_to_date world_example;
     w_get_matchlist := w_get_matchlist world_example;
     w_get_match := w_get_match world_example;
     w_gameName := w_gameName world_example;
     w_tagLine := w_tagLine world_example;
     w_uploadVideo := w_uploadVideo world_example;
     w_queryPlaylistItemsInsert := w_queryPlaylistItemsInsert world_example;
     w_getPlaylistIDByName := w_getPlaylistIDByName world_example;
     w_createPlaylist := w_createPlaylist world_example;
     w_schedule := w_schedule world_example |}.

(** The world of a second run: as [w], with the spreadsheet file as the
    first run left it. *)
Definition rerun (w : World) (disk : Disk) : World :=
  {| w_os_walk := w_os_walk w;
     w_path_join := w_path_join w;
     w_VideoCapture := w_VideoCapture w;
     w_getctime := w_getctime w;
     w_time_main := w_time_main w;
     w_time_pairings := w_time_pairings w;
     w_locked := w_locked w;
     w_disk := disk;
     w_utc_to_unix := w_utc_to_unix w;
     w_utc_to_date := w_utc_to_date w;
     w_get_matchlist := w_get_matchlist w;
     w_get_match := w_get_match w;
     w_gameName := w_gameName w;
     w_tagLine := w_tagLine w;
     w_uploadVideo := w_uploadVideo w;
     w_queryPlaylistItemsInsert := w_queryPlaylistItemsInsert w;
     w_getPlaylistIDByName := w_getPlaylistIDByName w;
     w_createPlaylist := w_createPlaylist w;
     w_schedule := w_schedule w |}.

(** The sheet after the rows of the entries were appended, one by one,
    below the rows of [sheet]. *)
Definition with_rows (sheet : Sheet) (entries : list ExcelMatchEntry) : Sheet :=
  fold_left (fun sheet e => append sheet (List.map (field e) members))
            entries sheet.

(** The header row [create] writes. *)
Definition header_row : list Cell :=
  List.map (fun title => mkCell (VStr title) (Some header_fill))
    ["Riot Match ID"; "Date"; "Match Result"; "Score"; "Agent"; "Map";
     "Rank"; "YouTube Link"; "Local Path"].

(** The entry [main] builds in the example world. *)
Definition paired_game_example : ExcelMatchEntry :=
  mkEntry "id-1" "May 17, 2023" "Win" "13-4" "Brimstone" "Bind" (Some "Gold 1")
          None (Some "C:\v\a.mp4").

(** * Terms of further properties *)

(** The executions from [attempt] on, [n] of them, answer [None] or fail
    with a server error. *)
Definition stalling (execute : nat -> outcome (option Response))
    (attempt n : nat) : Prop :=
  forall a, (attempt <= a < attempt + n)%nat ->
    execute a = Ret None
    \/ exists status, execute a = Raise (HttpError status) /\ 500 <= status.

(** The pages of playlists that [getPlaylistIDByName] walks through from a
    page token on: none but the last may hold the name, and each but the
    last names the next one. *)
Inductive playlist_walk
    (queryPlaylistsList : option string -> outcome (option PlaylistsPage))
    (playlistName : string) : option string -> list PlaylistsPage -> Prop :=
| walk_last token response :
    queryPlaylistsList token = Ret (Some response) ->
    playlist_walk queryPlaylistsList playlistName token [response]
| walk_next token response next rest :
    queryPlaylistsList token = Ret (Some response) ->
    List.find (fun playlist => String.eqb (playlist_title playlist) playlistName)
              (items response) = None ->
    nextPageToken response = Some next ->
    playlist_walk queryPlaylistsList playlistName (Some next) rest ->
    playlist_walk queryPlaylistsList playlistName token (response :: rest).

(** A query that makes the caller give up with [None]: access denied, a
    client error, or server errors on every run. *)
Definition query_fails {A : Type} (r : outcome (option A)) : Prop :=
  r = Ret None \/ (exists status, r = Raise (HttpError status))
  \/ exists runs, r = Raise (ExceptionHistory runs).

(** Two pages of playlists; the second holds the playlist looked for. *)
Definition playlists_example (pageToken : option string)
    : outcome (option PlaylistsPage) :=
  match pageToken with
  | None => Ret (Some (mkPlaylistsPage [mkPlaylist "PL0" "Music"] (Some "t1")))
  | Some _ =>
      Ret (Some (mkPlaylistsPage
                   [mkPlaylist "PL1" "Valorant VODs";
                    mkPlaylist "PL2" "Valorant VODs"] None))
  end.

(** An opened video whose frame rate is zero. *)
Definition zero_fps
    (VideoCapture : string -> option (PrimFloat.float * PrimFloat.float))
    (video_path : string) : bool :=
  match VideoCapture video_path with
  | Some (fps, _) => PrimFloat.eqb fps 0%float
  | None => false
  end.

(** The test of [getRankBeforeMatch] on a player. *)
Definition is_player (gameName tagLine : string) (player : Player) : bool :=
  String.eqb (player_name player) gameName
  && String.eqb (player_tag player) tagLine.

(** The matches of a page, none when the request fails. *)
Definition data_of_page (get_matchlist : Z -> Z -> option Page)
    (pageSize j : Z) : list Match :=
  match get_matchlist pageSize j with
  | Some p => data p
  | None => []
  end.

(** The values [filterOutProcessedMatches] compares the paths with: those
    of column I below the first row. *)
Definition logged_paths (sheet : Sheet) : list value :=
  List.map c_value (drop 1 (column_cells sheet "I"%char)).

(** A file whose object lacks the key "valRegion". *)
Definition partial_data_example : valorantData.DataFile :=
  Some (<["tagLine" := Some "NA1"]> (<["gameName" := Some "me"]> ∅)).

(** What [main] has checked of a game it hands to the upload: its local
    path is a video found by the scan, that passed the duration test of
    [filter_out_short_videos] and the age test of [filter_out_old_videos],
    not logged in the sheet, and created within the threshold of the start
    of the paired match. *)
Definition checked_game (w : World) (sheet : Sheet) (game : ExcelMatchEntry)
    : Prop :=
  exists video m,
    e_localPath game = Some video /\ e_YTLink game = None
    /\ e_matchId game = meta_id m
    /\ video ∈ search_for_mp4_files (w_os_walk w) (w_path_join w) VOD_DIR
    /\ long_enough (w_VideoCapture w) 1200 video = true
    /\ new_enough (w_getctime w) (w_time_main w - inject_Z 604800) video
       = true
    /\ (VStr video ∉ logged_paths sheet)
    /\ close (Py.int (w_getctime w video))
             (w_utc_to_unix w (meta_started_at m)) 300 = true.

(** * Properties *)

(** ** Helper lemmas on loops that append *)

Lemma fold_left_append_if {A B : Type} (P : B -> bool) (f : B -> A)
    (l : list B) (acc : list A) :
  fold_left (fun acc x => if P x then acc ++ [f x] else acc) l acc
  = acc ++ List.map f (List.filter P l).
Proof.
  revert acc; induction l as [|x l IH]; intros acc; simpl.
  - by rewrite app_nil_r.
  - rewrite IH. destruct (P x); simpl; [by rewrite <- app_assoc | done].
Qed.

Lemma fold_left_append_flat {A B : Type} (g : B -> list A)
    (l : list B) (acc : list A) :
  fold_left (fun acc x => acc ++ g x) l acc = acc ++ flat_map g l.
Proof.
  revert acc; induction l as [|x l IH]; intros acc; simpl.
  - by rewrite app_nil_r.
  - by rewrite IH, <- app_assoc.
Qed.

Lemma fold_left_pointwise {A B : Type} (f g : A -> B -> A) (l : list B) (a : A) :
  (forall a x, f a x = g a x) -> fold_left f l a = fold_left g l a.
Proof.
  intros Hfg. revert a; induction l as [|x l IH]; intros a; simpl; [done|].
  by rewrite Hfg, IH.
Qed.

Lemma ltb_true (x y : Q) : ltb x y = true <-> (x < y)%Q.
Proof.
  unfold ltb. destruct (Qlt_le_dec x y) as [H|H]; split; try done.
  intros H'. exfalso. apply (Qlt_not_le _ _ H' H).
Qed.

Lemma ltb_false (x y : Q) : ltb x y = false <-> (y <= x)%Q.
Proof.
  unfold ltb. destruct (Qlt_le_dec x y) as [H|H]; split; try done.
  intros H'. exfalso. apply (Qlt_not_le _ _ H H').
Qed.

(** ** getGameResult *)

(** C8: the player's score is [teams.red] when [stats.team] is "Red" and
    [teams.blue] otherwise; the result is "Win", "Loss" or "Draw" as the
    player's score is greater than, smaller than or equal to the enemy's, and
    the score string is the player's score, a dash, the enemy's score. *)
Theorem getGameResult_spec (match_data : Match) :
  let player_score :=
    if decide (stats_team match_data = "Red")
    then teams_red match_data else teams_blue match_data in
  let enemy_score :=
    if decide (stats_team match_data = "Red")
    then teams_blue match_data else teams_red match_data in
  let s := pretty player_score +:+ "-" +:+ pretty enemy_score in
  (getGameResult match_data = ("Win", s) <-> player_score > enemy_score)
  /\ (getGameResult match_data = ("Loss", s) <-> player_score < enemy_score)
  /\ (getGameResult match_data = ("Draw", s) <-> player_score = enemy_score)
  /\ snd (getGameResult match_data) = s.
Proof.
  unfold getGameResult.
  destruct (decide (stats_team match_data = "Red")) as [Hred|Hblue].
  - rewrite (proj2 (String.eqb_eq _ _) Hred). cbv zeta.
    destruct (Z.gtb_spec (teams_red match_data) (teams_blue match_data));
      [|destruct (Z.ltb_spec (teams_red match_data) (teams_blue match_data))];
      repeat split; intros; simplify_eq; try lia; try done.
  - rewrite (proj2 (String.eqb_neq _ _) Hblue). cbv zeta.
    destruct (Z.gtb_spec (teams_blue match_data) (teams_red match_data));
      [|destruct (Z.ltb_spec (teams_blue match_data) (teams_red match_data))];
      repeat split; intros; simplify_eq; try lia; try done.
Qed.

(** ** The column order of the spreadsheet *)

Lemma asTuple_eq (self : ExcelMatchEntry) :
  asTuple self = Ret (List.map (field self) members).
Proof. destruct self; reflexivity. Qed.

Lemma getPrintableTitlesInOrder_eq :
  getPrintableTitlesInOrder
  = Ret ["Riot Match ID"; "Date"; "Match Result"; "Score"; "Agent"; "Map";
         "Rank"; "YouTube Link"; "Local Path"].
Proof. reflexivity. Qed.

(** What [write_rows] does: the first entry is appended as a row, and the
    subscript by an [Enum] member then raises before anything else happens. *)
Lemma write_rows_eq (sheet : Sheet) (matches : list ExcelMatchEntry) :
  write_rows sheet matches
  = match matches with
    | [] => (sheet, Ret tt)
    | match_ :: _ =>
        (append sheet (List.map (field match_) members), Raise TypeError)
    end.
Proof.
  destruct matches as [|match_ rest]; [done|].
  simpl. by rewrite asTuple_eq.
Qed.

(** Column I below the first row: position 8 of every later row. *)
Lemma column_below_rows (c : nat) (rows pre : list (list Cell)) :
  List.map (fun row => cell_at (pre ++ rows) row c)
           (seq (S (length pre)) (length rows))
  = List.map (fun row => nth (c - 1) row empty_cell) rows.
Proof.
  revert pre. induction rows as [|row rest IH]; intros pre; [done|].
  simpl. f_equal.
  - unfold cell_at. simpl. rewrite Nat.sub_0_r.
    rewrite app_nth2 by lia. by rewrite Nat.sub_diag.
  - replace (pre ++ row :: rest) with ((pre ++ [row]) ++ rest)
      by (by rewrite <- app_assoc).
    rewrite <- (IH (pre ++ [row])). rewrite length_app. simpl.
    by replace (length pre + 1)%nat with (S (length pre)) by lia.
Qed.

Lemma column_I_rows (header : list Cell) (rows : list (list Cell)) :
  List.map c_value (drop 1 (column_cells (header :: rows) "I"%char))
  = List.map (fun row => c_value (nth 8 row empty_cell)) rows.
Proof.
  unfold column_cells, max_row. simpl length.
  replace (Z.to_nat (Z.max 1 (Z.of_nat (S (length rows)))))
    with (S (length rows)) by lia.
  simpl seq. simpl List.map. rewrite drop_0.
  change (header :: rows) with ([header] ++ rows).
  change (column_index_from_string "I"%char) with 9%nat.
  change (seq 2 (length rows)) with (seq (S (length [header])) (length rows)).
  rewrite (column_below_rows 9 rows [header]).
  by rewrite List.map_map.
Qed.

Lemma with_rows_eq (sheet : Sheet) (entries : list ExcelMatchEntry) :
  with_rows sheet entries
  = sheet
    ++ List.map (fun e => List.map (fun v => mkCell v None)
                            (List.map (field e) members))
         entries.
Proof.
  unfold with_rows. revert sheet.
  induction entries as [|e rest IH]; intros sheet; simpl.
  - by rewrite app_nil_r.
  - rewrite IH. unfold append. by rewrite <- app_assoc.
Qed.

(** On a sheet whose rows below the first were appended from entries,
    [filterOutProcessedMatches] removes exactly the paths that are the
    local path of one of the entries. *)
Lemma filter_reads_local_paths (filename : string) (header : list Cell)
    (entries : list ExcelMatchEntry) (mp4_files : list string) :
  filterOutProcessedMatches
    (mkExcel filename (Some (with_rows [header] entries))) mp4_files
  = Ret (Some (List.filter
                 (fun video =>
                    negb (bool_decide
                            (Some video ∈ List.map e_localPath entries)))
                 mp4_files)).
Proof.
  rewrite with_rows_eq. unfold filterOutProcessedMatches. simpl.
  change (String.list_ascii_of_string letters) with
    (String.list_ascii_of_string "ABCDEFGHIJKLMNOPQRSTUVWXYZ").
  simpl. rewrite column_I_rows. do 2 f_equal.
  apply filter_ext. intros video. f_equal. apply bool_decide_ext.
  rewrite List.map_map. simpl.
  rewrite !list_elem_of_In, !in_map_iff. split.
  - intros (e & He & Hin). exists e. split; [|done].
    destruct (e_localPath e); simpl in He; congruence.
  - intros (e & He & Hin). exists e. split; [|done]. by rewrite He.
Qed.

(** C9: [asTuple] lists the nine fields in the order of
    [ExcelMatchEntryOrder], and [getPrintableTitlesInOrder] the nine titles in
    the same order; the header row that [create] writes holds these titles;
    every row that [writeMatchesToExcel] adds to the sheet holds the fields
    of one of the entries in that order, so below the matching title; and
    the column that [filterOutProcessedMatches] reads, the letter at index 8,
    is column I, the one at position 8 of every row, which is where the
    local paths were written: on a sheet whose rows below the first were
    appended from entries, the filter removes exactly the paths that are
    the local path of one of these entries, and on the sheet that
    [writeMatchesToExcel] leaves in memory, called on the header row alone,
    exactly the local path of the entry whose row it added. *)
Theorem column_alignment (self : ExcelMatchEntry) :
  let titles :=
    ["Riot Match ID"; "Date"; "Match Result"; "Score"; "Agent"; "Map";
     "Rank"; "YouTube Link"; "Local Path"] in
  let position (o : ExcelMatchEntryOrder) := Z.to_nat (value_of o) in
  (exists t, asTuple self = Ret t /\ length t = 9%nat
     /\ forall o, by_value (value_of o) = Ret o
                  /\ t !! position o = Some (field self o))
  /\ (getPrintableTitlesInOrder = Ret titles
      /\ forall o, titles !! position o = printableTitles !! name o)
  /\ (forall filename, exists header,
        (create (init filename)).2 = Ret [header]
        /\ List.map c_value header = List.map VStr titles)
  /\ (forall filename sheet disk matches, exists sheet',
        wb (writeMatchesToExcel (mkExcel filename (Some sheet)) disk matches).1.1
          = Some sheet'
        /\ take (length sheet) sheet' = sheet
        /\ Forall (fun row => exists e, e ∈ matches
                     /\ List.map c_value row = List.map (field e) members)
                  (drop (length sheet) sheet'))
  /\ letter_at (value_of localPath) = Ret "I"%char
  /\ (forall (sheet : Sheet) (r : nat) (row : list Cell),
       sheet !! r = Some row ->
       cell_at sheet (S r) (column_index_from_string "I"%char)
       = default empty_cell (row !! position localPath))
  /\ (forall filename header entries mp4_files,
        filterOutProcessedMatches
          (mkExcel filename (Some (with_rows [header] entries))) mp4_files
        = Ret (Some (List.filter
                       (fun video =>
                          negb (bool_decide
                                  (Some video
                                   ∈ List.map e_localPath entries)))
                       mp4_files)))
  /\ forall filename disk entry rest mp4_files,
       let written :=
         (writeMatchesToExcel (mkExcel filename (Some [header_row])) disk
                              (entry :: rest)).1.1 in
       filterOutProcessedMatches written mp4_files
       = Ret (Some (List.filter
                      (fun video =>
                         negb (bool_decide (Some video = e_localPath entry)))
                      mp4_files)).
Proof.
  intros titles position.
  split; [|split; [|split; [|split; [|split; [|split; [|split]]]]]].
  - exists (List.map (field self) members). split; [apply asTuple_eq|].
    split; [done|]. intros o. by destruct o.
  - split; [done|]. intros o. by destruct o.
  - intros filename. eexists. split; [reflexivity|done].
  - intros filename sheet disk matches.
    unfold writeMatchesToExcel. simpl. rewrite write_rows_eq.
    destruct matches as [|e rest]; simpl.
    + exists sheet. split; [done|]. split; [by rewrite firstn_all|].
      rewrite drop_all. constructor.
    + eexists. split; [done|]. unfold append. split.
      * by rewrite take_app_length.
      * rewrite drop_app_length. constructor; [|constructor].
        exists e. split; [left|].
        rewrite List.map_map. simpl. done.
  - done.
  - intros sheet r row Hrow. unfold cell_at. simpl.
    replace (r - 0)%nat with r by lia.
    rewrite (nth_lookup_Some _ _ _ _ Hrow).
    unfold position. simpl.
    rewrite nth_lookup. done.
  - apply filter_reads_local_paths.
  - intros filename disk entry rest mp4_files written. subst written.
    unfold writeMatchesToExcel. cbn [wb]. rewrite write_rows_eq.
    cbn [fst snd].
    rewrite (filter_reads_local_paths filename header_row [entry]).
    do 2 f_equal. apply filter_ext. intros video. f_equal.
    apply bool_decide_ext. simpl. by rewrite list_elem_of_singleton.
Qed.

(** ** The duration and age filters *)

Lemma negb_ltb (x y : Q) : negb (ltb x y) = Qle_bool y x.
Proof.
  destruct (ltb x y) eqn:E; simpl; symmetry.
  - apply ltb_true in E. apply not_true_is_false. intros H.
    apply Qle_bool_iff in H. apply (Qlt_not_le _ _ E H).
  - apply ltb_false in E. by apply Qle_bool_iff.
Qed.

Lemma not_below_iff (x : PrimFloat.float) (n : Z) :
  negb (float_lt_int x n) = true
  <-> at_least x n = true \/ float_number x = NaN.
Proof.
  unfold float_lt_int, at_least.
  destruct (float_number x) as [| | |q]; simpl.
  - split; [by right | done].
  - split; [done | by intros [|]].
  - split; [by left | done].
  - rewrite negb_ltb. split; [by left | by intros [|]].
Qed.

Lemma filter_out_short_videos_loop_eq
    (VideoCapture : string -> option (PrimFloat.float * PrimFloat.float))
    (minDuration : Z) (mp4_files long_videos : list string) :
  (forall v fps frame_count,
     v ∈ mp4_files -> VideoCapture v = Some (fps, frame_count) ->
     PrimFloat.eqb fps 0%float = false) ->
  filter_out_short_videos_loop VideoCapture mp4_files minDuration long_videos
  = Ret (long_videos
         ++ List.filter (long_enough VideoCapture minDuration) mp4_files).
Proof.
  revert long_videos.
  induction mp4_files as [|v rest IH]; intros long_videos Hfps; simpl.
  - by rewrite app_nil_r.
  - assert (Hrest : forall v' fps frame_count, v' ∈ rest ->
              VideoCapture v' = Some (fps, frame_count) ->
              PrimFloat.eqb fps 0%float = false).
    { intros v' fps fc Hin. apply Hfps. by right. }
    unfold long_enough at 1.
    destruct (VideoCapture v) as [[fps frame_count]|] eqn:Hcap.
    + unfold truediv.
      rewrite (Hfps v fps frame_count) by (by left || done). simpl.
      destruct (float_lt_int (PrimFloat.div frame_count fps) minDuration);
        simpl.
      * by apply IH.
      * rewrite IH by done. by rewrite <- app_assoc.
    + by apply IH.
Qed.

Lemma fold_left_skip_if {B : Type} (P : B -> bool) (l acc : list B) :
  fold_left (fun acc x => if P x then acc else acc ++ [x]) l acc
  = acc ++ List.filter (fun x => negb (P x)) l.
Proof.
  revert acc; induction l as [|x l IH]; intros acc; simpl.
  - by rewrite app_nil_r.
  - rewrite IH. destruct (P x); simpl; [done | by rewrite <- app_assoc].
Qed.

(** C7, as amended: when no opened video has a frame rate of zero, both
    filters return the sublist of their input, in input order, of the
    videos that pass the test, the threshold itself included:
    [filter_out_short_videos] keeps the videos that open and whose
    duration, the float quotient of the frame count by the frames per
    second, is not below [minDuration], that is, is at least [minDuration]
    or is not a number, and [filter_out_old_videos] those whose creation
    time, cut to an integer, is at least [minCreationDate]. *)
Theorem filters_keep_boundary
    (VideoCapture : string -> option (PrimFloat.float * PrimFloat.float))
    (getctime : string -> Q) (mp4_files : list string)
    (minDuration : Z) (minCreationDate : Q) :
  (forall v fps frame_count,
     v ∈ mp4_files -> VideoCapture v = Some (fps, frame_count) ->
     PrimFloat.eqb fps 0%float = false) ->
  (filter_out_short_videos VideoCapture mp4_files minDuration
   = Ret (List.filter (long_enough VideoCapture minDuration) mp4_files)
   /\ forall v, long_enough VideoCapture minDuration v = true
        <-> exists fps frame_count,
              VideoCapture v = Some (fps, frame_count)
              /\ (at_least (PrimFloat.div frame_count fps) minDuration = true
                  \/ float_number (PrimFloat.div frame_count fps) = NaN))
  /\ (filter_out_old_videos getctime mp4_files minCreationDate
      = List.filter (new_enough getctime minCreationDate) mp4_files
      /\ forall v, new_enough getctime minCreationDate v = true
           <-> (minCreationDate <= inject_Z (Py.int (getctime v)))%Q).
Proof.
  intros Hfps. repeat split.
  - unfold filter_out_short_videos.
    by rewrite filter_out_short_videos_loop_eq.
  - unfold long_enough. destruct (VideoCapture v) as [[fps fc]|]; [|done].
    intros H. exists fps, fc. split; [done|]. by apply not_below_iff.
  - unfold long_enough. intros (fps & fc & -> & H). by apply not_below_iff.
  - unfold filter_out_old_videos. rewrite fold_left_skip_if. simpl.
    apply filter_ext. intros v. unfold new_enough. by rewrite <- negb_ltb.
  - unfold new_enough. by apply Qle_bool_iff.
  - unfold new_enough. by apply Qle_bool_iff.
Qed.

Lemma filters_keep_boundary_witness :
  filter_out_short_videos probe_example
    ["a.mp4"; "b.mp4"; "c.mp4"; "d.mp4"] 1200
  = Ret ["a.mp4"; "d.mp4"]
  /\ filter_out_old_videos ctime_example ["a.mp4"; "b.mp4"; "c.mp4"] (1000 # 1)
     = ["a.mp4"].
Proof.
  assert (H : forall v fps frame_count,
            v ∈ ["a.mp4"; "b.mp4"; "c.mp4"; "d.mp4"] ->
            probe_example v = Some (fps, frame_count) ->
            PrimFloat.eqb fps 0%float = false).
  { intros v fps fc _. unfold probe_example.
    destruct (String.eqb v "a.mp4"); [intros [= <- <-]; reflexivity|].
    destruct (String.eqb v "c.mp4"); [intros [= <- <-]; reflexivity|].
    destruct (String.eqb v "d.mp4"); [intros [= <- <-]; reflexivity|done]. }
  pose proof (filters_keep_boundary probe_example ctime_example
                ["a.mp4"; "b.mp4"; "c.mp4"; "d.mp4"] 1200 (1000 # 1) H)
    as [[H1 _] _].
  pose proof (filters_keep_boundary probe_example ctime_example
                ["a.mp4"; "b.mp4"; "c.mp4"] 1200 (1000 # 1))
    as [_ [H2 _]].
  { intros v fps fc Hin. apply H.
    rewrite !elem_of_cons in Hin. rewrite !elem_of_cons. tauto. }
  split; [exact H1 | exact H2].
Defined.

(** The claim as it was stated fails at two inputs.  A video that opens
    with a frame rate of zero makes [filter_out_short_videos] raise
    [ZeroDivisionError], so no list is returned; and a video whose
    duration is not a number is kept, though it is not at least
    [minDuration]. *)
Lemma filters_keep_boundary_counterexample :
  (filter_out_short_videos no_rate_example ["a.mp4"] 1200
   = Raise ZeroDivisionError
   /\ filter_out_short_videos no_rate_example ["a.mp4"] 1200
      <> Ret (List.filter (duration_at_least no_rate_example 1200) ["a.mp4"]))
  /\ (filter_out_short_videos no_number_example ["a.mp4"] 1200
      = Ret ["a.mp4"]
      /\ List.filter (duration_at_least no_number_example 1200) ["a.mp4"] = []
      /\ filter_out_short_videos no_number_example ["a.mp4"] 1200
         <> Ret (List.filter (duration_at_least no_number_example 1200)
                   ["a.mp4"])).
Proof.
  split; [split|split; [|split]].
  - reflexivity.
  - discriminate.
  - reflexivity.
  - reflexivity.
  - discriminate.
Qed.

(** ** Pairing videos with matches *)

Section pairing.

Variable utc_to_unix : string -> Q.

Local Abbreviation pairings_of := (pairings_of utc_to_unix).

Lemma compare_matchlist_with_video_dates_eq (matchlist : list Match)
    (localVideoDates : gmap string Z) (time_threshold : Z) :
  compare_matchlist_with_video_dates utc_to_unix matchlist localVideoDates
                                     time_threshold
  = flat_map (pairings_of localVideoDates time_threshold) matchlist.
Proof.
  unfold compare_matchlist_with_video_dates.
  rewrite <- (app_nil_l (flat_map _ _)).
  rewrite <- fold_left_append_flat.
  apply fold_left_pointwise. intros found match_.
  unfold pairings_of.
  rewrite <- fold_left_append_if.
  apply fold_left_pointwise. by intros acc [video_path video_date].
Qed.

Lemma close_iff (video_date : Z) (match_date : Q) (time_threshold : Z) :
  close video_date match_date time_threshold = true
  <-> (Qabs (inject_Z video_date - match_date) < inject_Z time_threshold)%Q.
Proof. apply ltb_true. Qed.

Lemma elem_of_pairings_of (localVideoDates : gmap string Z)
    (time_threshold : Z) (match_ : Match) (p : Pairing) :
  p ∈ pairings_of localVideoDates time_threshold match_
  <-> match_data p = match_
      /\ exists T, localVideoDates !! video_path p = Some T
           /\ close T (utc_to_unix (meta_started_at match_)) time_threshold
              = true.
Proof.
  unfold pairings_of. rewrite list_elem_of_In, in_map_iff. split.
  - intros ([v T] & <- & Hin). apply filter_In in Hin as [Hin Hclose].
    simpl in *. split; [done|]. exists T. split; [|done].
    by apply elem_of_map_to_list, list_elem_of_In.
  - intros (Hm & T & Hlook & Hclose). exists (video_path p, T). split.
    + destruct p; simpl in *; by subst.
    + apply filter_In. split; [|done].
      by apply list_elem_of_In, elem_of_map_to_list.
Qed.

Lemma NoDup_pairings_of (localVideoDates : gmap string Z)
    (time_threshold : Z) (match_ : Match) :
  NoDup (pairings_of localVideoDates time_threshold match_).
Proof.
  unfold pairings_of.
  apply (NoDup_fmap_2_strong (fun item : string * Z => mkPairing item.1 match_)).
  - intros [v1 T1] [v2 T2] H1 H2 [= Hv]. simpl in *. subst v2.
    apply list_elem_of_In, filter_In in H1 as [H1 _].
    apply list_elem_of_In, filter_In in H2 as [H2 _].
    apply list_elem_of_In, elem_of_map_to_list in H1.
    apply list_elem_of_In, elem_of_map_to_list in H2.
    congruence.
  - apply NoDup_ListNoDup, List.NoDup_filter, NoDup_ListNoDup,
      NoDup_map_to_list.
Qed.

Lemma count_occ_pairings_of (localVideoDates : gmap string Z)
    (time_threshold : Z) (match_ : Match) (p : Pairing) :
  count_occ Pairing_eq_dec (pairings_of localVideoDates time_threshold match_) p
  = if bool_decide (p ∈ pairings_of localVideoDates time_threshold match_)
    then 1%nat else 0%nat.
Proof.
  pose proof (NoDup_pairings_of localVideoDates time_threshold match_) as Hnd.
  apply NoDup_ListNoDup in Hnd.
  pose proof (proj1 (List.NoDup_count_occ Pairing_eq_dec _) Hnd p) as Hle.
  case_bool_decide as Hin.
  - apply list_elem_of_In, (count_occ_In Pairing_eq_dec) in Hin. lia.
  - apply (count_occ_not_In Pairing_eq_dec). by rewrite <- list_elem_of_In.
Qed.

End pairing.

(** C1: a pairing of a video and a match is produced exactly when the video's
    creation time [T] and the match's start time [S] satisfy [|T - S| <
    time_threshold], whose default is 300; and a video and a match that
    satisfy it are paired once for each time the match is listed, so exactly
    once for a match listed once. *)
Theorem pairing_iff_close (utc_to_unix : string -> Q)
    (matchlist : list Match) (localVideoDates : gmap string Z)
    (time_threshold : Z) (video : string) (match_ : Match) (T : Z) :
  localVideoDates !! video = Some T ->
  let S := utc_to_unix (meta_started_at match_) in
  let found_pairings :=
    compare_matchlist_with_video_dates utc_to_unix matchlist localVideoDates
                                       time_threshold in
  (mkPairing video match_ ∈ found_pairings
   <-> match_ ∈ matchlist
       /\ (Qabs (inject_Z T - S) < inject_Z time_threshold)%Q)
  /\ ((Qabs (inject_Z T - S) < inject_Z time_threshold)%Q ->
      count_occ Pairing_eq_dec found_pairings (mkPairing video match_)
      = count_occ Match_eq_dec matchlist match_)
  /\ default_time_threshold = 300.
Proof.
  intros Hlook S found_pairings. subst found_pairings.
  rewrite compare_matchlist_with_video_dates_eq.
  assert (Hone : forall m, mkPairing video match_
                   ∈ pairings_of utc_to_unix localVideoDates time_threshold m
                 <-> m = match_
                     /\ (Qabs (inject_Z T - S) < inject_Z time_threshold)%Q).
  { intros m. rewrite elem_of_pairings_of. simpl. split.
    - intros (<- & T' & HT' & Hclose). split; [done|].
      rewrite Hlook in HT'. injection HT' as <-. by apply close_iff.
    - intros (-> & Hclose). split; [done|]. exists T. split; [done|].
      by apply close_iff. }
  split; [split|split; [|done]].
  - intros Hin. apply list_elem_of_In, in_flat_map in Hin as (m & Hm & Hin).
    apply list_elem_of_In, Hone in Hin as [-> Hclose].
    split; [by apply list_elem_of_In | done].
  - intros [Hin Hclose]. apply list_elem_of_In, in_flat_map.
    exists match_. split; [by apply list_elem_of_In|].
    apply list_elem_of_In, Hone. done.
  - intros Hclose. induction matchlist as [|m rest IH]; [done|].
    simpl. rewrite count_occ_app, IH, count_occ_pairings_of.
    case_bool_decide as Hin.
    + apply Hone in Hin as [-> _]. by destruct (Match_eq_dec match_ match_).
    + destruct (Match_eq_dec m match_) as [->|]; [|done].
      exfalso. apply Hin, Hone. done.
Qed.

Lemma pairing_iff_close_witness :
  count_occ Pairing_eq_dec
    (compare_matchlist_with_video_dates (fun _ => 2599 # 2) [match_example]
       {["a.mp4" := 1000]} 300)
    (mkPairing "a.mp4" match_example) = 1%nat.
Proof.
  assert (Hlook : ({["a.mp4" := 1000]} : gmap string Z) !! "a.mp4" = Some 1000)
    by reflexivity.
  destruct (pairing_iff_close (fun _ => 2599 # 2) [match_example]
              {["a.mp4" := 1000]} 300 "a.mp4" match_example 1000 Hlook)
    as (_ & Hcount & _).
  rewrite Hcount; reflexivity.
Defined.

(** ** Retrying an upload *)

Section backoff.

Variable execute : nat -> outcome (option Response).
Variable random : nat -> Q.

Local Abbreviation backoff := (backoff random).

Local Abbreviation failing := (failing execute).

(** After [n] more server errors the loop goes on with the counter [n]
    higher, as long as the counter stays within [retries]. *)
Lemma resumable_loop_retries (n : nat) :
  forall (fuel : nat) (retries : Z) (attempt : nat) (error : bool)
         (retry : Z) (slept : list Q),
    failing attempt n ->
    retry + Z.of_nat n <= retries ->
    resumable_loop execute random (n + fuel) retries attempt error retry slept
    = resumable_loop execute random fuel retries (attempt + n)
        (if n is O then error else true) (retry + Z.of_nat n)
        (slept ++ backoff (length slept) retry n).
Proof.
  induction n as [|n IH]; intros fuel retries attempt error retry slept Hfail Hle.
  - simpl. by rewrite Nat.add_0_r, Z.add_0_r, app_nil_r.
  - destruct (Hfail attempt ltac:(lia)) as (status & Hexec & Hstatus).
    change (S n + fuel)%nat with (S (n + fuel)). simpl resumable_loop.
    rewrite Hexec.
    replace (status >=? 500) with true by (rewrite Z.geb_leb; symmetry; apply Z.leb_le; lia).
    replace (retry + 1 >? retries) with false
      by (rewrite Z.gtb_ltb; symmetry; apply Z.ltb_ge; lia).
    rewrite IH.
    + replace (S attempt + n)%nat with (attempt + S n)%nat by lia.
      replace (retry + 1 + Z.of_nat n) with (retry + Z.of_nat (S n)) by lia.
      simpl backoff. rewrite <- app_assoc. simpl.
      rewrite length_app. simpl.
      replace (length slept + 1)%nat with (S (length slept)) by lia.
      by destruct n.
    + intros a Ha. apply Hfail. lia.
    + lia.
Qed.

Lemma resumable_upload_gives_up (fuel : nat) (retries : Z) :
  0 <= retries ->
  failing 0 (S (Z.to_nat retries)) ->
  resumable_upload execute random (S (Z.to_nat retries) + fuel) retries
  = (mkEffects (S (Z.to_nat retries)) (backoff 0 0 (Z.to_nat retries)),
     Ret None).
Proof.
  intros Hpos Hfail. unfold resumable_upload.
  replace (S (Z.to_nat retries) + fuel)%nat
    with (Z.to_nat retries + S fuel)%nat by lia.
  rewrite resumable_loop_retries; [| intros a Ha; apply Hfail; lia | lia].
  destruct (Hfail (Z.to_nat retries) ltac:(lia)) as (status & Hexec & Hstatus).
  simpl. rewrite Hexec.
  replace (status >=? 500) with true by (rewrite Z.geb_leb; symmetry; apply Z.leb_le; lia).
  destruct (_ >? retries) eqn:E; [done|].
  rewrite Z.gtb_ltb in E. apply Z.ltb_ge in E. lia.
Qed.

Lemma resumable_upload_client_error (fuel : nat) (retries : Z) (k : nat)
    (status : Z) :
  Z.of_nat k <= retries ->
  failing 0 k ->
  execute k = Raise (HttpError status) ->
  status < 500 ->
  resumable_upload execute random (S k + fuel) retries
  = (mkEffects (S k) (backoff 0 0 k), Raise (HttpError status)).
Proof.
  intros Hk Hfail Hexec Hstatus. unfold resumable_upload.
  replace (S k + fuel)%nat with (k + S fuel)%nat by lia.
  rewrite resumable_loop_retries; [| done | lia].
  simpl. rewrite Hexec.
  replace (status >=? 500) with false
    by (rewrite Z.geb_leb; symmetry; apply Z.leb_gt; lia).
  done.
Qed.

Lemma backoff_bounded (i : nat) (retry : Z) (n j : nat) (x : Q) :
  (forall c, (0 <= random c)%Q /\ (random c < 1)%Q) ->
  0 <= retry ->
  backoff i retry n !! j = Some x ->
  (0 <= x)%Q /\ (x < inject_Z (2 ^ (retry + 1 + Z.of_nat j)))%Q.
Proof.
  intros Hrandom. revert i retry j.
  induction n as [|n IH]; intros i retry j Hretry Hj; [done|].
  destruct j as [|j]; simpl in Hj.
  - injection Hj as <-. rewrite Z.add_0_r.
    destruct (Hrandom i) as [H0 H1].
    assert (Hpow : (0 < inject_Z (2 ^ (retry + 1)))%Q).
    { rewrite <- (Zlt_Qlt 0). apply Z.pow_pos_nonneg; lia. }
    split.
    + apply Qmult_le_0_compat; [done | by apply Qlt_le_weak].
    + rewrite <- (Qmult_1_l (inject_Z _)) at 2.
      by apply Qmult_lt_compat_r.
  - apply IH in Hj; [|lia].
    by replace (retry + 1 + Z.of_nat (S j)) with (retry + 1 + 1 + Z.of_nat j)
      by lia.
Qed.

End backoff.

(** C3: an upload whose execution keeps failing with a server error is
    executed six times, the first attempt and five retries, with a sleep of
    [random() * 2^retry] seconds before each retry, so below 2, 4, 8, 16 and
    32 seconds, and is then reported as failed by the answer [None]; an
    error with a status below 500 is raised at once, without another
    execution.  The decorated [queryVideosInsert] passes both on without a
    further run. *)
Theorem upload_retry_backoff (execute : nat -> outcome (option Response))
    (random : nat -> Q) (fuel : nat) :
  (forall c, (0 <= random c)%Q /\ (random c < 1)%Q) ->
  let slept :=
    [(random 0%nat * inject_Z 2)%Q; (random 1%nat * inject_Z 4)%Q;
     (random 2%nat * inject_Z 8)%Q; (random 3%nat * inject_Z 16)%Q;
     (random 4%nat * inject_Z 32)%Q] in
  let upload_through creds :=
    queryVideosInsert creds (fun _ => execute) (fun _ => random) in
  (failing execute 0 6 ->
   resumable_upload execute random (6 + fuel) default_retries
   = (mkEffects 6 slept, Ret None)
   /\ upload_through (fun _ => Ret true) (6 + fuel)%nat = Ret None)
  /\ (forall k status,
        (k <= 5)%nat -> failing execute 0 k ->
        execute k = Raise (HttpError status) -> status < 500 ->
        resumable_upload execute random (S k + fuel) default_retries
        = (mkEffects (S k) (take k slept), Raise (HttpError status))
        /\ upload_through (fun _ => Ret true) (S k + fuel)%nat
           = Raise (HttpError status))
  /\ (forall i x, slept !! i = Some x ->
        (0 <= x)%Q /\ (x < inject_Z (2 ^ (Z.of_nat i + 1)))%Q)
  /\ default_retries = 5.
Proof.
  intros Hrandom slept upload_through.
  split; [|split; [|split; [|done]]].
  - intros Hfail.
    pose proof (resumable_upload_gives_up execute random fuel default_retries
                  ltac:(done) Hfail) as Hup.
    change (S (Z.to_nat default_retries)) with 6%nat in Hup.
    split; [exact Hup|].
    unfold upload_through, queryVideosInsert, retryAPIWithDelay,
      queryVideosInsert_body. cbn -[resumable_upload Nat.add].
    by rewrite Hup.
  - intros k status Hk Hfail Hexec Hstatus.
    pose proof (resumable_upload_client_error execute random fuel
                  default_retries k status ltac:(unfold default_retries; lia)
                  Hfail Hexec Hstatus) as Hup.
    assert (Hsleeps : backoff random 0 0 k = take k slept).
    { do 6 (destruct k as [|k]; [reflexivity|]). lia. }
    rewrite Hsleeps in Hup. split; [exact Hup|].
    unfold upload_through, queryVideosInsert, retryAPIWithDelay,
      queryVideosInsert_body. cbn -[resumable_upload Nat.add].
    rewrite Hup. simpl.
    by replace (status <? 500) with true by (symmetry; apply Z.ltb_lt; lia).
  - intros i x Hx.
    replace (Z.of_nat i + 1) with (0 + 1 + Z.of_nat i) by lia.
    apply (backoff_bounded random 0 0 5 i x Hrandom ltac:(done)).
    exact Hx.
Qed.

Lemma upload_retry_backoff_witness :
  resumable_upload (fun _ => Raise (HttpError 503)) (fun _ => 1 # 2) 6
                   default_retries
  = (mkEffects 6 (List.map (fun bound => ((1 # 2) * inject_Z bound)%Q)
                           [2; 4; 8; 16; 32]),
     Ret None)
  /\ resumable_upload
       (fun a => if (a <? 2)%nat then Raise (HttpError 503)
                 else Raise (HttpError 403))
       (fun _ => 1 # 2) 3 default_retries
     = (mkEffects 3 (List.map (fun bound => ((1 # 2) * inject_Z bound)%Q)
                              [2; 4]),
        Raise (HttpError 403)).
Proof.
  assert (Hrandom : forall c : nat, (0 <= 1 # 2)%Q /\ (1 # 2 < 1)%Q)
    by (intros _; split; [discriminate | reflexivity]).
  split.
  - destruct (upload_retry_backoff (fun _ => Raise (HttpError 503))
                (fun _ => 1 # 2) 0 Hrandom) as [Hgive _].
    refine (proj1 (Hgive _)).
    intros a _. exists 503. split; [reflexivity | lia].
  - destruct (upload_retry_backoff
                (fun a => if (a <? 2)%nat then Raise (HttpError 503)
                          else Raise (HttpError 403))
                (fun _ => 1 # 2) 0 Hrandom) as (_ & Hclient & _).
    refine (proj1 (Hclient 2%nat 403 _ _ _ _)); [lia | | reflexivity | lia].
    intros a Ha. exists 503. split; [|lia].
    destruct a as [|[|a]]; [reflexivity | reflexivity | lia].
Defined.

(** ** Uploading the games *)

Section pool.

Variable uploadVideo : nat -> option string -> string -> outcome (option string).
Variable queryPlaylistItemsInsert :
  nat -> string -> option string -> outcome (option Response).
Variable getPlaylistIDByName : string -> outcome (option string).
Variable createPlaylist : string -> outcome (option string).

Local Abbreviation uploadGame :=
  (uploadGameToYoutube uploadVideo queryPlaylistItemsInsert).
Local Abbreviation uploadGames :=
  (uploadGamesToYoutube uploadVideo queryPlaylistItemsInsert
                        getPlaylistIDByName createPlaylist).

Local Abbreviation linked := (linked uploadVideo).

Local Abbreviation linked_at := (linked_at uploadVideo).

Lemma uploadGame_shared (k : nat) (game : ExcelMatchEntry)
    (playlistID : option string) (sharedGames : list ExcelMatchEntry) :
  (uploadGame k game playlistID sharedGames).1 = sharedGames ++ linked k game.
Proof.
  unfold uploadGameToYoutube, linked.
  destruct (uploadVideo k _ _) as [[videoID|]|e|]; simpl;
    try by rewrite app_nil_r.
  by destruct (addVideoToPlaylist _ _ _ _).
Qed.

Lemma uploadGame_outcome (k : nat) (game : ExcelMatchEntry)
    (playlistID : option string) (sharedGames : list ExcelMatchEntry) :
  (uploadGame k game playlistID sharedGames).2
  = (uploadGame k game playlistID []).2.
Proof.
  unfold uploadGameToYoutube.
  destruct (uploadVideo k _ _) as [[videoID|]|e|]; simpl; try done.
  by destruct (addVideoToPlaylist _ _ _ _).
Qed.

Lemma run_pool_shared (games : list ExcelMatchEntry)
    (playlistID : option string) (schedule : list nat) :
  forall sharedGames results,
    (run_pool uploadVideo queryPlaylistItemsInsert games playlistID schedule
              sharedGames results).1
    = sharedGames ++ flat_map (linked_at games) schedule.
Proof.
  induction schedule as [|k rest IH]; intros sharedGames results; simpl.
  - by rewrite app_nil_r.
  - unfold linked_at at 1. destruct (games !! k) as [game|]; [|by rewrite IH].
    pose proof (uploadGame_shared k game playlistID sharedGames) as Hs.
    destruct (uploadGame k game playlistID sharedGames) as [shared' r].
    simpl in Hs. subst shared'. by rewrite IH, <- app_assoc.
Qed.

Lemma run_pool_results (games : list ExcelMatchEntry)
    (playlistID : option string) (schedule : list nat) (k : nat)
    (game : ExcelMatchEntry) :
  games !! k = Some game -> k ∈ schedule ->
  forall sharedGames results,
    (run_pool uploadVideo queryPlaylistItemsInsert games playlistID schedule
              sharedGames results).2 !! k
    = Some (uploadGame k game playlistID []).2.
Proof.
  intros Hgame.
  assert (Hkeep : forall schedule sharedGames results,
            results !! k = Some (uploadGame k game playlistID []).2 ->
            (run_pool uploadVideo queryPlaylistItemsInsert games playlistID
                      schedule sharedGames results).2 !! k
            = Some (uploadGame k game playlistID []).2).
  { clear schedule. induction schedule as [|j rest IH];
      intros sharedGames results Hres; simpl; [done|].
    destruct (games !! j) as [game'|] eqn:Hj; [|by apply IH].
    pose proof (uploadGame_outcome j game' playlistID sharedGames) as Ho.
    destruct (uploadGame j game' playlistID sharedGames) as [shared' r].
    simpl in Ho. apply IH.
    destruct (decide (j = k)) as [->|Hne].
    - rewrite lookup_insert_eq. rewrite Hgame in Hj. by simplify_eq.
    - by rewrite lookup_insert_ne. }
  induction schedule as [|j rest IH]; intros Hin sharedGames results.
  - by apply elem_of_nil in Hin.
  - simpl. destruct (decide (j = k)) as [->|Hne].
    + rewrite Hgame.
      pose proof (uploadGame_outcome k game playlistID sharedGames) as Ho.
      destruct (uploadGame k game playlistID sharedGames) as [shared' r].
      simpl in Ho. apply Hkeep. rewrite lookup_insert_eq. by subst.
    + apply elem_of_cons in Hin as [->|Hin]; [done|].
      destruct (games !! j) as [game'|]; [|by apply IH].
      destruct (uploadGame j game' playlistID sharedGames) as [shared' r].
      by apply IH.
Qed.

Lemma get_all_returns (results : gmap nat (outcome unit)) (ks : list nat) :
  (forall k, k ∈ ks -> results !! k = Some (Ret tt)) ->
  get_all results ks = Ret tt.
Proof.
  induction ks as [|k rest IH]; intros Hall; simpl; [done|].
  rewrite (Hall k) by left. apply IH. intros j Hj. apply Hall. by right.
Qed.

Lemma linked_at_YTLink (games : list ExcelMatchEntry) (k : nat)
    (entry : ExcelMatchEntry) :
  entry ∈ linked_at games k ->
  exists game videoID,
    games !! k = Some game
    /\ uploadVideo k (e_localPath game) (title_of game) = Ret (Some videoID)
    /\ entry = with_YTLink game (videoLink_of videoID).
Proof.
  unfold linked_at, linked.
  destruct (games !! k) as [game|]; [|by intros ?%elem_of_nil].
  destruct (uploadVideo k _ _) as [[videoID|]|e|] eqn:Hup;
    try by intros ?%elem_of_nil.
  intros ->%list_elem_of_singleton. by exists game, videoID.
Qed.

Lemma uploadGames_returned (schedule : list nat)
    (games returned : list ExcelMatchEntry) :
  uploadGames schedule games = Ret (Some returned) ->
  returned = flat_map (linked_at games) schedule.
Proof.
  unfold uploadGamesToYoutube.
  destruct (getPlaylistIDByName _) as [[found|]|e|]; simpl; try done.
  destruct (if String.eqb found "-1" then _ else _) as [playlistID|e|];
    simpl; try done.
  pose proof (run_pool_shared games playlistID schedule [] ∅) as Hs.
  destruct (run_pool _ _ _ _ _ _ _) as [sharedGames results].
  simpl in Hs. destruct (get_all _ _); simpl; try done.
  by intros [= <-].
Qed.

Local Abbreviation playlist_ready := (playlist_ready getPlaylistIDByName createPlaylist).

Lemma uploadGames_returns (schedule : list nat) (games : list ExcelMatchEntry)
    (playlistID : option string) :
  playlist_ready playlistID ->
  (forall k, (k < length games)%nat -> k ∈ schedule) ->
  (forall k game, games !! k = Some game ->
     (uploadGame k game playlistID []).2 = Ret tt) ->
  uploadGames schedule games
  = Ret (Some (flat_map (linked_at games) schedule)).
Proof.
  intros (found & Hfound & Hid) Hsched Htasks.
  unfold uploadGamesToYoutube. rewrite Hfound. simpl. rewrite Hid. simpl.
  pose proof (run_pool_shared games playlistID schedule [] ∅) as Hs.
  pose proof (fun k game Hg Hin =>
                run_pool_results games playlistID schedule k game Hg Hin [] ∅)
    as Hr.
  destruct (run_pool _ _ _ _ _ _ _) as [sharedGames results].
  simpl in Hs, Hr. rewrite get_all_returns; [by subst|].
  intros k Hk. apply elem_of_seq in Hk.
  destruct (lookup_lt_is_Some_2 games k ltac:(lia)) as [game Hgame].
  rewrite (Hr k game Hgame (Hsched k ltac:(lia))).
  by rewrite (Htasks k game Hgame).
Qed.

End pool.

(** C5: when the upload of a game answers the video id [v], the entry that
    [uploadGameToYoutube] appends to the shared list agrees with the game on
    the match id, date, result, score, agent, map, rank and local path, and
    its link is "https://www.youtube.com/watch?v=" followed by [v]; the list
    that [uploadGamesToYoutube] returns holds this entry.  The entry is not
    written to the spreadsheet file, though.  When it is the first of the
    list, [writeMatchesToExcel] adds its row, with these values, to the
    sheet in memory and then raises [TypeError] at the subscript by
    [ExcelMatchEntryOrder.matchResult], before the file is saved; when it is
    not the first, the row of the first entry is all that is added, and the
    file is not saved either. *)
Theorem uploaded_entry_keeps_fields
    (uploadVideo : nat -> option string -> string -> outcome (option string))
    (queryPlaylistItemsInsert :
       nat -> string -> option string -> outcome (option Response))
    (getPlaylistIDByName createPlaylist : string -> outcome (option string))
    (k : nat) (game : ExcelMatchEntry) (playlistID : option string)
    (sharedGames : list ExcelMatchEntry) (v : string) :
  uploadVideo k (e_localPath game) (title_of game) = Ret (Some v) ->
  exists entry,
    (uploadGameToYoutube uploadVideo queryPlaylistItemsInsert k game playlistID
                         sharedGames).1 = sharedGames ++ [entry]
    /\ (e_matchId entry = e_matchId game /\ e_date entry = e_date game
        /\ e_matchResult entry = e_matchResult game
        /\ e_score entry = e_score game /\ e_agent entry = e_agent game
        /\ e_map entry = e_map game /\ e_rank entry = e_rank game
        /\ e_localPath entry = e_localPath game)
    /\ e_YTLink entry = Some ("https://www.youtube.com/watch?v=" +:+ v)
    /\ (forall schedule games returned,
          games !! k = Some game -> k ∈ schedule ->
          uploadGamesToYoutube uploadVideo queryPlaylistItemsInsert
            getPlaylistIDByName createPlaylist schedule games
          = Ret (Some returned) ->
          entry ∈ returned)
    /\ (forall filename sheet disk rest,
          writeMatchesToExcel (mkExcel filename (Some sheet)) disk
                              (entry :: rest)
          = (mkExcel filename
               (Some (append sheet
                        [VStr (e_matchId game); VStr (e_date game);
                         VStr (e_matchResult game); VStr (e_score game);
                         VStr (e_agent game); VStr (e_map game);
                         of_opt (e_rank game);
                         VStr ("https://www.youtube.com/watch?v=" +:+ v);
                         of_opt (e_localPath game)])),
             disk, Raise TypeError))
    /\ forall filename sheet disk first before rest,
         writeMatchesToExcel (mkExcel filename (Some sheet)) disk
                             (first :: before ++ entry :: rest)
         = (mkExcel filename
              (Some (append sheet (List.map (field first) members))),
            disk, Raise TypeError).
Proof.
  intros Hup. exists (with_YTLink game (videoLink_of v)).
  split; [|split; [done|split; [done|split; [|split]]]].
  - rewrite uploadGame_shared. unfold linked. by rewrite Hup.
  - intros schedule games returned Hgame Hin Hret.
    apply uploadGames_returned in Hret as ->.
    apply list_elem_of_In, in_flat_map. exists k.
    split; [by apply list_elem_of_In|].
    unfold linked_at, linked. rewrite Hgame, Hup. by left.
  - intros filename sheet disk rest.
    unfold writeMatchesToExcel. cbn [wb]. by rewrite write_rows_eq.
  - intros filename sheet disk first before rest.
    unfold writeMatchesToExcel. cbn [wb]. by rewrite write_rows_eq.
Qed.

Lemma uploaded_entry_keeps_fields_witness :
  exists entry,
    (uploadGameToYoutube (fun _ _ _ => Ret (Some "dQw4w9WgXcQ"))
       (fun _ _ _ => Ret None) 0 game_example (Some "PL1") []).1 = [entry]
    /\ e_YTLink entry = Some "https://www.youtube.com/watch?v=dQw4w9WgXcQ"
    /\ e_localPath entry = Some "a.mp4"
    /\ writeMatchesToExcel (mkExcel "matches.xlsx" (Some [header_row]))
                           (Some [header_row]) [second_entry_example; entry]
       = (mkExcel "matches.xlsx"
            (Some [header_row;
                   List.map (fun v => mkCell v None)
                     [VStr "id-2"; VStr "May 16, 2023"; VStr "Loss";
                      VStr "11-13"; VStr "Sova"; VStr "Haven"; VStr "Gold 1";
                      VStr "https://www.youtube.com/watch?v=oHg5SJYRHA0";
                      VStr "b.mp4"]]),
          Some [header_row], Raise TypeError).
Proof.
  destruct (uploaded_entry_keeps_fields
              (fun _ _ _ => Ret (Some "dQw4w9WgXcQ")) (fun _ _ _ => Ret None)
              (fun _ => Ret None) (fun _ => Ret None)
              0 game_example (Some "PL1") [] "dQw4w9WgXcQ" eq_refl)
    as (entry & Hshared & Hfields & Hlink & _ & _ & Hlater).
  exists entry. split; [exact Hshared|]. split; [exact Hlink|].
  split.
  - destruct Hfields as (_ & _ & _ & _ & _ & _ & _ & Hpath). exact Hpath.
  - exact (Hlater "matches.xlsx" [header_row] (Some [header_row])
             second_entry_example [] []).
Defined.

(** C10: a game whose upload answers [None] leaves the shared list as it is
    and its task returns without raising.  When the playlist is found or
    created and no task raises, [uploadGamesToYoutube] returns a list that
    holds, in the order the tasks ended, one entry for each game whose
    upload answered a video id and nothing else; every entry has a link; and
    every row [writeMatchesToExcel] appends comes from an entry of this list,
    so none from a game whose upload failed. *)
Theorem failed_uploads_dropped
    (uploadVideo : nat -> option string -> string -> outcome (option string))
    (queryPlaylistItemsInsert :
       nat -> string -> option string -> outcome (option Response))
    (getPlaylistIDByName createPlaylist : string -> outcome (option string))
    (schedule : list nat) (games : list ExcelMatchEntry)
    (playlistID : option string) :
  schedule ≡ₚ seq 0 (length games) ->
  playlist_ready getPlaylistIDByName createPlaylist playlistID ->
  (forall k game,
     games !! k = Some game ->
     uploadVideo k (e_localPath game) (title_of game) = Ret None
     \/ exists v r,
          uploadVideo k (e_localPath game) (title_of game) = Ret (Some v)
          /\ addVideoToPlaylist queryPlaylistItemsInsert k v playlistID
             = Ret r) ->
  (forall k game sharedGames,
     uploadVideo k (e_localPath game) (title_of game) = Ret None ->
     uploadGameToYoutube uploadVideo queryPlaylistItemsInsert k game playlistID
                         sharedGames = (sharedGames, Ret tt))
  /\ exists returned,
       uploadGamesToYoutube uploadVideo queryPlaylistItemsInsert
         getPlaylistIDByName createPlaylist schedule games
       = Ret (Some returned)
       /\ returned ≡ₚ flat_map (linked_at uploadVideo games)
                               (seq 0 (length games))
       /\ (forall entry, entry ∈ returned ->
             exists k game v,
               games !! k = Some game
               /\ uploadVideo k (e_localPath game) (title_of game)
                  = Ret (Some v)
               /\ entry = with_YTLink game (videoLink_of v))
       /\ (forall k game v,
             games !! k = Some game ->
             uploadVideo k (e_localPath game) (title_of game) = Ret (Some v) ->
             with_YTLink game (videoLink_of v) ∈ returned)
       /\ Forall (fun entry => e_YTLink entry <> None) returned
       /\ forall sheet,
            Forall (fun row => exists entry, entry ∈ returned
                      /\ List.map c_value row = List.map (field entry) members)
                   (drop (length sheet) (write_rows sheet returned).1).
Proof.
  intros Hperm Hready Htasks.
  assert (Hdrop : forall k game sharedGames,
            uploadVideo k (e_localPath game) (title_of game) = Ret None ->
            uploadGameToYoutube uploadVideo queryPlaylistItemsInsert k game
              playlistID sharedGames = (sharedGames, Ret tt)).
  { intros k game sharedGames Hup. unfold uploadGameToYoutube. by rewrite Hup. }
  split; [exact Hdrop|].
  exists (flat_map (linked_at uploadVideo games) schedule).
  assert (Hfrom : forall entry,
            entry ∈ flat_map (linked_at uploadVideo games) schedule ->
            exists k game v,
              games !! k = Some game
              /\ uploadVideo k (e_localPath game) (title_of game) = Ret (Some v)
              /\ entry = with_YTLink game (videoLink_of v)).
  { intros entry Hin.
    apply list_elem_of_In, in_flat_map in Hin as (k & _ & Hin).
    apply list_elem_of_In, linked_at_YTLink in Hin as (game & v & ? & ? & ?).
    by exists k, game, v. }
  split; [|split; [|split; [|split; [|split]]]].
  - apply uploadGames_returns with (playlistID := playlistID); [done| |].
    + intros k Hk. rewrite Hperm. apply elem_of_seq. lia.
    + intros k game Hgame.
      destruct (Htasks k game Hgame) as [Hup|(v & r & Hup & Hr)].
      * by rewrite Hdrop.
      * unfold uploadGameToYoutube. by rewrite Hup, Hr.
  - by rewrite Hperm.
  - exact Hfrom.
  - intros k game v Hgame Hup. apply list_elem_of_In, in_flat_map.
    exists k. split.
    + apply list_elem_of_In. rewrite Hperm. apply elem_of_seq.
      apply lookup_lt_Some in Hgame. lia.
    + unfold linked_at, linked. rewrite Hgame, Hup. by left.
  - apply Forall_forall. intros entry Hin.
    apply Hfrom in Hin as (k & game & v & _ & _ & ->). done.
  - intros sheet. rewrite write_rows_eq.
    destruct (flat_map _ _) as [|entry rest]; simpl.
    + rewrite drop_all. constructor.
    + unfold append. rewrite drop_app_length. constructor; [|constructor].
      exists entry. split; [left|]. by rewrite List.map_map.
Qed.

Lemma failed_uploads_dropped_witness :
  exists returned,
    uploadGamesToYoutube upload_example (fun _ _ _ => Ret None)
      (fun _ => Ret (Some "PL1")) (fun _ => Ret None) [1; 0]%nat
      [game_example; game_example]
    = Ret (Some returned)
    /\ Forall (fun entry => e_YTLink entry <> None) returned.
Proof.
  assert (Hperm : [1; 0]%nat ≡ₚ seq 0 (length [game_example; game_example]))
    by apply perm_swap.
  assert (Hready : playlist_ready (fun _ => Ret (Some "PL1"))
                                  (fun _ => Ret None) (Some "PL1"))
    by (exists "PL1"; split; reflexivity).
  assert (Htasks : forall k game,
            [game_example; game_example] !! k = Some game ->
            upload_example k (e_localPath game) (title_of game) = Ret None
            \/ exists v r,
                 upload_example k (e_localPath game) (title_of game)
                 = Ret (Some v)
                 /\ addVideoToPlaylist (fun _ _ _ => Ret None) k v (Some "PL1")
                    = Ret r).
  { intros k game Hgame. destruct k as [|k].
    - right. exists "dQw4w9WgXcQ", None. split; reflexivity.
    - left. reflexivity. }
  destruct (failed_uploads_dropped upload_example (fun _ _ _ => Ret None)
              (fun _ => Ret (Some "PL1")) (fun _ => Ret None) [1; 0]%nat
              [game_example; game_example] (Some "PL1") Hperm Hready Htasks)
    as (_ & returned & Hret & _ & _ & _ & Hlinks & _).
  exists returned. split; [exact Hret | exact Hlinks].
Defined.

(** ** Fetching the match list page by page *)

Section paging.

Variable utc_to_unix : string -> Q.
Variable get_matchlist : Z -> Z -> option Page.
Variable localVideoDates : gmap string Z.
Variables pageSize time_threshold : Z.
Variable oldest_local_video_date : Z.

Local Abbreviation last_start := (last_start utc_to_unix).

Local Abbreviation stops := (stops utc_to_unix oldest_local_video_date).

Local Abbreviation continues := (continues utc_to_unix oldest_local_video_date).

Local Abbreviation ends := (ends utc_to_unix oldest_local_video_date).

Local Abbreviation pairings_of_page := (pairings_of_page utc_to_unix get_matchlist localVideoDates pageSize time_threshold).

Local Abbreviation pairings_from := (pairings_from utc_to_unix get_matchlist localVideoDates pageSize time_threshold).

Lemma pages_from_S (j : Z) (k : nat) :
  pages_from j (S k) = j :: pages_from (j + 1) k.
Proof.
  unfold pages_from. simpl. rewrite Z.add_0_r. f_equal.
  rewrite <- seq_shift, List.map_map. apply map_ext. intros i. lia.
Qed.

Lemma index_last (p : Page) :
  nonempty p ->
  exists m, last (data p) = Some m
            /\ index (data p) (results_returned p - 1) = Ret m.
Proof.
  intros [Hne Hret]. destruct (last (data p)) as [m|] eqn:Hlast.
  - exists m. split; [done|]. unfold index. rewrite Hret. cbv zeta.
    assert (0 < length (data p))%nat by (destruct (data p); [done|simpl;lia]).
    assert (E1 : (Z.of_nat (length (data p)) - 1 <? 0) = false)
      by (apply Z.ltb_ge; lia).
    assert (E2 : (Z.of_nat (length (data p))
                  <=? Z.of_nat (length (data p)) - 1) = false)
      by (apply Z.leb_gt; lia).
    rewrite E1. cbv iota. rewrite E1, E2. simpl.
    rewrite last_lookup in Hlast.
    replace (Z.to_nat (Z.of_nat (length (data p)) - 1))
      with (pred (length (data p))) by lia.
    by rewrite Hlast.
  - apply last_None in Hlast. done.
Qed.

Abbreviation loop fuel st :=
  (get_pairings_loop utc_to_unix get_matchlist fuel localVideoDates pageSize
                     time_threshold oldest_local_video_date st).

Lemma pairings_from_S (j : Z) (k : nat) :
  pairings_from j (S k) = pairings_of_page j ++ pairings_from (j + 1) k.
Proof. unfold pairings_from. by rewrite pages_from_S. Qed.

Lemma continues_or_ends (p : Page) :
  (continues p /\ ~ ends p) \/ (ends p /\ ~ continues p).
Proof.
  unfold continues, ends.
  destruct (Qlt_le_dec (inject_Z oldest_local_video_date) (last_start p))
    as [Hlt|Hle];
    destruct (decide (results_returned p = results_after p)) as [Heq|Hne].
  - right. split; [by right|]. by intros [_ ?].
  - left. split; [done|]. intros [Hle|?]; [|done].
    by apply (Qlt_not_le _ _ Hlt).
  - right. split; [by left|]. by intros [_ ?].
  - right. split; [by left|]. intros [Hlt _]. by apply (Qlt_not_le _ _ Hlt).
Qed.

Lemma stops_ends (p : Page) : stops p -> ends p.
Proof. intros [Hold|Heq]; [left; by apply Qlt_le_weak | by right]. Qed.

(** The loop on [k] pages that continue followed by one that ends. *)
Lemma loop_stops (k : nat) :
  forall (fuel : nat) (st : loop_state),
    (k < fuel)%nat ->
    (inject_Z oldest_local_video_date < oldest_match_date st)%Q ->
    (forall i, (i < k)%nat ->
       exists p, get_matchlist pageSize (page st + Z.of_nat i) = Some p
                 /\ nonempty p /\ continues p) ->
    (exists p, get_matchlist pageSize (page st + Z.of_nat k) = Some p
               /\ nonempty p /\ ends p) ->
    loop fuel st
    = (requested st ++ pages_from (page st) (S k),
       Ret (total_pairings st ++ pairings_from (page st) (S k))).
Proof.
  induction k as [|k IH]; intros fuel st Hfuel Hlt Hpages Hend;
    (destruct fuel as [|fuel]; [lia|]); simpl;
    rewrite (proj2 (ltb_true _ _) Hlt); simpl.
  - destruct Hend as (p & Hp & Hne & Hend). rewrite Z.add_0_r in Hp.
    rewrite Hp. destruct (index_last p Hne) as (last_ & Hlast & ->).
    rewrite pairings_from_S. unfold pairings_of_page at 1. rewrite Hp.
    unfold pairings_from, pages_from. simpl. rewrite Z.add_0_r, !app_nil_r.
    destruct (results_returned p =? results_after p) eqn:Hafter; [done|].
    apply Z.eqb_neq in Hafter. destruct Hend as [Hold|Heq]; [|done].
    unfold last_start in Hold. rewrite Hlast in Hold.
    destruct fuel; simpl;
      by rewrite (proj2 (ltb_false _ _) Hold).
  - destruct (Hpages 0%nat ltac:(lia)) as (p & Hp & Hne & Hold & Hmore).
    rewrite Z.add_0_r in Hp. rewrite Hp.
    destruct (index_last p Hne) as (last_ & Hlast & ->).
    replace (results_returned p =? results_after p) with false
      by (symmetry; by apply Z.eqb_neq).
    rewrite IH.
    + simpl. rewrite (pages_from_S (page st)), (pairings_from_S (page st)).
      unfold pairings_of_page at 1. rewrite Hp.
      by rewrite <- !app_assoc.
    + lia.
    + simpl. unfold last_start in Hold. by rewrite Hlast in Hold.
    + intros i Hi. destruct (Hpages (S i) ltac:(lia)) as (q & Hq & ?).
      exists q. split; [|done]. simpl.
      by replace (page st + 1 + Z.of_nat i)
        with (page st + Z.of_nat (S i)) by lia.
    + destruct Hend as (q & Hq & ?). exists q. split; [|done]. simpl.
      by replace (page st + 1 + Z.of_nat k)
        with (page st + Z.of_nat (S k)) by lia.
Qed.

(** Among non-empty pages the last of which stops the loop, there is a
    first one that ends it. *)
Lemma first_end (m : nat) :
  forall j : Z,
    (forall i, (i <= m)%nat ->
       exists p, get_matchlist pageSize (j + Z.of_nat i) = Some p
                 /\ nonempty p) ->
    (exists p, get_matchlist pageSize (j + Z.of_nat m) = Some p /\ stops p) ->
    exists n, (n <= m)%nat
      /\ (forall i, (i < n)%nat ->
            exists p, get_matchlist pageSize (j + Z.of_nat i) = Some p
                      /\ nonempty p /\ continues p)
      /\ exists p, get_matchlist pageSize (j + Z.of_nat n) = Some p
                   /\ nonempty p /\ ends p.
Proof.
  induction m as [|m IH]; intros j Hpages Hstop.
  - exists 0%nat. split; [lia|]. split; [intros i Hi; lia|].
    destruct Hstop as (p & Hp & Hstop).
    destruct (Hpages 0%nat ltac:(lia)) as (p' & Hp' & Hne).
    rewrite Hp in Hp'. injection Hp' as <-.
    exists p. split; [done|]. split; [done | by apply stops_ends].
  - destruct (Hpages 0%nat ltac:(lia)) as (p & Hp & Hne).
    destruct (continues_or_ends p) as [[Hcont _]|[Hend _]].
    + destruct (IH (j + 1)) as (n & Hn & Hbefore & Hlast).
      * intros i Hi. destruct (Hpages (S i) ltac:(lia)) as (q & Hq & ?).
        exists q. split; [|done].
        by replace (j + 1 + Z.of_nat i) with (j + Z.of_nat (S i)) by lia.
      * destruct Hstop as (q & Hq & ?). exists q. split; [|done].
        by replace (j + 1 + Z.of_nat m) with (j + Z.of_nat (S m)) by lia.
      * exists (S n). split; [lia|]. split.
        -- intros i Hi. destruct i as [|i]; [by exists p|].
           destruct (Hbefore i ltac:(lia)) as (q & Hq & ?).
           exists q. split; [|done].
           by replace (j + Z.of_nat (S i)) with (j + 1 + Z.of_nat i) by lia.
        -- destruct Hlast as (q & Hq & ?). exists q. split; [|done].
           by replace (j + Z.of_nat (S n)) with (j + 1 + Z.of_nat n) by lia.
    + exists 0%nat. split; [lia|]. split; [intros i Hi; lia|]. by exists p.
Qed.

Lemma loop_exits (k : nat) :
  forall (fuel : nat) (st : loop_state),
    (k < fuel)%nat ->
    (inject_Z oldest_local_video_date < oldest_match_date st)%Q ->
    (forall i, (i < k)%nat ->
       exists p, get_matchlist pageSize (page st + Z.of_nat i) = Some p
                 /\ nonempty p /\ continues p) ->
    get_matchlist pageSize (page st + Z.of_nat k) = None ->
    loop fuel st
    = (requested st ++ pages_from (page st) (S k), Raise SystemExit).
Proof.
  induction k as [|k IH]; intros fuel st Hfuel Hlt Hpages Hnone;
    (destruct fuel as [|fuel]; [lia|]); simpl;
    rewrite (proj2 (ltb_true _ _) Hlt); simpl.
  - rewrite Z.add_0_r in Hnone. rewrite Hnone.
    unfold pages_from. simpl. by rewrite Z.add_0_r.
  - destruct (Hpages 0%nat ltac:(lia)) as (p & Hp & Hne & Hold & Hmore).
    rewrite Z.add_0_r in Hp. rewrite Hp.
    destruct (index_last p Hne) as (last_ & Hlast & ->).
    replace (results_returned p =? results_after p) with false
      by (symmetry; by apply Z.eqb_neq).
    rewrite IH.
    + simpl. rewrite (pages_from_S (page st)). by rewrite <- app_assoc.
    + lia.
    + simpl. unfold last_start in Hold. by rewrite Hlast in Hold.
    + intros i Hi. destruct (Hpages (S i) ltac:(lia)) as (q & Hq & ?).
      exists q. split; [|done]. simpl.
      by replace (page st + 1 + Z.of_nat i)
        with (page st + Z.of_nat (S i)) by lia.
    + simpl. by replace (page st + 1 + Z.of_nat k)
        with (page st + Z.of_nat (S k)) by lia.
Qed.

End paging.

Lemma fold_left_min_le (l : list Z) (x : Z) :
  fold_left Z.min l x <= x /\ forall y, y ∈ l -> fold_left Z.min l x <= y.
Proof.
  revert x; induction l as [|z l IH]; intros x; simpl.
  - split; [lia|]. by intros y ?%elem_of_nil.
  - destruct (IH (Z.min x z)) as [Hx Hl]. split; [lia|].
    intros y [->|Hy]%elem_of_cons; [lia | by apply Hl].
Qed.

Lemma py_min_le (localVideoDates : gmap string Z) (oldest : Z) :
  py_min ((map_to_list localVideoDates).*2) = Ret oldest ->
  forall video T, localVideoDates !! video = Some T -> oldest <= T.
Proof.
  intros Hmin video T Hlook.
  apply elem_of_map_to_list in Hlook.
  apply (list_elem_of_fmap_2 snd) in Hlook. simpl in Hlook.
  destruct ((map_to_list localVideoDates).*2) as [|x rest];
    [by apply elem_of_nil in Hlook|].
  simpl in Hmin. injection Hmin as <-.
  destruct (fold_left_min_le rest x) as [Hx Hrest].
  apply elem_of_cons in Hlook as [->|Hin]; [done | by apply Hrest].
Qed.



(** ** The order of the stages of a run *)

Ltac solve_prefix :=
  unfold full_run, first_calls; rewrite <- ?app_assoc; simpl;
  repeat apply prefix_cons;
  first
    [ apply prefix_nil
    | reflexivity
    | apply prefix_app_r; reflexivity
    | apply prefix_app; repeat apply prefix_cons; apply prefix_nil ].

Lemma build_matches_trace (w : World) (pairings : list Pairing) :
  forall matches trace,
    exists match_ids,
      (build_matches w pairings matches trace).1
      = trace ++ List.map FetchRank match_ids.
Proof.
  induction pairings as [|pair_ rest IH]; intros matches trace; simpl.
  - exists []. by rewrite app_nil_r.
  - destruct (getGameResult (match_data pair_)) as [matchResult_ score_].
    destruct (getRankBeforeMatch _ _ _ _) as [rank_|e|].
    + destruct (IH (matches ++
                      [mkEntry (meta_id (match_data pair_))
                         (w_utc_to_date w (meta_started_at (match_data pair_)))
                         matchResult_ score_
                         (stats_character_name (match_data pair_))
                         (meta_map_name (match_data pair_)) rank_ None
                         (Some (video_path pair_))])
                   (trace ++ [FetchRank (meta_id (match_data pair_))]))
        as [ids Hids].
      exists (meta_id (match_data pair_) :: ids).
      rewrite Hids. by rewrite <- app_assoc.
    + by exists [meta_id (match_data pair_)].
    + by exists [meta_id (match_data pair_)].
Qed.

Lemma process_trace (fuel : nat) (w : World) (excelFile : ExcelSpreadsheet)
    (disk : Disk) (mp4_files : list string) (now : Q) :
  exists pages match_ids games matches,
    (process fuel w excelFile disk mp4_files (first_calls now)).1.1
    `prefix_of` full_run now pages match_ids games matches.
Proof.
  unfold process, full_run.
  destruct (get_pairings _ _ _ _ _ _ _) as [pages r].
  destruct r as [pairings|e|]; simpl.
  - pose proof (build_matches_trace w pairings []
                  ((first_calls now ++ [CreationDates])
                   ++ [FetchMatchlist pages])) as [ids Hids].
    destruct (build_matches _ _ _ _) as [trace r]. simpl in Hids. subst trace.
    destruct r as [games|e|]; simpl.
    + destruct (uploadGamesToYoutube _ _ _ _ _ _) as [[matches|]|e|]; simpl.
      * exists pages, ids, games, matches.
        destruct (writeMatchesToExcel _ _ _) as [[? ?] ?]. simpl.
        solve_prefix.
      * exists pages, ids, games, []. solve_prefix.
      * exists pages, ids, games, []. solve_prefix.
      * exists pages, ids, games, []. solve_prefix.
    + exists pages, ids, [], []. solve_prefix.
    + exists pages, ids, [], []. solve_prefix.
  - exists pages, [], [], []. solve_prefix.
  - exists pages, [], [], []. solve_prefix.
Qed.

(** When the stats API answers every request for the players of a match,
    the loop builds one entry per pairing, in order, after one request
    each. *)
Lemma build_matches_all (w : World) (pairings : list Pairing) :
  (forall pair_, pair_ ∈ pairings ->
     w_get_match w (meta_id (match_data pair_)) <> None) ->
  forall matches trace,
    build_matches w pairings matches trace
    = (trace ++ List.map FetchRank (match_ids_of pairings),
       Ret (matches ++ List.map (entry_of w) pairings)).
Proof.
  unfold match_ids_of.
  induction pairings as [|pair_ rest IH]; intros Hrank matches trace; simpl.
  - by rewrite !app_nil_r.
  - unfold entry_of at 1.
    destruct (getGameResult (match_data pair_)) as [matchResult_ score_].
    unfold getRankBeforeMatch.
    destruct (w_get_match w (meta_id (match_data pair_))) as [players|] eqn:Hm.
    + rewrite IH by (intros p Hp; apply Hrank; by right).
      by rewrite <- !app_assoc.
    + exfalso. apply (Hrank pair_); [by left | done].
Qed.

(** A request for the players of a match that is not answered ends the
    loop, and the run, at that request. *)
Lemma build_matches_stops (w : World) (before after : list Pairing)
    (pair_ : Pairing) :
  (forall p, p ∈ before -> w_get_match w (meta_id (match_data p)) <> None) ->
  w_get_match w (meta_id (match_data pair_)) = None ->
  forall matches trace,
    build_matches w (before ++ pair_ :: after) matches trace
    = (trace ++ List.map FetchRank (match_ids_of (before ++ [pair_])),
       Raise SystemExit).
Proof.
  unfold match_ids_of.
  induction before as [|p rest IH]; intros Hrank Hnone matches trace; simpl.
  - destruct (getGameResult (match_data pair_)) as [matchResult_ score_].
    unfold getRankBeforeMatch. by rewrite Hnone.
  - destruct (getGameResult (match_data p)) as [matchResult_ score_].
    unfold getRankBeforeMatch.
    destruct (w_get_match w (meta_id (match_data p))) as [players|] eqn:Hm.
    + rewrite IH; [|intros q Hq; apply Hrank; by right|done].
      by rewrite <- !app_assoc.
    + exfalso. apply (Hrank p); [by left | done].
Qed.



(** A run of the example world to its last stage: every stage is reached,
    in order, and the run ends in the [TypeError] of the write. *)
Example main_full_run_example :
  exists game entry,
    (main 3 world_example "matches.xlsx").1.1
    = full_run (2000 # 1) [1; 2] ["id-1"] [game] [entry]
    /\ e_localPath entry = Some "C:\v\a.mp4"
    /\ e_YTLink entry = Some "https://www.youtube.com/watch?v=dQw4w9WgXcQ"
    /\ (main 3 world_example "matches.xlsx").2 = Raise TypeError.
Proof. eexists _, _. vm_compute. repeat split. Qed.

(** ** Writing the matches and filtering on the next run *)

(** What [filterOutProcessedMatches] answers on an open workbook: the input
    paths, in input order, that are not a value of column I below the first
    row. *)
Lemma filterOutProcessedMatches_open (filename : string) (sheet : Sheet)
    (mp4_files : list string) :
  filterOutProcessedMatches (mkExcel filename (Some sheet)) mp4_files
  = Ret (Some (List.filter
                 (fun video =>
                    negb (bool_decide
                            (VStr video
                             ∈ List.map c_value
                                 (drop 1 (column_cells sheet "I"%char)))))
                 mp4_files)).
Proof. reflexivity. Qed.

(** C2, at the failing input: [writeMatchesToExcel] on an open workbook
    and a non-empty list appends the row of the first entry and then raises
    [TypeError] at the subscript by [ExcelMatchEntryOrder.matchResult], so
    the file is not saved.  In the example world the first run uploads
    "C:\v\a.mp4" and leaves a file with the header row only; the second run
    does not filter the path out and uploads the video again. *)
Theorem written_paths_not_filtered_on_rerun :
  (forall filename sheet disk match_ rest,
     writeMatchesToExcel (mkExcel filename (Some sheet)) disk (match_ :: rest)
     = (mkExcel filename
          (Some (append sheet (List.map (field match_) members))),
        disk, Raise TypeError))
  /\ let header := header_row in
     let game := paired_game_example in
       let first_run := main 3 world_example "matches.xlsx" in
       let second_run :=
         main 3 (rerun world_example first_run.1.2) "matches.xlsx" in
       e_localPath game = Some "C:\v\a.mp4"
       /\ Upload [game] ∈ first_run.1.1
       /\ first_run.1.2 = Some [header]
       /\ filterOutProcessedMatches (mkExcel "matches.xlsx" first_run.1.2)
            ["C:\v\a.mp4"] = Ret (Some ["C:\v\a.mp4"])
       /\ Upload [game] ∈ second_run.1.1.
Proof.
  split.
  - intros filename sheet disk match_ rest.
    unfold writeMatchesToExcel. cbn [wb].
    rewrite (write_rows_eq sheet (match_ :: rest)). reflexivity.
  - vm_compute. split; [reflexivity|].
    split; [|split; [reflexivity|split; [reflexivity|]]].
    + do 9 right. left.
    + do 9 right. left.
Qed.

(** * Further properties *)

(** ** The retry decorator *)

Lemma wrapper_loop_server_errors {A : Type} (runs : nat) (delay : Z)
    (apiFunc : nat -> outcome A) (k : nat) :
  forall (left i : nat) (slept : list Q),
    (forall j, (i <= j < i + k)%nat ->
       exists status, apiFunc j = Raise (HttpError status) /\ 500 <= status) ->
    wrapper_loop runs delay apiFunc (k + left) i slept
    = wrapper_loop runs delay apiFunc left (i + k)
        (slept ++ replicate k (inject_Z delay / 1000)%Q).
Proof.
  induction k as [|k IH]; intros left i slept Hfail.
  - simpl. by rewrite Nat.add_0_r, app_nil_r.
  - destruct (Hfail i ltac:(lia)) as (status & Hi & Hstatus).
    simpl. rewrite Hi.
    replace (status <? 500) with false by (symmetry; apply Z.ltb_ge; lia).
    rewrite IH by (intros j Hj; apply Hfail; lia).
    replace (S i + k)%nat with (i + S k)%nat by lia.
    by rewrite <- app_assoc.
Qed.



(** ** What an upload answers *)

Lemma resumable_loop_answer (execute : nat -> outcome (option Response))
    (random : nat -> Q) (fuel : nat) :
  forall (retries : Z) (attempt : nat) (error : bool) (retry : Z)
         (slept : list Q) (response : Response),
    (resumable_loop execute random fuel retries attempt error retry slept).2
    = Ret (Some response) ->
    is_Some (response !! "id")
    /\ exists a, execute a = Ret (Some response).
Proof.
  induction fuel as [|fuel IH];
    intros retries attempt error retry slept response; simpl; [done|].
  destruct (execute attempt) as [[r|]|e|] eqn:Hexec; simpl.
  - case_decide as Hid; simpl; [|done]. intros [= <-].
    split; [done | by exists attempt].
  - destruct error; [|by apply IH].
    destruct (retry + 1 >? retries); simpl; [done | by apply IH].
  - destruct e; try done.
    destruct (status >=? 500); simpl; [|done].
    destruct (retry + 1 >? retries); simpl; [done | by apply IH].
  - done.
Qed.

Lemma wrapper_loop_answer {A : Type} (runs : nat) (delay : Z)
    (apiFunc : nat -> outcome A) (left : nat) :
  forall (i : nat) (slept : list Q),
    (forall a, (wrapper_loop runs delay apiFunc left i slept).2 = Ret a ->
       exists j, apiFunc j = Ret a)
    /\ (forall status,
          (wrapper_loop runs delay apiFunc left i slept).2
          = Raise (HttpError status) -> status < 500).
Proof.
  induction left as [|left IH]; intros i slept; simpl; [done|].
  destruct (apiFunc i) as [a'|e|] eqn:Hi; simpl.
  - split; [|done]. intros a [= <-]. by exists i.
  - destruct e; try done.
    destruct (Z.ltb_spec status 500); simpl; [|by apply IH].
    split; [done|]. by intros s [= <-].
  - done.
Qed.

(** X2: [uploadVideo] answers a video id only when some execution of the
    request answered a response with that id; the lookup [video["id"]]
    cannot fail, because [resumable_upload] returns no response without an
    id; and neither [HttpError] nor [ExceptionHistory] leaves
    [uploadVideo]. *)
Theorem uploadVideo_answers (getAndSaveCredentials : nat -> outcome bool)
    (execute : nat -> nat -> outcome (option Response))
    (random : nat -> nat -> Q) (fuel : nat) :
  let answer := uploadVideo getAndSaveCredentials execute random fuel in
  (forall video,
     queryVideosInsert getAndSaveCredentials execute random fuel
     = Ret (Some video) ->
     exists v, video !! "id" = Some v /\ answer = Ret (Some v))
  /\ (forall v, answer = Ret (Some v) ->
        exists i a video,
          execute i a = Ret (Some video) /\ video !! "id" = Some v)
  /\ (forall status, answer <> Raise (HttpError status))
  /\ (forall n, answer <> Raise (ExceptionHistory n)).
Proof.
  intros answer.
  assert (Hquery : forall video,
            queryVideosInsert getAndSaveCredentials execute random fuel
            = Ret (Some video) ->
            is_Some (video !! "id")
            /\ exists i a, execute i a = Ret (Some video)).
  { intros video Hq. unfold queryVideosInsert, retryAPIWithDelay in Hq.
    apply wrapper_loop_answer in Hq as [i Hi].
    unfold queryVideosInsert_body in Hi.
    destruct (getAndSaveCredentials i) as [[|]|e|]; simpl in Hi; try done.
    apply resumable_loop_answer in Hi as [Hid [a Ha]].
    split; [done | by exists i, a]. }
  subst answer. unfold uploadVideo.
  destruct (queryVideosInsert _ _ _ _) as [[video|]|e|] eqn:Hq.
  - destruct (Hquery video eq_refl) as [[v Hv] (i & a & Ha)].
    unfold getitem, Response in *. rewrite Hv. simpl.
    split; [|split; [|done]].
    + intros video' [= <-]. by exists v.
    + intros v' [= <-]. by exists i, a, video.
  - done.
  - by destruct e.
  - done.
Qed.

(** X3: when the first [k] executions fail with a server error and the next
    one answers a response, [resumable_upload] returns after [k] sleeps:
    the response when it holds an id, [None] when it does not. *)
Theorem resumable_upload_recovers (execute : nat -> outcome (option Response))
    (random : nat -> Q) (fuel : nat) (retries : Z) (k : nat)
    (response : Response) :
  Z.of_nat k <= retries ->
  failing execute 0 k ->
  execute k = Ret (Some response) ->
  resumable_upload execute random (S k + fuel) retries
  = (mkEffects (S k) (backoff random 0 0 k),
     Ret (if decide (is_Some (response !! "id")) then Some response
          else None)).
Proof.
  intros Hk Hfail Hexec. unfold resumable_upload.
  replace (S k + fuel)%nat with (k + S fuel)%nat by lia.
  rewrite resumable_loop_retries; [| done | lia].
  simpl. rewrite Hexec. by case_decide.
Qed.

Lemma resumable_upload_recovers_witness :
  resumable_upload
    (fun a => if (a <? 1)%nat then Raise (HttpError 500)
              else Ret (Some {["id" := "dQw4w9WgXcQ"]}))
    (fun _ => 1 # 2) 2 default_retries
  = (mkEffects 2 [((1 # 2) * inject_Z 2)%Q],
     Ret (Some {["id" := "dQw4w9WgXcQ"]})).
Proof.
  refine (resumable_upload_recovers
            (fun a => if (a <? 1)%nat then Raise (HttpError 500)
                      else Ret (Some {["id" := "dQw4w9WgXcQ"]}))
            (fun _ => 1 # 2) 0 default_retries 1
            {["id" := "dQw4w9WgXcQ"]} _ _ _);
    [unfold default_retries; lia | | reflexivity].
  intros a Ha. exists 500. split; [|lia].
  destruct a as [|a]; [reflexivity | lia].
Defined.

Lemma resumable_loop_stalls (execute : nat -> outcome (option Response))
    (random : nat -> Q) (n : nat) :
  forall (fuel : nat) (retries : Z) (attempt : nat) (retry : Z)
         (slept : list Q),
    stalling execute attempt n ->
    retry + Z.of_nat n <= retries ->
    resumable_loop execute random (n + fuel) retries attempt true retry slept
    = resumable_loop execute random fuel retries (attempt + n) true
        (retry + Z.of_nat n) (slept ++ backoff random (length slept) retry n).
Proof.
  induction n as [|n IH]; intros fuel retries attempt retry slept Hstall Hle.
  - simpl. by rewrite Nat.add_0_r, Z.add_0_r, app_nil_r.
  - assert (Hgo : (retry + 1 >? retries) = false)
      by (rewrite Z.gtb_ltb; apply Z.ltb_ge; lia).
    assert (Hnext :
      resumable_loop execute random (n + fuel) retries (S attempt) true
        (retry + 1)
        (slept ++ [(random (length slept) * inject_Z (2 ^ (retry + 1)))%Q])
      = resumable_loop execute random fuel retries (attempt + S n) true
          (retry + Z.of_nat (S n))
          (slept ++ backoff random (length slept) retry (S n))).
    { rewrite IH; [| intros a Ha; apply Hstall; lia | lia].
      replace (S attempt + n)%nat with (attempt + S n)%nat by lia.
      replace (retry + 1 + Z.of_nat n) with (retry + Z.of_nat (S n)) by lia.
      simpl backoff. rewrite <- app_assoc. simpl.
      rewrite length_app. simpl.
      by replace (length slept + 1)%nat with (S (length slept)) by lia. }
    change (S n + fuel)%nat with (S (n + fuel)). simpl resumable_loop.
    destruct (Hstall attempt ltac:(lia)) as [Hnone|(status & Herr & Hstatus)].
    + rewrite Hnone, Hgo. exact Hnext.
    + rewrite Herr.
      replace (status >=? 500) with true
        by (rewrite Z.geb_leb; symmetry; apply Z.leb_le; lia).
      rewrite Hgo. exact Hnext.
Qed.

Lemma resumable_loop_last_stall (execute : nat -> outcome (option Response))
    (random : nat -> Q) (fuel : nat) (retries : Z) (attempt : nat)
    (retry : Z) (slept : list Q) :
  stalling execute attempt 1 ->
  retries < retry + 1 ->
  resumable_loop execute random (S fuel) retries attempt true retry slept
  = (mkEffects (S attempt) slept, Ret None).
Proof.
  intros Hstall Hlast.
  assert (Hstop : (retry + 1 >? retries) = true)
    by (rewrite Z.gtb_ltb; apply Z.ltb_lt; lia).
  simpl.
  destruct (Hstall attempt ltac:(lia)) as [Hnone|(status & Herr & Hstatus)].
  - by rewrite Hnone, Hstop.
  - rewrite Herr.
    replace (status >=? 500) with true
      by (rewrite Z.geb_leb; symmetry; apply Z.leb_le; lia).
    by rewrite Hstop.
Qed.

(** X4: the variable [error] is never reset: once an execution has failed
    with a server error, every later execution that answers [None] counts as
    a failed attempt too, so such a run gives up with [None] after
    [retries + 1] executions. *)
Theorem resumable_upload_counts_none_after_error
    (execute : nat -> outcome (option Response)) (random : nat -> Q)
    (fuel : nat) (retries : Z) :
  0 <= retries ->
  (exists status, execute 0%nat = Raise (HttpError status) /\ 500 <= status) ->
  stalling execute 1 (Z.to_nat retries) ->
  resumable_upload execute random (S (Z.to_nat retries) + fuel) retries
  = (mkEffects (S (Z.to_nat retries)) (backoff random 0 0 (Z.to_nat retries)),
     Ret None).
Proof.
  intros Hpos (status & Hfirst & Hstatus) Hstall.
  assert (Hfail : failing execute 0 1).
  { intros a Ha. exists status. replace a with 0%nat by lia. done. }
  destruct (Z.to_nat retries) as [|n] eqn:Hn.
  - assert (retries = 0) as -> by lia.
    exact (resumable_upload_gives_up execute random fuel 0 ltac:(lia) Hfail).
  - unfold resumable_upload.
    replace (S (S n) + fuel)%nat with (1 + (n + S fuel))%nat by lia.
    rewrite (resumable_loop_retries execute random 1); [| done | lia].
    rewrite resumable_loop_stalls; [| intros a Ha; apply Hstall; lia | lia].
    rewrite resumable_loop_last_stall.
    + do 2 f_equal; try lia.
    + intros a Ha. apply Hstall. lia.
    + lia.
Qed.

Lemma resumable_upload_counts_none_after_error_witness :
  resumable_upload
    (fun a => if (a <? 1)%nat then Raise (HttpError 503) else Ret None)
    (fun _ => 1 # 2) 3 2
  = (mkEffects 3 [((1 # 2) * inject_Z 2)%Q; ((1 # 2) * inject_Z 4)%Q],
     Ret None).
Proof.
  refine (resumable_upload_counts_none_after_error
            (fun a => if (a <? 1)%nat then Raise (HttpError 503) else Ret None)
            (fun _ => 1 # 2) 0 2 _ _ _).
  - lia.
  - exists 503. split; [reflexivity | lia].
  - intros a Ha. left. destruct a as [|a]; [lia | reflexivity].
Defined.

(** X5: while no execution has failed, an execution that answers [None]
    is tried again at once, without a sleep and without counting: when every
    execution answers [None] the loop never ends. *)
Theorem resumable_upload_spins_on_none
    (execute : nat -> outcome (option Response)) (random : nat -> Q)
    (fuel : nat) (retries : Z) :
  (forall a, execute a = Ret None) ->
  resumable_upload execute random fuel retries = (mkEffects fuel [], OutOfFuel).
Proof.
  intros Hnone. unfold resumable_upload.
  assert (H : forall attempt,
            resumable_loop execute random fuel retries attempt false 0 []
            = (mkEffects (attempt + fuel) [], OutOfFuel)).
  { induction fuel as [|fuel IH]; intros attempt; simpl.
    - by rewrite Nat.add_0_r.
    - rewrite Hnone, IH. do 2 f_equal. lia. }
  by rewrite H.
Qed.

Lemma resumable_upload_spins_on_none_witness :
  resumable_upload (fun _ => Ret None) (fun _ => 1 # 2) 1000 default_retries
  = (mkEffects 1000 [], OutOfFuel).
Proof.
  apply (resumable_upload_spins_on_none (fun _ => Ret None) (fun _ => 1 # 2)).
  reflexivity.
Defined.

(** ** Looking up the playlist *)

Lemma getPlaylistIDByName_loop_walk
    (queryPlaylistsList : option string -> outcome (option PlaylistsPage))
    (playlistName : string) (token : option string)
    (pages : list PlaylistsPage) :
  playlist_walk queryPlaylistsList playlistName token pages ->
  forall (fuel : nat) (last_ : PlaylistsPage),
    last pages = Some last_ ->
    (length pages <= fuel)%nat ->
    getPlaylistIDByName_loop queryPlaylistsList fuel playlistName token
    = match List.find (fun playlist =>
                         String.eqb (playlist_title playlist) playlistName)
                      (items last_) with
      | Some playlist => Ret (Some (playlist_id playlist))
      | None =>
          match nextPageToken last_ with
          | None => Ret (Some "-1")
          | Some next =>
              getPlaylistIDByName_loop queryPlaylistsList
                (fuel - length pages) playlistName (Some next)
          end
      end.
Proof.
  induction 1 as [token response Hq|token response next rest Hq Hfind Hnext Hwalk IH];
    intros fuel last_ Hlast Hfuel.
  - injection Hlast as <-. destruct fuel as [|fuel]; [simpl in Hfuel; lia|].
    simpl. rewrite Hq. by rewrite Nat.sub_0_r.
  - destruct fuel as [|fuel]; [simpl in Hfuel; lia|].
    simpl. rewrite Hq, Hfind, Hnext.
    assert (Hlast' : last rest = Some last_).
    { destruct rest as [|p rest]; [inversion Hwalk | exact Hlast]. }
    apply IH; [done | simpl in Hfuel; lia].
Qed.

(** X6: [getPlaylistIDByName] follows the page tokens from the first page
    on.  It answers the id of the first playlist with the name on the first
    page that has one; "-1" when no page has one and the last page names no
    next page; and [None] when the query for the next page fails. *)
Theorem getPlaylistIDByName_pages
    (queryPlaylistsList : option string -> outcome (option PlaylistsPage))
    (playlistName : string) (pages : list PlaylistsPage)
    (last_ : PlaylistsPage) (fuel : nat) :
  playlist_walk queryPlaylistsList playlistName None pages ->
  last pages = Some last_ ->
  (length pages < fuel)%nat ->
  let found :=
    List.find (fun playlist => String.eqb (playlist_title playlist) playlistName)
              (items last_) in
  let answer := getPlaylistIDByName queryPlaylistsList fuel playlistName in
  (forall playlist, found = Some playlist ->
     answer = Ret (Some (playlist_id playlist)))
  /\ (found = None -> nextPageToken last_ = None -> answer = Ret (Some "-1"))
  /\ (forall next, found = None -> nextPageToken last_ = Some next ->
        query_fails (queryPlaylistsList (Some next)) -> answer = Ret None).
Proof.
  intros Hwalk Hlast Hfuel found answer. subst found answer.
  unfold getPlaylistIDByName.
  rewrite (getPlaylistIDByName_loop_walk _ _ _ _ Hwalk fuel last_ Hlast)
    by lia.
  split; [|split].
  - by intros playlist ->.
  - by intros -> ->.
  - intros next -> -> Hfails.
    destruct (fuel - length pages)%nat as [|fuel'] eqn:Hleft; [lia|].
    simpl.
    destruct Hfails as [->|[[status ->]|[runs ->]]]; done.
Qed.

Lemma getPlaylistIDByName_pages_witness :
  getPlaylistIDByName playlists_example 3 VODs_playlist_name
  = Ret (Some "PL1").
Proof.
  assert (Hwalk : playlist_walk playlists_example VODs_playlist_name None
            [mkPlaylistsPage [mkPlaylist "PL0" "Music"] (Some "t1");
             mkPlaylistsPage [mkPlaylist "PL1" "Valorant VODs";
                              mkPlaylist "PL2" "Valorant VODs"] None]).
  { apply walk_next with (next := "t1"); try reflexivity.
    apply walk_last. reflexivity. }
  destruct (getPlaylistIDByName_pages playlists_example VODs_playlist_name _
              (mkPlaylistsPage [mkPlaylist "PL1" "Valorant VODs";
                                mkPlaylist "PL2" "Valorant VODs"] None)
              3 Hwalk eq_refl ltac:(simpl; lia)) as [Hfound _].
  apply (Hfound (mkPlaylist "PL1" "Valorant VODs")). reflexivity.
Defined.

(** ** Obtaining the credentials *)

(** X7: [getAndSaveCredentials] writes the credentials file only when the
    user was asked and granted access, and then the file holds the
    credentials answered; a denial leaves the file as it was.  Saved
    credentials that cover the scopes and are valid are answered without
    asking; invalid ones that can be refreshed are answered refreshed, also
    without asking, and the refreshed credentials are not written back. *)
Theorem getAndSaveCredentials_file (requestCredentials_ : request_result)
    (refresh : Credentials -> refresh_result) (scopes : list string)
    (file : option Credentials) :
  let run := getAndSaveCredentials requestCredentials_ refresh scopes file in
  (asked run = true -> answer run = requestCredentials_)
  /\ (forall credentials, asked run = true ->
        requestCredentials_ = Granted credentials ->
        saved run = Some credentials)
  /\ (answer run = AccessDenied -> asked run = true /\ saved run = file)
  /\ (asked run = false -> saved run = file)
  /\ (forall credentials,
        file = Some credentials ->
        (forall scope, scope ∈ scopes -> scope ∈ cred_scopes credentials) ->
        (cred_valid credentials = true ->
         run = mkRun file false (Granted credentials))
        /\ (forall token refreshed,
              cred_valid credentials = false ->
              cred_refresh_token credentials = Some token -> token <> "" ->
              refresh credentials = Refreshed refreshed ->
              run = mkRun file false (Granted refreshed))).
Proof.
  intros run. subst run. unfold getAndSaveCredentials, request_and_save.
  assert (Hcovered : forall credentials,
            (forall scope, scope ∈ scopes -> scope ∈ cred_scopes credentials) ->
            forallb (fun scope => bool_decide (scope ∈ cred_scopes credentials))
                    scopes = true).
  { intros credentials Hscopes. apply forallb_forall. intros scope Hin.
    apply bool_decide_eq_true, Hscopes, list_elem_of_In, Hin. }
  split; [|split; [|split; [|split]]].
  - intros Hasked. destruct file as [c|]; simpl in *.
    + destruct (forallb _ _); simpl in *.
      * destruct (cred_valid c); simpl in *; [done|].
        destruct (refreshCredentials refresh c); simpl in *; [done|].
        by destruct requestCredentials_.
      * by destruct requestCredentials_.
    + by destruct requestCredentials_.
  - intros credentials Hasked Hreq. destruct file as [c|]; simpl in *.
    + destruct (forallb _ _); simpl in *.
      * destruct (cred_valid c); simpl in *; [done|].
        destruct (refreshCredentials refresh c); simpl in *; [done|].
        by rewrite Hreq.
      * by rewrite Hreq.
    + by rewrite Hreq.
  - intros Hdenied. destruct file as [c|]; simpl in *.
    + destruct (forallb _ _); simpl in *.
      * destruct (cred_valid c); simpl in *; [done|].
        destruct (refreshCredentials refresh c); simpl in *; [done|].
        by destruct requestCredentials_.
      * by destruct requestCredentials_.
    + by destruct requestCredentials_.
  - intros Hquiet. destruct file as [c|]; simpl in *.
    + destruct (forallb _ _); simpl in *.
      * destruct (cred_valid c); simpl in *; [done|].
        destruct (refreshCredentials refresh c); simpl in *; [done|].
        by destruct requestCredentials_.
      * by destruct requestCredentials_.
    + by destruct requestCredentials_.
  - intros credentials -> Hscopes. rewrite (Hcovered _ Hscopes). simpl. split.
    + by intros ->.
    + intros token refreshed -> Htoken Hne Hrefresh. simpl.
      unfold refreshCredentials. rewrite Htoken.
      replace (String.eqb token "") with false
        by (symmetry; by apply String.eqb_neq).
      by rewrite Hrefresh.
Qed.

(** ** How the pool of uploads ends *)

Lemma get_all_raises (results : gmap nat (outcome unit)) (e : exc) (k : nat) :
  forall (n i : nat),
    (i <= k < i + n)%nat ->
    (forall j, (i <= j < k)%nat -> results !! j = Some (Ret tt)) ->
    results !! k = Some (Raise e) ->
    get_all results (seq i n) = Raise e.
Proof.
  induction n as [|n IH]; intros i Hk Hbefore Hraise; [lia|].
  simpl. destruct (decide (i = k)) as [->|Hne].
  - by rewrite Hraise.
  - rewrite (Hbefore i) by lia. apply IH; [lia| |done].
    intros j Hj. apply Hbefore. lia.
Qed.

(** X8: [uploadGamesToYoutube] answers [None] exactly when the lookup of
    the playlist answers [None].  A playlist that could not be created does
    not stop the uploads: they run with the playlist id [None]. *)
Theorem uploadGamesToYoutube_none
    (uploadVideo : nat -> option string -> string -> outcome (option string))
    (queryPlaylistItemsInsert :
       nat -> string -> option string -> outcome (option Response))
    (getPlaylistIDByName createPlaylist : string -> outcome (option string))
    (schedule : list nat) (games : list ExcelMatchEntry) :
  let answer :=
    uploadGamesToYoutube uploadVideo queryPlaylistItemsInsert
      getPlaylistIDByName createPlaylist schedule games in
  (answer = Ret None <-> getPlaylistIDByName VODs_playlist_name = Ret None)
  /\ (getPlaylistIDByName VODs_playlist_name = Ret (Some "-1") ->
      createPlaylist VODs_playlist_name = Ret None ->
      (forall k, (k < length games)%nat -> k ∈ schedule) ->
      (forall k game, games !! k = Some game ->
         (uploadGameToYoutube uploadVideo queryPlaylistItemsInsert k game None
                              []).2 = Ret tt) ->
      answer = Ret (Some (flat_map (linked_at uploadVideo games) schedule))).
Proof.
  intros answer. subst answer. split.
  - unfold uploadGamesToYoutube.
    destruct (getPlaylistIDByName _) as [[found|]|e|]; simpl; try done.
    destruct (if String.eqb found "-1" then _ else _) as [playlistID|e|];
      simpl; try done.
    destruct (run_pool _ _ _ _ _ _ _) as [sharedGames results].
    destruct (get_all _ _); simpl; done.
  - intros Hfound Hcreate Hsched Htasks.
    apply uploadGames_returns with (playlistID := None); [|done|done].
    exists "-1". by rewrite Hfound, Hcreate.
Qed.

(** X9: when a task raises, [uploadGamesToYoutube] raises the exception of
    the first such task in the order of [games], and returns no list, so
    the links of the videos already uploaded are lost.  A task raises
    [AttributeError] when its video was uploaded and the insertion into the
    playlist failed with server errors on every run, after it has put its
    entry on the shared list. *)
Theorem uploadGamesToYoutube_raises
    (uploadVideo : nat -> option string -> string -> outcome (option string))
    (queryPlaylistItemsInsert :
       nat -> string -> option string -> outcome (option Response))
    (getPlaylistIDByName createPlaylist : string -> outcome (option string))
    (schedule : list nat) (games : list ExcelMatchEntry)
    (playlistID : option string) (k : nat) (game : ExcelMatchEntry) :
  playlist_ready getPlaylistIDByName createPlaylist playlistID ->
  (forall j, (j < length games)%nat -> j ∈ schedule) ->
  games !! k = Some game ->
  (forall j game', (j < k)%nat -> games !! j = Some game' ->
     (uploadGameToYoutube uploadVideo queryPlaylistItemsInsert j game'
                          playlistID []).2 = Ret tt) ->
  (forall e,
     (uploadGameToYoutube uploadVideo queryPlaylistItemsInsert k game
                          playlistID []).2 = Raise e ->
     uploadGamesToYoutube uploadVideo queryPlaylistItemsInsert
       getPlaylistIDByName createPlaylist schedule games = Raise e)
  /\ (forall v runs sharedGames,
        uploadVideo k (e_localPath game) (title_of game) = Ret (Some v) ->
        queryPlaylistItemsInsert k v playlistID
        = Raise (ExceptionHistory runs) ->
        uploadGameToYoutube uploadVideo queryPlaylistItemsInsert k game
                            playlistID sharedGames
        = (sharedGames ++ [with_YTLink game (videoLink_of v)],
           Raise AttributeError)).
Proof.
  intros (found & Hfound & Hid) Hsched Hgame Hbefore. split.
  - intros e Hraise. unfold uploadGamesToYoutube.
    rewrite Hfound. simpl. rewrite Hid. simpl.
    pose proof (fun j game' Hg Hin =>
                  run_pool_results uploadVideo queryPlaylistItemsInsert games
                    playlistID schedule j game' Hg Hin [] ∅) as Hr.
    destruct (run_pool _ _ _ _ _ _ _) as [sharedGames results].
    simpl in Hr.
    assert (Hk : (k < length games)%nat) by (by apply lookup_lt_Some in Hgame).
    rewrite (get_all_raises results e k); [done | lia | |].
    + intros j Hj.
      destruct (lookup_lt_is_Some_2 games j ltac:(lia)) as [game' Hgame'].
      rewrite (Hr j game' Hgame' (Hsched j ltac:(lia))).
      by rewrite (Hbefore j game' ltac:(lia) Hgame').
    + rewrite (Hr k game Hgame (Hsched k Hk)). by rewrite Hraise.
  - intros v runs sharedGames Hup Hinsert.
    unfold uploadGameToYoutube, addVideoToPlaylist. by rewrite Hup, Hinsert.
Qed.

Lemma uploadGamesToYoutube_raises_witness :
  uploadGamesToYoutube upload_example
    (fun _ _ _ => Raise (ExceptionHistory 3))
    (fun _ => Ret (Some "PL1")) (fun _ => Ret None) [1; 0]%nat
    [game_example; game_example]
  = Raise AttributeError.
Proof.
  refine (proj1 (uploadGamesToYoutube_raises upload_example
                   (fun _ _ _ => Raise (ExceptionHistory 3))
                   (fun _ => Ret (Some "PL1")) (fun _ => Ret None) [1; 0]%nat
                   [game_example; game_example] (Some "PL1") 0 game_example
                   _ _ _ _) AttributeError _).
  - exists "PL1". split; reflexivity.
  - intros j Hj. simpl in Hj.
    destruct j as [|[|j]]; [by right; left | by left | lia].
  - reflexivity.
  - intros j game' Hj. lia.
  - reflexivity.
Defined.

(** ** More on pairing *)

(** X10: the pairings are listed match by match: pairing a concatenated
    match list gives the pairings of its parts one after the other, so the
    pairings [get_pairings] collects page by page are those of the matches of
    the pages taken as one list.  Without local videos nothing is paired. *)
Theorem pairing_by_parts (utc_to_unix : string -> Q)
    (get_matchlist : Z -> Z -> option Page)
    (localVideoDates : gmap string Z) (pageSize time_threshold : Z) :
  (forall l1 l2,
     compare_matchlist_with_video_dates utc_to_unix (l1 ++ l2) localVideoDates
                                        time_threshold
     = compare_matchlist_with_video_dates utc_to_unix l1 localVideoDates
                                          time_threshold
       ++ compare_matchlist_with_video_dates utc_to_unix l2 localVideoDates
                                             time_threshold)
  /\ (forall pages : list Z,
        flat_map (pairings_of_page utc_to_unix get_matchlist localVideoDates
                                   pageSize time_threshold) pages
        = compare_matchlist_with_video_dates utc_to_unix
            (flat_map (data_of_page get_matchlist pageSize) pages)
            localVideoDates time_threshold)
  /\ (forall matchlist,
        compare_matchlist_with_video_dates utc_to_unix matchlist ∅
                                           time_threshold = []).
Proof.
  assert (Happ : forall l1 l2,
     compare_matchlist_with_video_dates utc_to_unix (l1 ++ l2) localVideoDates
                                        time_threshold
     = compare_matchlist_with_video_dates utc_to_unix l1 localVideoDates
                                          time_threshold
       ++ compare_matchlist_with_video_dates utc_to_unix l2 localVideoDates
                                             time_threshold).
  { intros l1 l2. rewrite !compare_matchlist_with_video_dates_eq.
    apply flat_map_app. }
  split; [exact Happ|]. split.
  - induction pages as [|j pages IH]; simpl.
    + by rewrite compare_matchlist_with_video_dates_eq.
    + rewrite Happ, IH. f_equal.
      unfold pairings_of_page, data_of_page.
      destruct (get_matchlist pageSize j); [done|].
      by rewrite compare_matchlist_with_video_dates_eq.
  - intros matchlist. rewrite compare_matchlist_with_video_dates_eq.
    induction matchlist as [|m rest IH]; [done|]. simpl. rewrite IH.
    unfold pairings_of. by rewrite map_to_list_empty.
Qed.

(** X11: the threshold is exclusive and widening it keeps every pairing: a
    threshold of zero or less pairs nothing, and a pairing found with one
    threshold is found with every greater one. *)
Theorem pairing_threshold (utc_to_unix : string -> Q)
    (matchlist : list Match) (localVideoDates : gmap string Z)
    (time_threshold : Z) :
  (time_threshold <= 0 ->
   compare_matchlist_with_video_dates utc_to_unix matchlist localVideoDates
                                      time_threshold = [])
  /\ (forall wider p,
        time_threshold <= wider ->
        p ∈ compare_matchlist_with_video_dates utc_to_unix matchlist
              localVideoDates time_threshold ->
        p ∈ compare_matchlist_with_video_dates utc_to_unix matchlist
              localVideoDates wider).
Proof.
  split.
  - intros Hle. rewrite compare_matchlist_with_video_dates_eq.
    assert (Hnone : forall m,
              pairings_of utc_to_unix localVideoDates time_threshold m = []).
    { intros m. unfold pairings_of.
      replace (List.filter _ (map_to_list localVideoDates)) with
        (@nil (string * Z)); [done|].
      symmetry. induction (map_to_list localVideoDates) as [|[v T] l IH];
        [done|]. simpl. rewrite IH.
      replace (close T _ time_threshold) with false; [done|].
      symmetry. apply ltb_false.
      apply Qle_trans with 0%Q; [|apply Qabs_nonneg].
      change 0%Q with (inject_Z 0). rewrite <- Zle_Qle. lia. }
    induction matchlist as [|m rest IH]; [done|]. simpl. by rewrite Hnone, IH.
  - intros wider p Hle. rewrite !compare_matchlist_with_video_dates_eq.
    intros Hin. apply list_elem_of_In, in_flat_map in Hin as (m & Hm & Hin).
    apply list_elem_of_In, in_flat_map. exists m. split; [done|].
    apply list_elem_of_In. apply list_elem_of_In in Hin.
    apply elem_of_pairings_of in Hin as (Hmatch & T & Hlook & Hclose).
    apply elem_of_pairings_of. split; [done|]. exists T. split; [done|].
    apply close_iff. apply close_iff in Hclose.
    apply Qlt_le_trans with (inject_Z time_threshold); [done|].
    by rewrite <- Zle_Qle.
Qed.

(** X12: the edges of [get_pairings].  Without local videos it raises
    [ValueError] and asks for no page; when the oldest local video is not
    older than the current time it asks for no page and pairs nothing; and
    a page without matches makes it raise [IndexError] at that page. *)
Theorem get_pairings_edges (utc_to_unix : string -> Q)
    (get_matchlist : Z -> Z -> option Page) (now : Q)
    (localVideoDates : gmap string Z) (pageSize time_threshold : Z)
    (fuel : nat) :
  let answer :=
    get_pairings utc_to_unix get_matchlist fuel now localVideoDates pageSize
                 time_threshold in
  (localVideoDates = ∅ -> answer = ([], Raise ValueError))
  /\ (forall oldest,
        py_min ((map_to_list localVideoDates).*2) = Ret oldest ->
        (now <= inject_Z oldest)%Q -> answer = ([], Ret []))
  /\ (forall oldest p,
        py_min ((map_to_list localVideoDates).*2) = Ret oldest ->
        (inject_Z oldest < now)%Q -> (0 < fuel)%nat ->
        get_matchlist pageSize 1 = Some p -> data p = [] ->
        answer = ([1], Raise IndexError)).
Proof.
  intros answer. subst answer. unfold get_pairings. split; [|split].
  - intros ->. by rewrite map_to_list_empty.
  - intros oldest -> Hnow.
    destruct fuel; simpl; by rewrite (proj2 (ltb_false _ _) Hnow).
  - intros oldest p -> Hnow Hfuel Hp Hdata.
    destruct fuel as [|fuel]; [lia|]. simpl.
    rewrite (proj2 (ltb_true _ _) Hnow). simpl. rewrite Hp.
    unfold index. rewrite Hdata. simpl.
    by destruct (_ || _).
Qed.

(** X13: [getRankBeforeMatch] exits when the match cannot be fetched;
    otherwise it answers the rank of the first player whose name and tag
    both equal the saved ones, and [None] exactly when no player has
    both. *)
Theorem getRankBeforeMatch_spec (get_match : string -> option (list Player))
    (gameName tagLine match_id : string) :
  let answer := getRankBeforeMatch get_match gameName tagLine match_id in
  (get_match match_id = None -> answer = Raise SystemExit)
  /\ (forall before player after,
        get_match match_id = Some (before ++ player :: after) ->
        Forall (fun other => is_player gameName tagLine other = false) before ->
        player_name player = gameName -> player_tag player = tagLine ->
        answer = Ret (Some (currenttier_patched player)))
  /\ (forall all_players,
        get_match match_id = Some all_players ->
        (answer = Ret None
         <-> Forall (fun other => player_name other <> gameName
                                  \/ player_tag other <> tagLine)
                    all_players)).
Proof.
  intros answer. subst answer. unfold getRankBeforeMatch. split; [|split].
  - by intros ->.
  - intros before player after -> Hbefore Hname Htag. f_equal.
    induction Hbefore as [|other before Hother _ IH]; simpl.
    + rewrite Hname, Htag, !String.eqb_refl. done.
    + unfold is_player in Hother. by rewrite Hother.
  - intros all_players ->. split.
    + intros [= Hnone]. apply fmap_None in Hnone.
      apply Forall_forall. intros other Hin.
      apply list_elem_of_In, (find_none _ _ Hnone) in Hin.
      apply andb_false_iff in Hin as [Hn|Ht].
      * left. by apply String.eqb_neq.
      * right. by apply String.eqb_neq.
    + intros Hall. f_equal. apply fmap_None.
      induction Hall as [|other rest Hother _ IH]; [done|]. simpl.
      replace (_ && _) with false; [done|].
      symmetry. apply andb_false_iff.
      destruct Hother as [Hn|Ht]; [left|right]; by apply String.eqb_neq.
Qed.

(** ** Scanning the directory *)

Lemma string_length_append (a b : string) :
  String.length (a +:+ b) = (String.length a + String.length b)%nat.
Proof. induction a as [|c a IH]; simpl; [done | by rewrite IH]. Qed.

Lemma substring_all (s : string) : String.substring 0 (String.length s) s = s.
Proof. induction s as [|c s IH]; simpl; [done | by rewrite IH]. Qed.

Lemma substring_append_r (a b : string) :
  String.substring (String.length a) (String.length b) (a +:+ b) = b.
Proof. induction a as [|c a IH]; simpl; [apply substring_all | done]. Qed.

Lemma string_split_at (s : string) :
  forall m, (m <= String.length s)%nat ->
    s = String.substring 0 m s
        +:+ String.substring m (String.length s - m) s.
Proof.
  induction s as [|c s IH]; intros m Hm; simpl in *.
  - by destruct m.
  - destruct m as [|m].
    + simpl. by rewrite substring_all.
    + change (String c s
              = String c (String.substring 0 m s
                          +:+ String.substring m (String.length s - m) s)).
      f_equal. apply IH. lia.
Qed.

Lemma endswith_spec (s ext : string) :
  endswith s ext = true <-> exists stem, s = stem +:+ ext.
Proof.
  unfold endswith. split.
  - intros [Hlen Heq]%andb_true_iff.
    apply Nat.leb_le in Hlen. apply String.eqb_eq in Heq.
    exists (String.substring 0 (String.length s - String.length ext) s).
    pose proof (string_split_at s (String.length s - String.length ext)
                  ltac:(lia)) as Hsplit.
    replace (String.length s - (String.length s - String.length ext))%nat
      with (String.length ext) in Hsplit by lia.
    by rewrite Heq in Hsplit.
  - intros [stem ->]. apply andb_true_iff. split.
    + apply Nat.leb_le. rewrite string_length_append. lia.
    + apply String.eqb_eq. rewrite string_length_append.
      replace (String.length stem + String.length ext - String.length ext)%nat
        with (String.length stem) by lia.
      apply substring_append_r.
Qed.

(** X14: [search_for_mp4_files] returns, in the order of the walk, the
    joined path of every file whose name ends in ".mp4", and nothing else:
    a path is returned exactly when it is the join of a walked directory and
    one of its file names of the form stem + ".mp4". *)
Theorem search_for_mp4_files_spec
    (os_walk : string -> list (string * list string))
    (path_join : string -> string -> string) (directory : string) :
  search_for_mp4_files os_walk path_join directory
  = flat_map (fun entry : string * list string =>
                List.map (path_join entry.1)
                         (List.filter (fun filename => endswith filename ".mp4")
                                      entry.2))
             (os_walk directory)
  /\ forall file_path,
       file_path ∈ search_for_mp4_files os_walk path_join directory
       <-> exists dirpath filenames stem,
             (dirpath, filenames) ∈ os_walk directory
             /\ stem +:+ ".mp4" ∈ filenames
             /\ file_path = path_join dirpath (stem +:+ ".mp4").
Proof.
  assert (Heq : search_for_mp4_files os_walk path_join directory
    = flat_map (fun entry : string * list string =>
                  List.map (path_join entry.1)
                           (List.filter (fun filename => endswith filename ".mp4")
                                        entry.2))
               (os_walk directory)).
  { unfold search_for_mp4_files.
    rewrite <- (app_nil_l (flat_map _ _)), <- fold_left_append_flat.
    apply fold_left_pointwise. intros acc [dirpath filenames]. simpl.
    by rewrite fold_left_append_if. }
  split; [exact Heq|]. intros file_path. rewrite Heq. split.
  - intros Hin. apply list_elem_of_In, in_flat_map in Hin
      as ([dirpath filenames] & Hwalk & Hin).
    simpl in Hin. apply in_map_iff in Hin as (filename & <- & Hin).
    apply filter_In in Hin as [Hin Hend].
    apply endswith_spec in Hend as [stem ->].
    exists dirpath, filenames, stem.
    split; [by apply list_elem_of_In|]. split; [by apply list_elem_of_In|done].
  - intros (dirpath & filenames & stem & Hwalk & Hin & ->).
    apply list_elem_of_In, in_flat_map. exists (dirpath, filenames).
    split; [by apply list_elem_of_In|]. simpl.
    apply in_map, filter_In. split; [by apply list_elem_of_In|].
    apply endswith_spec. by exists stem.
Qed.

(** ** The creation dates *)

Lemma get_video_creation_dates_lookup (getctime : string -> Q)
    (videos : list string) (video : string) :
  forall acc : gmap string Z,
    fold_left (fun video_creation_dates v =>
                 <[v := Py.int (getctime v)]> video_creation_dates)
              videos acc !! video
    = if decide (video ∈ videos) then Some (Py.int (getctime video))
      else acc !! video.
Proof.
  induction videos as [|v rest IH]; intros acc; simpl.
  - destruct (decide (video ∈ [])) as [Hin|]; [|done].
    by apply elem_of_nil in Hin.
  - rewrite IH.
    destruct (decide (video ∈ rest)) as [Hin|Hnin];
      destruct (decide (video ∈ v :: rest)) as [Hin'|Hnin']; try done.
    + exfalso. apply Hnin'. by right.
    + apply elem_of_cons in Hin' as [->|?]; [|done].
      by rewrite lookup_insert_eq.
    + rewrite lookup_insert_ne; [done|]. intros ->. apply Hnin'. left.
Qed.

Lemma fold_left_min_elem (l : list Z) (x : Z) :
  fold_left Z.min l x ∈ x :: l.
Proof.
  revert x; induction l as [|z l IH]; intros x; simpl; [left|].
  pose proof (IH (Z.min x z)) as Hin.
  apply elem_of_cons in Hin as [Heq|Hin].
  - rewrite Heq. destruct (Z.min_spec x z) as [[_ ->]|[_ ->]];
      [left | right; left].
  - right. right. done.
Qed.

(** X15: [get_video_creation_dates] maps exactly the given videos, each to
    its creation time cut to an integer.  For a non-empty list the minimum
    that [get_pairings] takes over the dictionary exists, is the creation
    date of one of the videos and is no later than any of them; so
    [get_pairings] raises [ValueError] only on an empty list. *)
Theorem get_video_creation_dates_spec (getctime : string -> Q)
    (videos : list string) :
  let dates := get_video_creation_dates getctime videos in
  (forall video,
     dates !! video
     = if decide (video ∈ videos) then Some (Py.int (getctime video))
       else None)
  /\ (videos = [] -> py_min ((map_to_list dates).*2) = Raise ValueError)
  /\ (videos <> [] ->
      exists oldest,
        py_min ((map_to_list dates).*2) = Ret oldest
        /\ (exists video, video ∈ videos /\ oldest = Py.int (getctime video))
        /\ forall video, video ∈ videos -> oldest <= Py.int (getctime video)).
Proof.
  intros dates.
  assert (Hlook : forall video,
            dates !! video
            = if decide (video ∈ videos) then Some (Py.int (getctime video))
              else None).
  { intros video. subst dates. unfold get_video_creation_dates.
    by rewrite get_video_creation_dates_lookup, lookup_empty. }
  split; [exact Hlook|]. split.
  - intros ->. subst dates. unfold get_video_creation_dates. simpl.
    by rewrite map_to_list_empty.
  - intros Hne.
    destruct ((map_to_list dates).*2) as [|x rest] eqn:Hvalues.
    + exfalso. apply fmap_nil_inv, map_to_list_empty_iff in Hvalues.
      destruct videos as [|v videos]; [done|].
      specialize (Hlook v). rewrite Hvalues, lookup_empty in Hlook.
      by rewrite decide_True in Hlook by left.
    + exists (fold_left Z.min rest x). split; [done|]. split.
      * pose proof (fold_left_min_elem rest x) as Hin.
        rewrite <- Hvalues in Hin.
        apply list_elem_of_fmap in Hin as ([video T] & Hmin & Hin).
        apply elem_of_map_to_list in Hin. simpl in Hmin.
        rewrite Hlook in Hin. case_decide as Hv; [|done].
        injection Hin as <-. by exists video.
      * intros video Hin.
        apply (py_min_le dates (fold_left Z.min rest x)) with (video := video).
        -- by rewrite Hvalues.
        -- rewrite Hlook. by rewrite decide_True.
Qed.

(** ** A video without frame rate *)

Lemma filter_out_short_videos_loop_total
    (VideoCapture : string -> option (PrimFloat.float * PrimFloat.float))
    (minDuration : Z) (mp4_files : list string) :
  forall long_videos,
    filter_out_short_videos_loop VideoCapture mp4_files minDuration long_videos
    = if existsb (zero_fps VideoCapture) mp4_files
      then Raise ZeroDivisionError
      else Ret (long_videos
                ++ List.filter (long_enough VideoCapture minDuration) mp4_files).
Proof.
  induction mp4_files as [|v rest IH]; intros long_videos; simpl.
  - by rewrite app_nil_r.
  - unfold zero_fps at 1, long_enough at 1.
    destruct (VideoCapture v) as [[fps frame_count]|]; simpl; [|apply IH].
    unfold truediv. destruct (PrimFloat.eqb fps 0%float); simpl; [done|].
    destruct (float_lt_int (PrimFloat.div frame_count fps) minDuration); simpl.
    + apply IH.
    + rewrite IH. destruct (existsb _ rest); [done|]. by rewrite <- app_assoc.
Qed.

(** X16: [filter_out_short_videos] raises [ZeroDivisionError] exactly when
    one of the videos opens with a frame rate equal to zero, of either
    sign, whatever the other videos are; in every other case it returns,
    in input order, the videos that open and whose float quotient of frame
    count by frame rate is not below [minDuration].  The quotient is the
    rounded one: 120 frames at the float nearest to a tenth of a frame per
    second pass a minimum of 1200, the quotient of the two numbers being
    below it. *)
Theorem filter_out_short_videos_total
    (VideoCapture : string -> option (PrimFloat.float * PrimFloat.float))
    (mp4_files : list string) (minDuration : Z) :
  let answer := filter_out_short_videos VideoCapture mp4_files minDuration in
  (answer = Raise ZeroDivisionError
   <-> exists video fps frame_count,
         video ∈ mp4_files
         /\ VideoCapture video = Some (fps, frame_count)
         /\ PrimFloat.eqb fps 0%float = true)
  /\ (answer <> Raise ZeroDivisionError ->
      answer
      = Ret (List.filter (long_enough VideoCapture minDuration) mp4_files))
  /\ (PrimFloat.eqb (-0)%float 0%float = true
      /\ long_enough probe_example 1200 "d.mp4" = true
      /\ float_number 0x1.999999999999ap-4%float
         = Finite (7205759403792794 # 72057594037927936)
      /\ (inject_Z 120 / (7205759403792794 # 72057594037927936) < 1200)%Q).
Proof.
  intros answer. subst answer. unfold filter_out_short_videos.
  rewrite filter_out_short_videos_loop_total. simpl.
  split; [|split; [|repeat split; reflexivity]].
  - destruct (existsb (zero_fps VideoCapture) mp4_files) eqn:Hzero.
    + split; [|done]. intros _.
      apply existsb_exists in Hzero as (video & Hin & Hz).
      unfold zero_fps in Hz.
      destruct (VideoCapture video) as [[fps frame_count]|] eqn:Hcap; [|done].
      exists video, fps, frame_count.
      split; [by apply list_elem_of_In|]. by split.
    + split; [done|].
      intros (video & fps & frame_count & Hin & Hcap & Hz). exfalso.
      assert (existsb (zero_fps VideoCapture) mp4_files = true);
        [|congruence].
      apply existsb_exists. exists video. split; [by apply list_elem_of_In|].
      unfold zero_fps. by rewrite Hcap.
  - by destruct (existsb (zero_fps VideoCapture) mp4_files).
Qed.

(** ** The spreadsheet between writing and filtering *)

Lemma logged_paths_short (sheet : Sheet) :
  (length sheet <= 1)%nat -> logged_paths sheet = [].
Proof.
  intros Hlen. unfold logged_paths, column_cells, max_row.
  replace (Z.to_nat (Z.max 1 (Z.of_nat (length sheet)))) with 1%nat by lia.
  done.
Qed.

Lemma logged_paths_append (sheet : Sheet) (row : list Cell) :
  sheet <> [] ->
  logged_paths (sheet ++ [row])
  = logged_paths sheet ++ [c_value (nth 8 row empty_cell)].
Proof.
  intros Hne. unfold logged_paths, column_cells, max_row.
  assert (Hlen : (0 < length sheet)%nat)
    by (destruct sheet; [done | simpl; lia]).
  rewrite length_app. simpl length.
  replace (Z.to_nat (Z.max 1 (Z.of_nat (length sheet + 1))))
    with (S (length sheet)) by lia.
  replace (Z.to_nat (Z.max 1 (Z.of_nat (length sheet))))
    with (length sheet) by lia.
  rewrite seq_S, List.map_app. simpl List.map at 2.
  rewrite drop_app_le
    by (rewrite length_map, length_seq; lia).
  rewrite List.map_app. f_equal.
  - f_equal. f_equal. apply map_ext_in. intros r Hr.
    apply in_seq in Hr. unfold cell_at. f_equal.
    apply app_nth1. lia.
  - simpl. unfold cell_at.
    replace (S (length sheet) - 1)%nat with (length sheet) by lia.
    rewrite app_nth2 by lia. by rewrite Nat.sub_diag.
Qed.

Lemma filter_logged_append (logged : list value) (p : string)
    (mp4_files : list string) :
  List.filter (fun video =>
                 negb (bool_decide (VStr video ∈ logged ++ [VStr p])))
              mp4_files
  = List.filter (fun video => negb (String.eqb video p))
      (List.filter (fun video => negb (bool_decide (VStr video ∈ logged)))
                   mp4_files).
Proof.
  induction mp4_files as [|v rest IH]; [done|]. simpl. rewrite IH.
  destruct (bool_decide (VStr v ∈ logged)) eqn:Hlogged; simpl.
  - replace (bool_decide (VStr v ∈ logged ++ [VStr p])) with true; [done|].
    symmetry. apply bool_decide_eq_true. apply elem_of_app. left.
    by apply bool_decide_eq_true in Hlogged.
  - destruct (String.eqb_spec v p) as [->|Hne]; simpl.
    + replace (bool_decide (VStr p ∈ logged ++ [VStr p])) with true; [done|].
      symmetry. apply bool_decide_eq_true, elem_of_app. right. left.
    + replace (bool_decide (VStr v ∈ logged ++ [VStr p])) with false; [done|].
      symmetry. apply bool_decide_eq_false. apply bool_decide_eq_false in Hlogged.
      intros [?|Hin]%elem_of_app; [done|].
      apply list_elem_of_singleton in Hin. congruence.
Qed.

Lemma filter_nothing_logged (mp4_files : list string) :
  List.filter (fun video => negb (bool_decide (VStr video ∈ @nil value)))
              mp4_files = mp4_files.
Proof.
  induction mp4_files as [|v rest IH]; [done|]. cbn [List.filter].
  rewrite bool_decide_eq_false_2 by apply not_elem_of_nil.
  cbn [negb]. by rewrite IH.
Qed.

Lemma first_row_short (filename : string) (sheet : Sheet)
    (mp4_files : list string) :
  (length sheet <= 1)%nat ->
  filterOutProcessedMatches (mkExcel filename (Some sheet)) mp4_files
  = Ret (Some mp4_files).
Proof.
  intros Hlen. rewrite filterOutProcessedMatches_open.
  fold (logged_paths sheet). rewrite (logged_paths_short sheet Hlen).
  by rewrite filter_nothing_logged.
Qed.

(** X17: the first row is never compared with the paths: on a sheet of at
    most one row, such as the one [create] makes, [filterOutProcessedMatches]
    returns its input unchanged, whatever the row holds.  Without an open
    workbook it answers [None]. *)
Theorem first_row_is_skipped (filename : string) (mp4_files : list string) :
  (forall sheet, (length sheet <= 1)%nat ->
     filterOutProcessedMatches (mkExcel filename (Some sheet)) mp4_files
     = Ret (Some mp4_files))
  /\ filterOutProcessedMatches (create (init filename)).1.1 mp4_files
     = Ret (Some mp4_files)
  /\ filterOutProcessedMatches (init filename) mp4_files = Ret None.
Proof.
  split; [intros sheet; apply first_row_short|]. split; [|done].
  apply (first_row_short filename [header_row]). simpl. lia.
Qed.

(** X18: in the workbook in memory, the row [writeMatchesToExcel] appends
    for its first entry is seen by the filter at once when the sheet had a
    row before: the entry's local path is removed from what the filter
    returned before, and nothing else is.  On a sheet without any row the
    appended row becomes the first row, and its path is not filtered. *)
Theorem appended_path_is_filtered (filename : string) (sheet : Sheet)
    (disk : Disk) (match_ : ExcelMatchEntry) (rest : list ExcelMatchEntry)
    (mp4_files : list string) (p : string) :
  e_localPath match_ = Some p ->
  let after :=
    (writeMatchesToExcel (mkExcel filename (Some sheet)) disk
                         (match_ :: rest)).1.1 in
  (sheet <> [] ->
   exists before,
     filterOutProcessedMatches (mkExcel filename (Some sheet)) mp4_files
     = Ret (Some before)
     /\ filterOutProcessedMatches after mp4_files
        = Ret (Some (List.filter (fun video => negb (String.eqb video p))
                                 before)))
  /\ (sheet = [] ->
      filterOutProcessedMatches after mp4_files = Ret (Some mp4_files)).
Proof.
  intros Hpath after. subst after.
  unfold writeMatchesToExcel. cbn [wb].
  rewrite (write_rows_eq sheet (match_ :: rest)). cbn [fst].
  split.
  - intros Hne. eexists. split; [apply filterOutProcessedMatches_open|].
    rewrite filterOutProcessedMatches_open.
    fold (logged_paths sheet).
    fold (logged_paths (append sheet (List.map (field match_) members))).
    unfold append. rewrite logged_paths_append by done.
    simpl nth. rewrite Hpath. simpl. by rewrite filter_logged_append.
  - intros ->. apply first_row_short. simpl. lia.
Qed.

Lemma appended_path_is_filtered_witness :
  filterOutProcessedMatches
    (writeMatchesToExcel (mkExcel "matches.xlsx" (Some [header_row])) None
                         [game_example]).1.1
    ["a.mp4"; "b.mp4"]
  = Ret (Some ["b.mp4"]).
Proof.
  destruct (appended_path_is_filtered "matches.xlsx" [header_row] None
              game_example [] ["a.mp4"; "b.mp4"] "a.mp4" eq_refl)
    as [Hfiltered _].
  destruct (Hfiltered ltac:(discriminate)) as (before & Hbefore & Hafter).
  refine (eq_trans Hafter _).
  vm_compute in Hbefore. injection Hbefore as <-. reflexivity.
Defined.

(** ** Opening the spreadsheet *)

Lemma open_while_locked (locked : nat -> bool) (n : nat) :
  forall (fuel attempt : nat) (self : ExcelSpreadsheet) (disk : Disk),
    (forall a, (attempt <= a < attempt + n)%nat -> locked a = true) ->
    open (n + fuel) locked attempt self disk
    = open fuel locked (attempt + n) self disk.
Proof.
  induction n as [|n IH]; intros fuel attempt self disk Hlocked.
  - simpl. by rewrite Nat.add_0_r.
  - simpl. unfold load_workbook. rewrite (Hlocked attempt) by lia.
    rewrite IH by (intros a Ha; apply Hlocked; lia).
    by replace (S attempt + n)%nat with (attempt + S n)%nat by lia.
Qed.

(** X19: [open] tries again as long as another program holds the file.
    At the first attempt that finds it free it loads the workbook, leaving
    the file as it is, or creates one with the header row when the file is
    missing; either way a workbook is open afterwards.  While the file stays
    held, [open] does not return. *)
Theorem open_waits_for_the_file (locked : nat -> bool)
    (self : ExcelSpreadsheet) (disk : Disk) :
  (forall n fuel,
     (forall a, (a < n)%nat -> locked a = true) -> locked n = false ->
     (n < fuel)%nat ->
     open fuel locked 0 self disk
     = match disk with
       | Some sheet => (mkExcel (filename self) (Some sheet), disk, Ret sheet)
       | None =>
           (mkExcel (filename self) (Some [header_row]), Some [header_row],
            Ret [header_row])
       end)
  /\ ((forall a, locked a = true) ->
      forall fuel, open fuel locked 0 self disk = (self, disk, OutOfFuel)).
Proof.
  split.
  - intros n fuel Hlocked Hfree Hfuel.
    replace fuel with (n + S (fuel - S n))%nat by lia.
    rewrite open_while_locked by (intros a Ha; apply Hlocked; lia).
    simpl. unfold load_workbook. rewrite Hfree. by destruct disk.
  - intros Hlocked fuel.
    replace fuel with (fuel + 0)%nat by lia.
    by rewrite open_while_locked by (intros a _; apply Hlocked).
Qed.

(** ** The saved player *)


(** X21: after [configure] the file holds valid data.  Valid data already
    in the file is kept, without a prompt; in every other case, a file that
    lacks one of the three keys included, the three answers of the user
    replace whatever the file held. *)
Theorem configure_leaves_valid_data (file : valorantData.DataFile)
    (input : nat -> string) :
  let after := (configure file input).1 in
  let prompts := (configure file input).2 in
  valorantData.valid (valorantData.init after) = true
  /\ (valorantData.valid (valorantData.init file) = true ->
      after = file /\ prompts = 0%nat)
  /\ (valorantData.valid (valorantData.init file) = false ->
      valorantData.init after
      = valorantData.mkData (Some (input 0%nat)) (Some (input 1%nat))
                            (Some (input 2%nat))
      /\ prompts = 3%nat).
Proof.
  intros after prompts. subst after prompts. unfold configure.
  destruct (valorantData.valid (valorantData.init file)) eqn:Hvalid; simpl.
  - by rewrite Hvalid.
  - split; [|split; [done|]].
    + by destruct (valorantData.init file) as [g t r].
    + intros _. by destruct (valorantData.init file) as [g t r].
Qed.

Lemma configure_leaves_valid_data_witness :
  valorantData.init (configure partial_data_example (fun _ => "x")).1
  = valorantData.mkData (Some "x") (Some "x") (Some "x").
Proof.
  destruct (configure_leaves_valid_data partial_data_example (fun _ => "x"))
    as (_ & _ & Hnew).
  apply Hnew. reflexivity.
Defined.

(** ** What a run uploads *)

Lemma compare_paired (utc_to_unix : string -> Q) (matchlist : list Match)
    (localVideoDates : gmap string Z) (time_threshold : Z) (p : Pairing) :
  p ∈ compare_matchlist_with_video_dates utc_to_unix matchlist localVideoDates
        time_threshold ->
  exists T, localVideoDates !! video_path p = Some T
    /\ close T (utc_to_unix (meta_started_at (match_data p))) time_threshold
       = true.
Proof.
  rewrite compare_matchlist_with_video_dates_eq.
  intros Hin. apply list_elem_of_In, in_flat_map in Hin as (m & _ & Hin).
  apply list_elem_of_In, elem_of_pairings_of in Hin as (<- & T & ? & ?).
  by exists T.
Qed.

Lemma get_pairings_loop_paired (utc_to_unix : string -> Q)
    (get_matchlist : Z -> Z -> option Page) (localVideoDates : gmap string Z)
    (pageSize time_threshold oldest : Z) (P : Pairing -> Prop) (fuel : nat) :
  (forall matchlist p,
     p ∈ compare_matchlist_with_video_dates utc_to_unix matchlist
           localVideoDates time_threshold -> P p) ->
  forall st pairings,
    (get_pairings_loop utc_to_unix get_matchlist fuel localVideoDates pageSize
                       time_threshold oldest st).2 = Ret pairings ->
    Forall P (total_pairings st) -> Forall P pairings.
Proof.
  intros Hcompare. induction fuel as [|fuel IH]; intros st pairings; simpl.
  - destruct (negb _); simpl; [by intros [= <-] | done].
  - destruct (negb _); simpl; [by intros [= <-]|].
    destruct (get_matchlist pageSize (page st)) as [p|]; [|done].
    destruct (index _ _) as [last_|e|]; [|done|done].
    assert (Hnew : Forall P (total_pairings st) ->
              Forall P (total_pairings st
                        ++ compare_matchlist_with_video_dates utc_to_unix
                             (data p) localVideoDates time_threshold)).
    { intros Hst. apply Forall_app. split; [done|].
      apply Forall_forall. intros q Hq. by apply (Hcompare (data p)). }
    destruct (results_returned p =? results_after p); simpl.
    + intros [= <-]. exact Hnew.
    + intros Hrun Hst. apply (IH _ _ Hrun). simpl. by apply Hnew.
Qed.

Lemma build_matches_entries (w : World) (R : Pairing -> Prop)
    (pairings : list Pairing) :
  Forall R pairings ->
  forall matches trace games,
    (build_matches w pairings matches trace).2 = Ret games ->
    let built game :=
      exists pair_, R pair_
        /\ e_localPath game = Some (video_path pair_)
        /\ e_YTLink game = None
        /\ e_matchId game = meta_id (match_data pair_) in
    Forall built matches -> Forall built games.
Proof.
  induction 1 as [|pair_ rest Hpair _ IH]; intros matches trace games; simpl.
  - by intros [= <-].
  - destruct (getGameResult (match_data pair_)) as [matchResult_ score_].
    destruct (getRankBeforeMatch _ _ _ _) as [rank_|e|]; [|done|done].
    intros Hrun Hmatches. apply (IH _ _ _ Hrun).
    apply Forall_app. split; [done|]. constructor; [|constructor].
    by exists pair_.
Qed.

Lemma open_sets_workbook (locked : nat -> bool) (fuel : nat) :
  forall attempt self disk excelFile disk' sheet,
    open fuel locked attempt self disk = (excelFile, disk', Ret sheet) ->
    wb excelFile = Some sheet.
Proof.
  induction fuel as [|fuel IH];
    intros attempt self disk excelFile disk' sheet; simpl; [done|].
  destruct (load_workbook disk locked attempt) as [loaded| |].
  - by intros [= <- _ <-].
  - unfold create. simpl. by intros [= <- _ <-].
  - apply IH.
Qed.

Ltac not_in_calls H :=
  repeat (apply elem_of_cons in H as [H|H]; [discriminate H|]);
  by apply elem_of_nil in H.

Lemma process_upload (fuel : nat) (w : World) (excelFile : ExcelSpreadsheet)
    (disk : Disk) (mp4_files : list string) (trace : list call)
    (games : list ExcelMatchEntry) :
  Upload games ∈ (process fuel w excelFile disk mp4_files trace).1.1 ->
  Upload games ∉ trace ->
  exists pages pairings trace',
    get_pairings (w_utc_to_unix w) (w_get_matchlist w) fuel (w_time_pairings w)
      (get_video_creation_dates (w_getctime w) mp4_files) default_pageSize
      default_time_threshold = (pages, Ret pairings)
    /\ (build_matches w pairings [] trace').2 = Ret games.
Proof.
  unfold process.
  destruct (get_pairings _ _ _ _ _ _ _) as [pages r].
  assert (Hrank : forall ids : list string,
            Upload games ∉ List.map FetchRank ids).
  { intros ids Hin. apply list_elem_of_In, in_map_iff in Hin as (? & ? & _).
    done. }
  destruct r as [pairings|e|]; simpl.
  - pose proof (build_matches_trace w pairings []
                  ((trace ++ [CreationDates]) ++ [FetchMatchlist pages]))
      as [ids Hids].
    destruct (build_matches w pairings [] _) as [trace' r] eqn:Hbuild.
    simpl in Hids. subst trace'.
    assert (Hbefore : Upload games ∉ trace ->
              Upload games
              ∉ ((trace ++ [CreationDates]) ++ [FetchMatchlist pages])
                ++ List.map FetchRank ids).
    { intros Hnot Hin.
      apply elem_of_app in Hin as [Hin|Hin]; [|by apply (Hrank ids)].
      apply elem_of_app in Hin as [Hin|Hin]; [|not_in_calls Hin].
      apply elem_of_app in Hin as [Hin|Hin]; [done | not_in_calls Hin]. }
    destruct r as [matches|e|]; simpl.
    + destruct (uploadGamesToYoutube _ _ _ _ _ _) as [[uploaded|]|e|]; simpl.
      * destruct (writeMatchesToExcel _ _ _) as [[? ?] ?]. simpl.
        intros Hin Hnot.
        apply elem_of_app in Hin as [Hin|Hin]; [|not_in_calls Hin].
        apply elem_of_app in Hin as [Hin|Hin];
          [destruct (Hbefore Hnot Hin)|].
        apply list_elem_of_singleton in Hin as [= ->].
        eexists _, _, _. split; [reflexivity | by rewrite Hbuild].
      * intros Hin Hnot.
        apply elem_of_app in Hin as [Hin|Hin]; [|not_in_calls Hin].
        apply elem_of_app in Hin as [Hin|Hin];
          [destruct (Hbefore Hnot Hin)|].
        apply list_elem_of_singleton in Hin as [= ->].
        eexists _, _, _. split; [reflexivity | by rewrite Hbuild].
      * intros Hin Hnot.
        apply elem_of_app in Hin as [Hin|Hin];
          [destruct (Hbefore Hnot Hin)|].
        apply list_elem_of_singleton in Hin as [= ->].
        eexists _, _, _. split; [reflexivity | by rewrite Hbuild].
      * intros Hin Hnot.
        apply elem_of_app in Hin as [Hin|Hin];
          [destruct (Hbefore Hnot Hin)|].
        apply list_elem_of_singleton in Hin as [= ->].
        eexists _, _, _. split; [reflexivity | by rewrite Hbuild].
    + intros Hin Hnot. destruct (Hbefore Hnot Hin).
    + intros Hin Hnot. destruct (Hbefore Hnot Hin).
  - intros Hin Hnot.
    apply elem_of_app in Hin as [Hin|Hin]; [|not_in_calls Hin].
    apply elem_of_app in Hin as [Hin|Hin]; [done | not_in_calls Hin].
  - intros Hin Hnot.
    apply elem_of_app in Hin as [Hin|Hin]; [|not_in_calls Hin].
    apply elem_of_app in Hin as [Hin|Hin]; [done | not_in_calls Hin].
Qed.

(** X22: whatever the world answers, every game a run of [main] hands to
    the upload carries no link yet and the path of a video that the scan
    found under the VOD directory, that opens with a duration, the float
    quotient of its frame count by its frame rate, not below 1200 seconds,
    that is not older than 7 days, that is not logged in the opened spreadsheet, and
    that was created less than 300 seconds from the start of the match the
    game is built from. *)
Theorem main_uploads_only_checked_videos (fuel : nat) (w : World)
    (PATH_TO_EXCEL_FILE : string) (games : list ExcelMatchEntry) :
  Upload games ∈ (main fuel w PATH_TO_EXCEL_FILE).1.1 ->
  exists excelFile disk sheet,
    open fuel (w_locked w) 0 (init PATH_TO_EXCEL_FILE) (w_disk w)
    = (excelFile, disk, Ret sheet)
    /\ Forall (checked_game w sheet) games.
Proof.
  unfold main.
  pose proof (filter_out_short_videos_loop_total (w_VideoCapture w) (20 * 60)
                (search_for_mp4_files (w_os_walk w) (w_path_join w) VOD_DIR)
                []) as Hshort.
  fold (filter_out_short_videos (w_VideoCapture w)
          (search_for_mp4_files (w_os_walk w) (w_path_join w) VOD_DIR)
          (20 * 60)) in Hshort.
  destruct (filter_out_short_videos _ _ _) as [long_videos|e|]; simpl;
    [|intros Hin; not_in_calls Hin|intros Hin; not_in_calls Hin].
  destruct (existsb _ _); [done|]. injection Hshort as ->.
  destruct (open _ _ _ _ _) as [[excelFile disk] r] eqn:Hopen.
  destruct r as [sheet|e|]; simpl;
    [|intros Hin; not_in_calls Hin|intros Hin; not_in_calls Hin].
  pose proof (open_sets_workbook _ _ _ _ _ _ _ _ Hopen) as Hwb.
  destruct excelFile as [name wb_]. simpl in Hwb. subst wb_.
  rewrite filterOutProcessedMatches_open. fold (logged_paths sheet).
  simpl.
  destruct (length _ =? 0)%nat; simpl; [intros Hin; not_in_calls Hin|].
  intros Hin.
  apply process_upload in Hin as (pages & pairings & trace' & Hpairs & Hbuild);
    [|intros Hin'; not_in_calls Hin'].
  exists (mkExcel name (Some sheet)), disk, sheet. split; [done|].
  set (mp4_files := List.filter _ (filter_out_old_videos _ _ _)) in *.
  set (dates := get_video_creation_dates (w_getctime w) mp4_files) in *.
  set (paired := fun p : Pairing =>
         exists T, dates !! video_path p = Some T
           /\ close T (w_utc_to_unix w (meta_started_at (match_data p)))
                    default_time_threshold = true).
  assert (Hpaired : Forall paired pairings).
  { unfold get_pairings in Hpairs.
    destruct (py_min _) as [oldest|e|]; [|done|done].
    apply (get_pairings_loop_paired (w_utc_to_unix w) (w_get_matchlist w)
             dates default_pageSize default_time_threshold oldest paired fuel)
      with (st := mkLoop [] 1 (w_time_pairings w) []).
    - intros matchlist p. apply compare_paired.
    - by rewrite Hpairs.
    - constructor. }
  pose proof (build_matches_entries w paired pairings Hpaired [] trace' games
                Hbuild ltac:(constructor)) as Hgames.
  eapply Forall_impl; [exact Hgames|]. simpl.
  intros game (pair_ & (T & Hlook & Hclose) & Hpath & Hlink & Hid).
  subst dates. unfold get_video_creation_dates in Hlook.
  rewrite get_video_creation_dates_lookup, lookup_empty in Hlook.
  case_decide as Hin; [|done]. injection Hlook as <-.
  subst mp4_files. unfold filter_out_old_videos in Hin.
  rewrite fold_left_skip_if in Hin. simpl in Hin.
  apply list_elem_of_In, filter_In in Hin as [Hin Hlogged].
  apply filter_In in Hin as [Hin Hnew].
  apply filter_In in Hin as [Hin Hlong].
  exists (video_path pair_), (match_data pair_).
  split; [done|]. split; [done|]. split; [done|].
  split; [by apply list_elem_of_In|]. split; [done|].
  split; [unfold new_enough; rewrite <- negb_ltb; exact Hnew|].
  split; [|done].
  apply negb_true_iff, bool_decide_eq_false in Hlogged. done.
Qed.

Lemma main_uploads_only_checked_videos_witness :
  exists excelFile disk sheet,
    open 3 (w_locked world_example) 0 (init "matches.xlsx")
         (w_disk world_example)
    = (excelFile, disk, Ret sheet)
    /\ Forall (checked_game world_example sheet) [paired_game_example].
Proof.
  apply (main_uploads_only_checked_videos 3 world_example "matches.xlsx"
           [paired_game_example]).
  vm_compute. do 9 right. left.
Defined.

(** ** The playlist in front of the uploads *)

(** X23: [uploadGamesToYoutube] on top of the lookup and the creation of
    the playlist.  When the first query for the playlists fails, it answers
    [None] whatever the games are; when no playlist has the name and the
    response to the creation holds no id, it raises [KeyError]; in neither
    case does the answer depend on what the uploads would do. *)
Theorem uploadGamesToYoutube_playlist
    (uploadVideo : nat -> option string -> string -> outcome (option string))
    (queryPlaylistItemsInsert :
       nat -> string -> option string -> outcome (option Response))
    (queryPlaylistsList : option string -> outcome (option PlaylistsPage))
    (queryPlaylistsInsert : string -> outcome (option Response))
    (fuel : nat) (schedule : list nat) (games : list ExcelMatchEntry) :
  let answer :=
    uploadGamesToYoutube uploadVideo queryPlaylistItemsInsert
      (getPlaylistIDByName queryPlaylistsList (S fuel))
      (createPlaylist queryPlaylistsInsert) schedule games in
  (query_fails (queryPlaylistsList None) -> answer = Ret None)
  /\ (forall response created,
        queryPlaylistsList None = Ret (Some response) ->
        List.find (fun playlist =>
                     String.eqb (playlist_title playlist) VODs_playlist_name)
                  (items response) = None ->
        nextPageToken response = None ->
        queryPlaylistsInsert VODs_playlist_name = Ret (Some created) ->
        created !! "id" = None ->
        answer = Raise KeyError).
Proof.
  intros answer. subst answer. unfold uploadGamesToYoutube. split.
  - intros Hfails. unfold getPlaylistIDByName. simpl.
    by destruct Hfails as [->|[[status ->]|[runs ->]]].
  - intros response created Hquery Hfind Hnext Hinsert Hid.
    unfold getPlaylistIDByName. simpl. rewrite Hquery, Hfind, Hnext. simpl.
    unfold createPlaylist. rewrite Hinsert. unfold getitem, Response in *.
    by rewrite Hid.
Qed.

(** ** The spreadsheet file after a run *)

Lemma open_result (locked : nat -> bool) (fuel : nat) :
  forall attempt self disk excelFile disk' r,
    open fuel locked attempt self disk = (excelFile, disk', r) ->
    match r with
    | Ret sheet =>
        wb excelFile = Some sheet /\ disk' = Some sheet
        /\ (disk = Some sheet \/ disk = None /\ sheet = [header_row])
    | _ => disk' = disk
    end.
Proof.
  induction fuel as [|fuel IH]; intros attempt self disk excelFile disk' r;
    simpl.
  - by intros [= <- <- <-].
  - unfold load_workbook. destruct (locked attempt); [apply IH|].
    destruct disk as [sheet|].
    + intros [= <- <- <-]. simpl. split; [done|]. split; [done | by left].
    + unfold create. simpl. intros [= <- <- <-]. simpl.
      split; [done|]. split; [done | by right].
Qed.

Lemma process_disk (fuel : nat) (w : World) (excelFile : ExcelSpreadsheet)
    (disk : Disk) (mp4_files : list string) (trace : list call) :
  wb excelFile = disk ->
  (process fuel w excelFile disk mp4_files trace).1.2 = disk.
Proof.
  intros Hwb. unfold process.
  destruct (get_pairings _ _ _ _ _ _ _) as [pages r].
  destruct r as [pairings|e|]; simpl; [|done|done].
  destruct (build_matches _ _ _ _) as [trace' r].
  destruct r as [matches|e|]; simpl; [|done|done].
  destruct (uploadGamesToYoutube _ _ _ _ _ _) as [[uploaded|]|e|]; simpl;
    [|done|done|done].
  unfold writeMatchesToExcel. rewrite Hwb.
  destruct disk as [sheet|]; [|done].
  rewrite write_rows_eq. by destruct uploaded.
Qed.

(** X24: a run of [main] never changes the rows of the spreadsheet file:
    a file that exists is left as it was, whatever was uploaded, and a file
    that was missing stays missing or holds the header row only. *)
Theorem main_keeps_the_rows (fuel : nat) (w : World)
    (PATH_TO_EXCEL_FILE : string) :
  let after := (main fuel w PATH_TO_EXCEL_FILE).1.2 in
  (forall sheet, w_disk w = Some sheet -> after = Some sheet)
  /\ (w_disk w = None -> after = None \/ after = Some [header_row]).
Proof.
  intros after.
  assert (Hafter : after = w_disk w
                   \/ w_disk w = None /\ after = Some [header_row]).
  { subst after. unfold main.
    destruct (filter_out_short_videos _ _ _) as [long_videos|e|]; simpl;
      [|by left|by left].
    destruct (open _ _ _ _ _) as [[excelFile disk] r] eqn:Hopen.
    apply open_result in Hopen.
    destruct r as [sheet|e|]; simpl; [|left; done|left; done].
    destruct Hopen as (Hwb & -> & Hdisk).
    assert (Hkept : Some sheet = w_disk w
                    \/ w_disk w = None /\ Some sheet = Some [header_row]).
    { destruct Hdisk as [->|[-> ->]]; [by left | by right]. }
    destruct (filterOutProcessedMatches _ _) as [[mp4_files|]|e|]; simpl;
      try done.
    destruct (length mp4_files =? 0)%nat; simpl; [done|].
    by rewrite process_disk. }
  split.
  - intros sheet Hdisk. destruct Hafter as [->|[Hnone _]]; congruence.
  - intros Hdisk. destruct Hafter as [->|[_ ->]]; [by left | by right].
Qed.
